(** * Billing and credit reconciliation core of the resume builder backend

    A shallow embedding of the credit service, the payment service
    (webhook handlers and reconciliation calls) and the Mongoose models they
    touch, followed by the properties of the billing specification.

    Conventions of the embedding:
    - a collection is a list in insertion order (the order [findOne] scans),
      except the users and the settings, which are maps keyed by id / key;
    - an [async] function is a function from the store to a completion
      (returned value or thrown exception) and the store it leaves behind:
      there is no rollback, so whatever was written before a [throw] stays;
    - numbers are integers; money is kept in minor units (cents), where the
      source divides by 100 for display; dates are milliseconds since epoch;
    - write-only fields (timestamps, free-form metadata that no query reads)
      are left out of the records. *)

From Stdlib Require Import ZArith Lia Ascii DecimalString.
From stdpp Require Import base option list gmap strings.

Local Open Scope Z_scope.

(* ------------------------------------------------------------------ *)
(** ** Values *)

(** A JavaScript number that may be [Infinity] (the admin's balance). *)
Inductive num := Fin (z : Z) | Infinity.

Definition string_of_Z (z : Z) : string := NilZero.string_of_int (Z.to_int z).

Definition string_of_num (n : num) : string :=
  match n with Fin z => string_of_Z z | Infinity => "Infinity" end.

(** What an [async] call can throw. *)
Inductive exn :=
| Error (message : string)
| ValidationError (model path : string)
| DuplicateKeyError (model path : string)
| TypeError (message : string)
| CastError (model path : string)
| StripeError (message : string).

(* ------------------------------------------------------------------ *)
(** ** Schemas *)

Inductive Role := admin | user.

Inductive Plan := monthly | yearly.

Module User.
Record t := mk { email : string; role : Role; credits : Z }.
Definition inc (delta : Z) (u : t) : t :=
  {| email := email u; role := role u; credits := credits u + delta |}.
End User.

Module CreditLog.
Inductive kind := usage | addition | initial | admin_adjustment | purchase | refund.
Record t := mk {
  userId : string;
  type : kind;
  action : option string;
  credits : Z;
  balanceAfter : option Z;
  description : string
}.
End CreditLog.

Module Transaction.
Inductive Status := pending | completed | failed | refunded.
Record t := mk {
  userId : string;
  stripeSessionId : option string;
  stripePaymentIntentId : option string;
  stripeSubscriptionId : option string;
  stripeInvoiceId : option string;
  type : string;
  status : Status;
  amount : Z;
  currency : string;
  creditsAdded : Z;
  plan : option Plan;
  description : string;
  stripeEventType : string;
  metadata_chargeId : option string;
  metadata_paymentIntentId : option string
}.
(** The [enum] of the [type] path of the schema. *)
Definition type_enum : list string :=
  ["credit_purchase"; "credit_usage"; "subscription_payment";
   "subscription_renewal"; "refund"].
End Transaction.

Module Subscription.
(** Feature flags derived from the subscription. *)
Record Features := mkFeatures {
  publicResumes : bool;
  resumeAnalytics : bool;
  salaryEstimation : bool
}.
Definition all_features : Features := mkFeatures true true true.
Record t := mk {
  userId : string;
  stripeCustomerId : option string;
  stripeSubscriptionId : option string;
  plan : Plan;
  status : string;
  currentPeriodStart : option Z;
  currentPeriodEnd : option Z;
  cancelAtPeriodEnd : bool;
  features : Features
}.
(** The [enum] of the [status] path of the schema. *)
Definition status_enum : list string :=
  ["active"; "canceled"; "past_due"; "trialing"; "incomplete"; "expired"].
Definition set_status (s : string) (r : t) : t :=
  mk (userId r) (stripeCustomerId r) (stripeSubscriptionId r) (plan r) s
     (currentPeriodStart r) (currentPeriodEnd r) (cancelAtPeriodEnd r) (features r).
Definition set_cancelAtPeriodEnd (b : bool) (r : t) : t :=
  mk (userId r) (stripeCustomerId r) (stripeSubscriptionId r) (plan r) (status r)
     (currentPeriodStart r) (currentPeriodEnd r) b (features r).
Definition set_plan (p : Plan) (r : t) : t :=
  mk (userId r) (stripeCustomerId r) (stripeSubscriptionId r) p (status r)
     (currentPeriodStart r) (currentPeriodEnd r) (cancelAtPeriodEnd r) (features r).
Definition set_period (ps pe : Z) (r : t) : t :=
  mk (userId r) (stripeCustomerId r) (stripeSubscriptionId r) (plan r) (status r)
     (Some ps) (Some pe) (cancelAtPeriodEnd r) (features r).
(** [subscriptionSchema.methods.isActive] *)
Definition isActive (now : Z) (r : t) : bool :=
  bool_decide (status r ∈ ["active"; "trialing"]) &&
  match currentPeriodEnd r with Some e => now <? e | None => false end.
End Subscription.

Module Resume.
Inductive Visibility := public | private.
Record t := mk { userId : string; visibility : Visibility; isDeleted : bool }.
End Resume.

(* ------------------------------------------------------------------ *)
(** ** The store and the [async] monad *)

Record Store := mkStore {
  users : gmap string User.t;
  settings : gmap string Z;
  textSettings : gmap string string;
  creditLogs : list CreditLog.t;
  transactions : list Transaction.t;
  subscriptions : list Subscription.t;
  resumes : list Resume.t
}.

Definition set_users (f : gmap string User.t → gmap string User.t) (st : Store) : Store :=
  mkStore (f (users st)) (settings st) (textSettings st) (creditLogs st)
          (transactions st) (subscriptions st) (resumes st).
Definition set_creditLogs (f : list CreditLog.t → list CreditLog.t) (st : Store) : Store :=
  mkStore (users st) (settings st) (textSettings st) (f (creditLogs st))
          (transactions st) (subscriptions st) (resumes st).
Definition set_transactions (f : list Transaction.t → list Transaction.t) (st : Store) : Store :=
  mkStore (users st) (settings st) (textSettings st) (creditLogs st)
          (f (transactions st)) (subscriptions st) (resumes st).
Definition set_subscriptions (f : list Subscription.t → list Subscription.t) (st : Store) : Store :=
  mkStore (users st) (settings st) (textSettings st) (creditLogs st)
          (transactions st) (f (subscriptions st)) (resumes st).
Definition set_resumes (f : list Resume.t → list Resume.t) (st : Store) : Store :=
  mkStore (users st) (settings st) (textSettings st) (creditLogs st)
          (transactions st) (subscriptions st) (f (resumes st)).

Inductive completion (A : Type) := Return (a : A) | Throw (e : exn).
Arguments Return {A} a.
Arguments Throw {A} e.

Definition Async (A : Type) : Type := Store → completion A * Store.

Definition ret {A} (a : A) : Async A := λ st, (Return a, st).
Definition throw {A} (e : exn) : Async A := λ st, (Throw e, st).
Definition bind {A B} (m : Async A) (k : A → Async B) : Async B :=
  λ st, match m st with
        | (Return a, st') => k a st'
        | (Throw e, st') => (Throw e, st')
        end.
Definition read {A} (f : Store → A) : Async A := λ st, (Return (f st), st).
Definition write (f : Store → Store) : Async unit := λ st, (Return tt, f st).
(** [try { m } catch { h }] *)
Definition try_catch {A} (m : Async A) (h : Async A) : Async A :=
  λ st, match m st with
        | (Return a, st') => (Return a, st')
        | (Throw _, st') => h st'
        end.
(** Lifting the reply of an external call. *)
Definition external {A} (r : completion A) : Async A := λ st, (r, st).

Notation "'await' x <- m ;; k" := (bind m (λ x, k))
  (at level 10, x name, m at level 99, k at level 200,
   format "'[v' 'await'  x  <-  m  ;; '/' k ']'").
Notation "'await' ' p <- m ;; k" := (bind m (λ x, match x with p => k end))
  (at level 10, p pattern, m at level 99, k at level 200).
Notation "'do' m ;; k" := (bind m (λ _, k))
  (at level 10, m at level 99, k at level 200,
   format "'[v' 'do'  m  ;; '/' k ']'").

(** The store left behind and the completion, whatever it is. *)
Definition final {A} (r : completion A * Store) : Store := snd r.
Definition outcome {A} (r : completion A * Store) : completion A := fst r.

(* ------------------------------------------------------------------ *)
(** ** Model statics *)

(** First document matching a filter, with its position. *)
Fixpoint findOne_from {A} (p : A → bool) (i : nat) (l : list A) : option (nat * A) :=
  match l with
  | [] => None
  | x :: l' => if p x then Some (i, x) else findOne_from p (S i) l'
  end.
Definition findOne {A} (p : A → bool) (l : list A) : option (nat * A) :=
  findOne_from p 0 l.

Definition opt_eqb (a b : option string) : bool := bool_decide (a = b).
Definition str_eqb (a b : string) : bool := bool_decide (a = b).

(** [AppSettings.get(key, defaultValue)] on a numeric setting. *)
Definition AppSettings_get (key : string) (defaultValue : Z) : Async Z :=
  read (λ st, default defaultValue (settings st !! key)).

(** What [object[key]] can be on an object literal whose own values are
    strings: one of these strings, or a property that the literal inherits
    from [Object.prototype], which is a built-in function or, behind
    [__proto__], the prototype itself. *)
Inductive JsValue :=
| JsString (s : string)
| JsFunction (name : string)
| JsObjectPrototype.

(** The properties of [Object.prototype]: [constructor] is the function
    [Object], the other functions carry their key as name. *)
Definition Object_prototype (key : string) : option JsValue :=
  if bool_decide (key = "constructor") then Some (JsFunction "Object")
  else if bool_decide (key = "__proto__") then Some JsObjectPrototype
  else if bool_decide (key ∈ ["toString"; "toLocaleString"; "valueOf"; "hasOwnProperty";
                              "isPrototypeOf"; "propertyIsEnumerable";
                              "__defineGetter__"; "__defineSetter__";
                              "__lookupGetter__"; "__lookupSetter__"])
  then Some (JsFunction key)
  else None.

(** [object[key]]: an own property first, then the prototype; [None] is
    [undefined]. *)
Definition property (object : gmap string string) (key : string) : option JsValue :=
  match object !! key with
  | Some s => Some (JsString s)
  | None => Object_prototype key
  end.

(** A value as a condition: of the values above only the empty string is
    falsy. *)
Definition truthy_value (v : JsValue) : bool :=
  match v with
  | JsString s => negb (str_eqb s "")
  | _ => true
  end.

(** Mongoose's cast of a value to a path of type String, in a filter and in
    a document alike: a string is kept, a function is replaced by its source
    text, an object without a [toString] of its own is refused. *)
Definition castString (v : JsValue) : option string :=
  match v with
  | JsString s => Some s
  | JsFunction name => Some ("function " +:+ name +:+ "() { [native code] }")
  | JsObjectPrototype => None
  end.

(** [AppSettings.get(key, defaultValue)] for a key that is any of these
    values: [findOne({ key })] casts the key to the String of the schema, and
    rejects when the cast fails. *)
Definition AppSettings_get_cast (key : JsValue) (defaultValue : Z) : Async Z :=
  match castString key with
  | Some k => AppSettings_get k defaultValue
  | None => throw (CastError "AppSettings" "key")
  end.

(** [AppSettings.get(key)] on a text setting ([null] when absent). *)
Definition AppSettings_get_text (key : string) : Async (option string) :=
  read (λ st, textSettings st !! key).

Definition User_findById (userId : string) : Async (option User.t) :=
  read (λ st, users st !! userId).

(** [User.findByIdAndUpdate(userId, { $inc: { credits } }, { new: true })]:
    one atomic, unconditional increment; [null] when there is no such user. *)
Definition User_findByIdAndUpdate_inc (userId : string) (delta : Z) : Async (option User.t) :=
  λ st, match users st !! userId with
        | Some u => (Return (Some (User.inc delta u)),
                     set_users (<[userId := User.inc delta u]>) st)
        | None => (Return None, st)
        end.

(** [CreditLog.create]: runs the validators ([credits] has [min: 0],
    [description] is required, and a required string may not be empty). *)
Definition CreditLog_create (e : CreditLog.t) : Async unit :=
  if CreditLog.credits e <? 0 then throw (ValidationError "CreditLog" "credits")
  else if str_eqb (CreditLog.description e) "" then throw (ValidationError "CreditLog" "description")
  else write (set_creditLogs (λ l, l ++ [e])).

(** [Transaction.create]: runs the validators ([type] must be in the enum). *)
Definition Transaction_create (t : Transaction.t) : Async unit :=
  if bool_decide (Transaction.type t ∈ Transaction.type_enum)
  then write (set_transactions (λ l, l ++ [t]))
  else throw (ValidationError "Transaction" "type").

(** [CreditLog.create] of an entry whose description is any of the values of
    a property lookup: the document casts it to String, and a value that does
    not cast fails the validation of [description]. *)
Definition CreditLog_create_described (entry : string → CreditLog.t)
    (description : JsValue) : Async unit :=
  match castString description with
  | Some text => CreditLog_create (entry text)
  | None => throw (ValidationError "CreditLog" "description")
  end.

Definition Transaction_findOne (p : Transaction.t → bool) : Async (option Transaction.t) :=
  read (λ st, snd <$> findOne p (transactions st)).

Definition Subscription_findOne (p : Subscription.t → bool) : Async (option (nat * Subscription.t)) :=
  read (λ st, findOne p (subscriptions st)).

(** [subscription.save()] on a document found at position [i]: validates, then
    replaces the stored document. *)
Definition Subscription_save (i : nat) (r : Subscription.t) : Async unit :=
  if bool_decide (Subscription.status r ∈ Subscription.status_enum)
  then write (set_subscriptions (<[i := r]>))
  else throw (ValidationError "Subscription" "status").

(** [Subscription.findOneAndUpdate({ userId, stripeSubscriptionId }, doc,
    { upsert: true, new: true })] where [doc] sets every path: the first match
    is overwritten (update validators are off by default), otherwise [doc] is
    inserted, which the unique sparse index on [stripeSubscriptionId] refuses
    when another document already carries that reference. *)
Definition Subscription_upsert (doc : Subscription.t) : Async Subscription.t :=
  λ st,
    let p r := str_eqb (Subscription.userId r) (Subscription.userId doc) &&
               opt_eqb (Subscription.stripeSubscriptionId r) (Subscription.stripeSubscriptionId doc) in
    match findOne p (subscriptions st) with
    | Some (i, _) => (Return doc, set_subscriptions (<[i := doc]>) st)
    | None =>
      if bool_decide (is_Some (Subscription.stripeSubscriptionId doc)) &&
         existsb (λ r, opt_eqb (Subscription.stripeSubscriptionId r)
                               (Subscription.stripeSubscriptionId doc)) (subscriptions st)
      then (Throw (DuplicateKeyError "Subscription" "stripeSubscriptionId"), st)
      else (Return doc, set_subscriptions (λ l, l ++ [doc]) st)
    end.

(** [subscriptionSchema.statics.getActiveForUser] *)
Definition Subscription_getActiveForUser (now : Z) (userId : string)
  : Async (option (nat * Subscription.t)) :=
  Subscription_findOne (λ r, str_eqb (Subscription.userId r) userId &&
                             bool_decide (Subscription.status r ∈ ["active"; "trialing"]) &&
                             match Subscription.currentPeriodEnd r with
                             | Some e => now <? e
                             | None => false
                             end).

(** [subscriptionSchema.statics.isUserSubscribed] *)
Definition Subscription_isUserSubscribed (now : Z) (userId : string) : Async bool :=
  await sub <- Subscription_getActiveForUser now userId ;;
  ret (bool_decide (is_Some sub)).

(* ------------------------------------------------------------------ *)
(** ** services/credit.service.js *)

(** The own properties of the two object literals. The service reads them
    with [actionLabels[action]] and [costMap[action]], which also find what
    an object inherits: see [property]. *)
Definition actionLabels : gmap string string :=
  list_to_map
    [("resume_creation", "Resume Generation");
     ("job_post_cover_letter", "Job Post Cover Letter");
     ("upwork_estimate", "Upwork Estimate");
     ("upwork_proposal", "Upwork Proposal");
     ("fiverr_estimate", "Fiverr Estimate");
     ("fiverr_proposal", "Fiverr Proposal")].

Definition costMap : gmap string string :=
  list_to_map
    [("resume_creation", "credits_per_resume");
     ("job_post_cover_letter", "credits_per_job_post_cover_letter");
     ("upwork_estimate", "credits_per_upwork_estimate");
     ("upwork_proposal", "credits_per_upwork_proposal");
     ("fiverr_estimate", "credits_per_fiverr_estimate");
     ("fiverr_proposal", "credits_per_fiverr_proposal")].

Module CreditCheck.
Record t := mk { hasCredits : bool; required : Z; available : num; unlimited : bool }.
End CreditCheck.

Module Deduction.
Record t := mk {
  success : bool;
  creditsDeducted : Z;
  remaining : num;
  required : option Z;
  error : option string;
  unlimited : bool
}.
End Deduction.

Definition checkCredits (userId action : string) : Async CreditCheck.t :=
  await found <- User_findById userId ;;
  match found with
  | None => throw (Error "User not found")
  | Some u =>
    match User.role u with
    | admin => ret (CreditCheck.mk true 0 Infinity true)
    | user =>
      match property costMap action with
      | None => throw (Error ("Unknown credit action: " +:+ action))
      | Some settingKey =>
        if negb (truthy_value settingKey)
        then throw (Error ("Unknown credit action: " +:+ action))
        else
          await required <- AppSettings_get_cast settingKey 1 ;;
          ret (CreditCheck.mk (required <=? User.credits u) required
                              (Fin (User.credits u)) false)
      end
    end
  end.

(** [actionLabels[action] || action] *)
Definition label_of (action : string) : JsValue :=
  match property actionLabels action with
  | Some label => if truthy_value label then label else JsString action
  | None => JsString action
  end.

(** The three awaited steps of a debit that passed the check: the atomic
    decrement, then the ledger entry, then the result handed back. *)
Definition deduct_update (userId : string) (creditCheck : CreditCheck.t)
  : Async (option User.t) :=
  User_findByIdAndUpdate_inc userId (- CreditCheck.required creditCheck).

Definition deduct_log (userId action : string) (creditCheck : CreditCheck.t)
    (updatedUser : option User.t) : Async Deduction.t :=
  match updatedUser with
  | None => throw (TypeError "Cannot read properties of null (reading 'credits')")
  | Some updated =>
    do CreditLog_create_described
         (CreditLog.mk userId CreditLog.usage (Some action)
            (CreditCheck.required creditCheck) (Some (User.credits updated)))
         (label_of action) ;;
    ret (Deduction.mk true (CreditCheck.required creditCheck)
           (Fin (User.credits updated)) None None false)
  end.

(** What [deductCredits] does once [checkCredits] has answered. *)
Definition deduct_after_check (userId action : string) (creditCheck : CreditCheck.t)
  : Async Deduction.t :=
  if CreditCheck.unlimited creditCheck then
    do CreditLog_create_described
         (CreditLog.mk userId CreditLog.usage (Some action) 0 None)
         (label_of action) ;;
    ret (Deduction.mk true 0 Infinity None None true)
  else if negb (CreditCheck.hasCredits creditCheck) then
    ret (Deduction.mk false 0 (CreditCheck.available creditCheck)
           (Some (CreditCheck.required creditCheck))
           (Some ("Insufficient credits. Required: "
                    +:+ string_of_Z (CreditCheck.required creditCheck)
                    +:+ ", Available: "
                    +:+ string_of_num (CreditCheck.available creditCheck)))
           false)
  else
    await updatedUser <- deduct_update userId creditCheck ;;
    deduct_log userId action creditCheck updatedUser.

Definition deductCredits (userId action : string) : Async Deduction.t :=
  await creditCheck <- checkCredits userId action ;;
  deduct_after_check userId action creditCheck.

Definition getInitialCredits : Async Z := AppSettings_get "initial_credits" 10.

(** [logCreditEvent] as its callers use it (no action, no metadata). *)
Definition logCreditEvent (userId : string) (type : CreditLog.kind) (credits : Z)
    (balanceAfter : option Z) (description : string) : Async unit :=
  CreditLog_create (CreditLog.mk userId type None credits balanceAfter description).

(* ------------------------------------------------------------------ *)
(** ** Objects and calls of the payment processor *)

Module StripeItem.
Record t := mk {
  id : string;
  current_period_start : option Z;
  current_period_end : option Z;
  (** [price?.recurring?.interval] *)
  interval : option string
}.
End StripeItem.

Module StripeSubscription.
Record t := mk {
  id : string;
  status : string;
  cancel_at_period_end : bool;
  current_period_start : option Z;
  current_period_end : option Z;
  (** [items.data] *)
  items : list StripeItem.t
}.
End StripeSubscription.

Module StripeSession.
(** [session.metadata]: the [type] tag with the fields written next to it by
    the two checkout creators ([creditAmount] already read as a decimal
    integer, [plan] one of the two plans). *)
Inductive Metadata :=
| credit_purchase (creditAmount : Z)
| subscription (plan : Plan)
| other (type : string).
Record t := mk {
  id : string;
  metadata_userId : string;
  metadata : Metadata;
  amount_total : option Z;
  currency : option string;
  payment_intent : option string;
  subscription_id : option string;
  customer : option string;
  payment_status : string
}.
End StripeSession.

Module StripeInvoice.
Record t := mk {
  id : string;
  subscription : option string;
  billing_reason : string;
  amount_paid : option Z;
  amount_due : option Z;
  currency : option string;
  payment_intent : option string
}.
End StripeInvoice.

Module StripeCharge.
Record t := mk {
  id : string;
  status : string;
  payment_intent : option string;
  description : option string;
  amount : Z;
  currency : option string;
  invoice : option string;
  metadata_creditAmount : option Z
}.
End StripeCharge.

Module StripePaymentIntent.
Record t := mk {
  id : string;
  status : string;
  description : option string;
  amount : Z;
  currency : option string;
  invoice : option string;
  metadata_type : option string;
  metadata_creditAmount : option Z
}.
End StripePaymentIntent.

(** The replies of the processor. Every call may reject. *)
Module StripeApi.
Record t := mk {
  customers_create : string → string → completion string;
  customers_list : string → completion (list string);
  subscriptions_list : string → string → nat → completion (list StripeSubscription.t);
  subscriptions_retrieve : string → completion StripeSubscription.t;
  subscriptions_update_cancel : string → bool → completion unit;
  subscriptions_update_price : string → string → string → completion StripeSubscription.t;
  checkout_sessions_create : string → string → completion (string * string);
  checkout_sessions_retrieve : string → completion (option StripeSession.t);
  invoices_retrieve : string → completion StripeInvoice.t;
  charges_list : string → completion (list StripeCharge.t);
  paymentIntents_list : string → completion (list StripePaymentIntent.t);
  billingPortal_sessions_create : string → completion string
}.
End StripeApi.

(** Webhook events, by [event.type]. *)
Inductive Event :=
| checkout_session_completed (session : StripeSession.t)
| customer_subscription_updated (sub : StripeSubscription.t)
| customer_subscription_deleted (sub : StripeSubscription.t)
| invoice_payment_succeeded (invoice : StripeInvoice.t)
| invoice_payment_failed (invoice : StripeInvoice.t)
| unhandled_event (type : string).

(* ------------------------------------------------------------------ *)
(** ** Small JavaScript helpers *)

(** A string that is usable as a condition: present and not empty. *)
Definition truthy (s : option string) : bool :=
  match s with Some x => negb (str_eqb x "") | None => false end.

(** [s || d] *)
Definition or_else (s : option string) (d : string) : string :=
  match s with Some x => if str_eqb x "" then d else x | None => d end.

(** [n ? new Date(n * 1000) : new Date()] *)
Definition date_or_now (now : Z) (n : option Z) : Z :=
  match n with
  | Some s => if s =? 0 then now else s * 1000
  | None => now
  end.

Definition upper_ascii (c : ascii) : ascii :=
  let n := nat_of_ascii c in
  if ((97 <=? n) && (n <=? 122))%nat then ascii_of_nat (n - 32) else c.

Fixpoint toUpperCase (s : string) : string :=
  match s with
  | EmptyString => EmptyString
  | String c s' => String (upper_ascii c) (toUpperCase s')
  end.

(** [(cents / 100).toFixed(2)] *)
Definition toFixed2 (cents : Z) : string :=
  let a := Z.abs cents in
  (if cents <? 0 then "-" else "")
    +:+ string_of_Z (a / 100) +:+ "."
    +:+ (if a mod 100 <? 10 then "0" else "") +:+ string_of_Z (a mod 100).

Definition plan_name (p : Plan) : string :=
  match p with monthly => "monthly" | yearly => "yearly" end.

(** [plan.charAt(0).toUpperCase() + plan.slice(1)] *)
Definition capitalized (p : Plan) : string :=
  match p with monthly => "Monthly" | yearly => "Yearly" end.

Definition plan_of_interval (interval : string) : Plan :=
  if str_eqb interval "year" then yearly else monthly.

(* ------------------------------------------------------------------ *)
(** ** services/payment.service.js *)

Section PaymentService.
(** The processor as seen through its SDK, and the clock ([new Date()]). *)
Variable stripe : StripeApi.t.
Variable now : Z.

Definition extractPeriodDates (stripeSub : StripeSubscription.t) : Z * Z :=
  let item := head (StripeSubscription.items stripeSub) in
  let start :=
    match item ≫= StripeItem.current_period_start with
    | Some s => Some s
    | None => StripeSubscription.current_period_start stripeSub
    end in
  let end_ :=
    match item ≫= StripeItem.current_period_end with
    | Some e => Some e
    | None => StripeSubscription.current_period_end stripeSub
    end in
  (date_or_now now start, date_or_now now end_).

(** [items?.data?.[0]?.price?.recurring?.interval] *)
Definition interval_of (stripeSub : StripeSubscription.t) : option string :=
  head (StripeSubscription.items stripeSub) ≫= StripeItem.interval.

Definition creditLimitForPlan (plan : Plan) : Async Z :=
  match plan with
  | yearly => AppSettings_get "subscription_yearly_credits" 700
  | monthly => AppSettings_get "subscription_monthly_credits" 50
  end.

(** The filter [{ userId, stripeCustomerId: { $exists: true } }]. A record
    is only ever written by the three upserts of this service, and each of
    them stores [stripeCustomerId], as a string or as [null] (here [None]):
    the field exists on every record, also where it holds no customer, and
    the filter selects by owner alone. *)
Definition has_customer (userId : string) (r : Subscription.t) : bool :=
  str_eqb (Subscription.userId r) userId.

Definition getOrCreateCustomer (userId : string) (u : User.t) : Async string :=
  await existingSub <- Subscription_findOne (has_customer userId) ;;
  match existingSub with
  | Some (_, r) =>
    if truthy (Subscription.stripeCustomerId r)
    then ret (default "" (Subscription.stripeCustomerId r))
    else external (StripeApi.customers_create stripe (User.email u) userId)
  | None => external (StripeApi.customers_create stripe (User.email u) userId)
  end.

(** [CREDIT_PACKAGES], prices in cents. *)
Definition CREDIT_PACKAGES (creditAmount : Z) : option Z :=
  if creditAmount =? 5 then Some 399
  else if creditAmount =? 15 then Some 999
  else if creditAmount =? 30 then Some 1499
  else None.

(** The per-credit rate is kept in cents as well (default 0.80). *)
Definition createCreditCheckoutSession (userId : string) (creditAmount : Z)
  : Async (string * string) :=
  await found <- User_findById userId ;;
  match found with
  | None => throw (Error "User not found")
  | Some u =>
    await customerId <- getOrCreateCustomer userId u ;;
    await currency <- AppSettings_get_text "currency" ;;
    await totalAmount <-
      match CREDIT_PACKAGES creditAmount with
      | Some price => ret price
      | None =>
        await pricePerCredit <- AppSettings_get "price_per_credit" 80 ;;
        ret (pricePerCredit * creditAmount)
      end ;;
    external (StripeApi.checkout_sessions_create stripe customerId
                (string_of_Z creditAmount +:+ " Resume Credits"))
  end.

Definition all_features_doc (userId : string) (customerId : option string)
    (stripeSub : StripeSubscription.t) (plan : Plan) : Subscription.t :=
  let '(currentPeriodStart, currentPeriodEnd) := extractPeriodDates stripeSub in
  {| Subscription.userId := userId;
     Subscription.stripeCustomerId := customerId;
     Subscription.stripeSubscriptionId := Some (StripeSubscription.id stripeSub);
     Subscription.plan := plan;
     Subscription.status := StripeSubscription.status stripeSub;
     Subscription.currentPeriodStart := Some currentPeriodStart;
     Subscription.currentPeriodEnd := Some currentPeriodEnd;
     Subscription.cancelAtPeriodEnd := StripeSubscription.cancel_at_period_end stripeSub;
     Subscription.features := Subscription.all_features |}.

Definition price_key (plan : Plan) : string :=
  match plan with
  | yearly => "stripe_yearly_price_id"
  | monthly => "stripe_monthly_price_id"
  end.

(** The character that encloses the setting key in the message below. *)
Definition double_quote : string := String (ascii_of_nat 34) EmptyString.

Definition price_not_configured (plan : Plan) : exn :=
  Error ("Stripe price ID not configured for " +:+ plan_name plan
           +:+ " plan. Admin must set " +:+ double_quote +:+ price_key plan
           +:+ double_quote +:+ " in settings.").

Definition createSubscriptionCheckoutSession (userId : string) (plan : Plan)
  : Async (string * string) :=
  await found <- User_findById userId ;;
  match found with
  | None => throw (Error "User not found")
  | Some u =>
    await existingSub <- Subscription_getActiveForUser now userId ;;
    match existingSub with
    | Some _ =>
      throw (Error "User already has an active subscription. Cancel it first to switch plans.")
    | None =>
      await customerId <- getOrCreateCustomer userId u ;;
      await stripeActiveSubs <-
        external (StripeApi.subscriptions_list stripe customerId "active" 1%nat) ;;
      match stripeActiveSubs with
      | stSub :: _ =>
        await synced <-
          Subscription_upsert (all_features_doc userId (Some customerId) stSub plan) ;;
        throw (Error "User already has an active subscription on Stripe. It has been synced — please refresh the page.")
      | [] =>
        await priceId <- AppSettings_get_text (price_key plan) ;;
        if truthy priceId then
          external (StripeApi.checkout_sessions_create stripe customerId
                      (default "" priceId))
        else throw (price_not_configured plan)
      end
    end
  end.

Definition cancelSubscription (userId : string) : Async Subscription.t :=
  await found <- Subscription_getActiveForUser now userId ;;
  match found with
  | None => throw (Error "No active subscription found")
  | Some (i, subscription) =>
    match Subscription.stripeSubscriptionId subscription with
    | None => throw (StripeError "Argument id must be a string")
    | Some sid =>
      do external (StripeApi.subscriptions_update_cancel stripe sid true) ;;
      let subscription' := Subscription.set_cancelAtPeriodEnd true subscription in
      do Subscription_save i subscription' ;;
      ret subscription'
    end
  end.

Definition pending_cancellation (userId : string) (r : Subscription.t) : bool :=
  str_eqb (Subscription.userId r) userId &&
  str_eqb (Subscription.status r) "active" &&
  Subscription.cancelAtPeriodEnd r.

Definition reactivateSubscription (userId : string) : Async Subscription.t :=
  await found <- Subscription_findOne (pending_cancellation userId) ;;
  match found with
  | None => throw (Error "No subscription pending cancellation found")
  | Some (i, subscription) =>
    match Subscription.stripeSubscriptionId subscription with
    | None => throw (StripeError "Argument id must be a string")
    | Some sid =>
      do external (StripeApi.subscriptions_update_cancel stripe sid false) ;;
      let subscription' := Subscription.set_cancelAtPeriodEnd false subscription in
      do Subscription_save i subscription' ;;
      ret subscription'
    end
  end.

Definition plan_eqb (a b : Plan) : bool :=
  match a, b with
  | monthly, monthly | yearly, yearly => true
  | _, _ => false
  end.

Definition switchPlan (userId : string) (newPlan : Plan) : Async Subscription.t :=
  await found <- Subscription_getActiveForUser now userId ;;
  match found with
  | None => throw (Error "No active subscription found")
  | Some (i, subscription) =>
    if plan_eqb (Subscription.plan subscription) newPlan then
      throw (Error ("Already on the " +:+ plan_name newPlan +:+ " plan"))
    else if Subscription.cancelAtPeriodEnd subscription then
      throw (Error "Cannot switch plan while subscription is pending cancellation. Reactivate first.")
    else
      await newPriceId <- AppSettings_get_text (price_key newPlan) ;;
      if negb (truthy newPriceId) then throw (price_not_configured newPlan)
      else
        match Subscription.stripeSubscriptionId subscription with
        | None => throw (StripeError "Argument id must be a string")
        | Some sid =>
          await stripeSub <- external (StripeApi.subscriptions_retrieve stripe sid) ;;
          match StripeSubscription.items stripeSub with
          | [] => throw (TypeError "Cannot read properties of undefined (reading 'id')")
          | item :: _ =>
            await updatedStripeSub <-
              external (StripeApi.subscriptions_update_price stripe sid
                          (StripeItem.id item) (default "" newPriceId)) ;;
            let '(currentPeriodStart, currentPeriodEnd) :=
              extractPeriodDates updatedStripeSub in
            let subscription' :=
              Subscription.set_period currentPeriodStart currentPeriodEnd
                (Subscription.set_plan newPlan subscription) in
            do Subscription_save i subscription' ;;
            ret subscription'
          end
        end
  end.

(** *** Webhook handlers *)

Definition by_stripe_id (sid : option string) (r : Subscription.t) : bool :=
  opt_eqb (Subscription.stripeSubscriptionId r) sid.

Definition handleCheckoutCompleted (session : StripeSession.t) : Async unit :=
  let userId := StripeSession.metadata_userId session in
  let amount := default 0 (StripeSession.amount_total session) in
  let currency := or_else (StripeSession.currency session) "usd" in
  match StripeSession.metadata session with
  | StripeSession.credit_purchase credits =>
    await updatedUser <- User_findByIdAndUpdate_inc userId credits ;;
    do Transaction_create
         {| Transaction.userId := userId;
            Transaction.stripeSessionId := Some (StripeSession.id session);
            Transaction.stripePaymentIntentId := StripeSession.payment_intent session;
            Transaction.stripeSubscriptionId := None;
            Transaction.stripeInvoiceId := None;
            Transaction.type := "credit_purchase";
            Transaction.status := Transaction.completed;
            Transaction.amount := amount;
            Transaction.currency := currency;
            Transaction.creditsAdded := credits;
            Transaction.plan := None;
            Transaction.description :=
              "Purchased " +:+ string_of_Z credits +:+ " resume credits";
            Transaction.stripeEventType := "checkout.session.completed";
            Transaction.metadata_chargeId := None;
            Transaction.metadata_paymentIntentId := None |} ;;
    do CreditLog_create
         (CreditLog.mk userId CreditLog.purchase None credits
            (User.credits <$> updatedUser)
            ("Purchased " +:+ string_of_Z credits +:+ " credits ($"
               +:+ toFixed2 amount +:+ " " +:+ toUpperCase currency +:+ ")")) ;;
    ret tt
  | StripeSession.subscription plan =>
    match StripeSession.subscription_id session with
    | None => throw (StripeError "Argument id must be a string")
    | Some stripeSubscriptionId =>
      await stripeSub <-
        external (StripeApi.subscriptions_retrieve stripe stripeSubscriptionId) ;;
      let '(currentPeriodStart, currentPeriodEnd) := extractPeriodDates stripeSub in
      await upserted <-
        Subscription_upsert
          {| Subscription.userId := userId;
             Subscription.stripeCustomerId := StripeSession.customer session;
             Subscription.stripeSubscriptionId := Some stripeSubscriptionId;
             Subscription.plan := plan;
             Subscription.status := StripeSubscription.status stripeSub;
             Subscription.currentPeriodStart := Some currentPeriodStart;
             Subscription.currentPeriodEnd := Some currentPeriodEnd;
             Subscription.cancelAtPeriodEnd :=
               StripeSubscription.cancel_at_period_end stripeSub;
             Subscription.features := Subscription.all_features |} ;;
      await creditsToAdd <- creditLimitForPlan plan ;;
      await updatedUser <- User_findByIdAndUpdate_inc userId creditsToAdd ;;
      do CreditLog_create
           (CreditLog.mk userId CreditLog.addition None creditsToAdd
              (User.credits <$> updatedUser)
              (capitalized plan +:+ " subscription activated — "
                 +:+ string_of_Z creditsToAdd +:+ " credits added")) ;;
      do Transaction_create
           {| Transaction.userId := userId;
              Transaction.stripeSessionId := Some (StripeSession.id session);
              Transaction.stripePaymentIntentId := StripeSession.payment_intent session;
              Transaction.stripeSubscriptionId := Some stripeSubscriptionId;
              Transaction.stripeInvoiceId := None;
              Transaction.type := "subscription_payment";
              Transaction.status := Transaction.completed;
              Transaction.amount := amount;
              Transaction.currency := currency;
              Transaction.creditsAdded := creditsToAdd;
              Transaction.plan := Some plan;
              Transaction.description := capitalized plan +:+ " subscription activated";
              Transaction.stripeEventType := "checkout.session.completed";
              Transaction.metadata_chargeId := None;
              Transaction.metadata_paymentIntentId := None |} ;;
      ret tt
    end
  | StripeSession.other _ => ret tt
  end.

Definition handleSubscriptionUpdated (stripeSubscription : StripeSubscription.t)
  : Async unit :=
  await found <-
    Subscription_findOne (by_stripe_id (Some (StripeSubscription.id stripeSubscription))) ;;
  match found with
  | None => ret tt
  | Some (i, subscription) =>
    let '(currentPeriodStart, currentPeriodEnd) := extractPeriodDates stripeSubscription in
    let updated :=
      Subscription.set_cancelAtPeriodEnd
        (StripeSubscription.cancel_at_period_end stripeSubscription)
        (Subscription.set_period currentPeriodStart currentPeriodEnd
           (Subscription.set_status (StripeSubscription.status stripeSubscription)
              subscription)) in
    let interval := interval_of stripeSubscription in
    Subscription_save i
      (if truthy interval
       then Subscription.set_plan (plan_of_interval (default "" interval)) updated
       else updated)
  end.

Definition privatize (userId : string) (r : Resume.t) : Resume.t :=
  if str_eqb (Resume.userId r) userId
     && match Resume.visibility r with Resume.public => true | _ => false end
     && negb (Resume.isDeleted r)
  then Resume.mk (Resume.userId r) Resume.private (Resume.isDeleted r)
  else r.

Definition handleSubscriptionDeleted (stripeSubscription : StripeSubscription.t)
  : Async unit :=
  await found <-
    Subscription_findOne (by_stripe_id (Some (StripeSubscription.id stripeSubscription))) ;;
  match found with
  | None => ret tt
  | Some (i, subscription) =>
    do Subscription_save i (Subscription.set_status "expired" subscription) ;;
    write (set_resumes (map (privatize (Subscription.userId subscription))))
  end.

Definition invoice_label (isSwitch : bool) : string :=
  if isSwitch then "Plan switch" else "Subscription renewal".

Definition handleInvoicePaymentSucceeded (invoice : StripeInvoice.t) : Async unit :=
  if negb (truthy (StripeInvoice.subscription invoice))
     || str_eqb (StripeInvoice.billing_reason invoice) "subscription_create"
  then ret tt
  else
    let amount := default 0 (StripeInvoice.amount_paid invoice) in
    if amount <=? 0 then ret tt
    else
      await found <- Subscription_findOne (by_stripe_id (StripeInvoice.subscription invoice)) ;;
      match found with
      | None => ret tt
      | Some (_, subscription) =>
        await existing <-
          Transaction_findOne
            (λ t, opt_eqb (Transaction.stripeInvoiceId t) (Some (StripeInvoice.id invoice))) ;;
        match existing with
        | Some _ => ret tt
        | None =>
          let currency := or_else (StripeInvoice.currency invoice) "usd" in
          let isSwitch := str_eqb (StripeInvoice.billing_reason invoice) "subscription_update" in
          await creditsToAdd <- creditLimitForPlan (Subscription.plan subscription) ;;
          await updatedUser <-
            User_findByIdAndUpdate_inc (Subscription.userId subscription) creditsToAdd ;;
          do CreditLog_create
               (CreditLog.mk (Subscription.userId subscription) CreditLog.addition None
                  creditsToAdd (User.credits <$> updatedUser)
                  (invoice_label isSwitch +:+ " — " +:+ string_of_Z creditsToAdd
                     +:+ " credits added")) ;;
          do Transaction_create
               {| Transaction.userId := Subscription.userId subscription;
                  Transaction.stripeSessionId := None;
                  Transaction.stripePaymentIntentId := StripeInvoice.payment_intent invoice;
                  Transaction.stripeSubscriptionId := StripeInvoice.subscription invoice;
                  Transaction.stripeInvoiceId := Some (StripeInvoice.id invoice);
                  Transaction.type :=
                    if isSwitch then "subscription_switch" else "subscription_renewal";
                  Transaction.status := Transaction.completed;
                  Transaction.amount := amount;
                  Transaction.currency := currency;
                  Transaction.creditsAdded := creditsToAdd;
                  Transaction.plan := Some (Subscription.plan subscription);
                  Transaction.description :=
                    invoice_label isSwitch +:+ " — $" +:+ toFixed2 amount +:+ " "
                      +:+ toUpperCase currency;
                  Transaction.stripeEventType := "invoice.payment_succeeded";
                  Transaction.metadata_chargeId := None;
                  Transaction.metadata_paymentIntentId := None |} ;;
          ret tt
        end
      end.

Definition handlePaymentFailed (invoice : StripeInvoice.t) : Async unit :=
  await found <- Subscription_findOne (by_stripe_id (StripeInvoice.subscription invoice)) ;;
  match found with
  | None => ret tt
  | Some (i, subscription) =>
    do Subscription_save i (Subscription.set_status "past_due" subscription) ;;
    do Transaction_create
         {| Transaction.userId := Subscription.userId subscription;
            Transaction.stripeSessionId := None;
            Transaction.stripePaymentIntentId := None;
            Transaction.stripeSubscriptionId := StripeInvoice.subscription invoice;
            Transaction.stripeInvoiceId := Some (StripeInvoice.id invoice);
            Transaction.type := "subscription_renewal";
            Transaction.status := Transaction.failed;
            Transaction.amount := default 0 (StripeInvoice.amount_due invoice);
            Transaction.currency := or_else (StripeInvoice.currency invoice) "usd";
            Transaction.creditsAdded := 0;
            Transaction.plan := Some (Subscription.plan subscription);
            Transaction.description := "Subscription renewal payment failed";
            Transaction.stripeEventType := "invoice.payment_failed";
            Transaction.metadata_chargeId := None;
            Transaction.metadata_paymentIntentId := None |} ;;
    ret tt
  end.

Definition handleWebhookEvent (event : Event) : Async unit :=
  match event with
  | checkout_session_completed session => handleCheckoutCompleted session
  | customer_subscription_updated sub => handleSubscriptionUpdated sub
  | customer_subscription_deleted sub => handleSubscriptionDeleted sub
  | invoice_payment_succeeded invoice => handleInvoicePaymentSucceeded invoice
  | invoice_payment_failed invoice => handlePaymentFailed invoice
  | unhandled_event _ => ret tt
  end.
End PaymentService.

(** *** Reconciliation calls that read the processor *)

Module Verification.
Record t := mk { alreadyProcessed : bool; transaction : option Transaction.t }.
End Verification.

Module SubscriptionSync.
Record t := mk { synced : bool; message : string; subscription : option Subscription.t }.
End SubscriptionSync.

Module TransactionSync.
Record t := mk { synced : bool; imported : Z; message : string }.
End TransactionSync.

(** [for (const x of xs) { imported = body(imported, x) }] *)
Fixpoint for_of {A} (body : Z → A → Async Z) (xs : list A) (imported : Z) : Async Z :=
  match xs with
  | [] => ret imported
  | x :: xs' => await imported' <- body imported x ;; for_of body xs' imported'
  end.

Section Reconciliation.
Variable stripe : StripeApi.t.
Variable now : Z.

Definition createBillingPortalSession (userId : string) : Async string :=
  await found <- Subscription_findOne (has_customer userId) ;;
  match found with
  | Some (_, subscription) =>
    if truthy (Subscription.stripeCustomerId subscription) then
      external (StripeApi.billingPortal_sessions_create stripe
                  (default "" (Subscription.stripeCustomerId subscription)))
    else throw (Error "No billing account found. Please make a purchase first.")
  | None => throw (Error "No billing account found. Please make a purchase first.")
  end.

Definition verifyAndProcessSession (sessionId userId : string) : Async Verification.t :=
  await existingTx <-
    Transaction_findOne
      (λ t, opt_eqb (Transaction.stripeSessionId t) (Some sessionId) &&
            match Transaction.status t with Transaction.completed => true | _ => false end) ;;
  match existingTx with
  | Some tx => ret (Verification.mk true (Some tx))
  | None =>
    await retrieved <- external (StripeApi.checkout_sessions_retrieve stripe sessionId) ;;
    match retrieved with
    | None => throw (Error "Session not found on Stripe")
    | Some session =>
      if negb (str_eqb (StripeSession.payment_status session) "paid") then
        throw (Error ("Payment not completed. Status: "
                        +:+ StripeSession.payment_status session))
      else if negb (str_eqb (StripeSession.metadata_userId session) userId) then
        throw (Error "Session does not belong to this user")
      else
        do handleCheckoutCompleted stripe now session ;;
        await transaction <-
          Transaction_findOne
            (λ t, opt_eqb (Transaction.stripeSessionId t) (Some sessionId)) ;;
        ret (Verification.mk false transaction)
    end
  end.

(** The customer reference: from a local record, else by e-mail lookup.
    [None] when the processor knows no such customer. *)
Definition resolveCustomer (userId : string) (u : User.t) : Async (option string) :=
  await existingSub <- Subscription_findOne (has_customer userId) ;;
  let lookup :=
    await customers <- external (StripeApi.customers_list stripe (User.email u)) ;;
    ret (head customers) in
  match existingSub with
  | Some (_, r) =>
    if truthy (Subscription.stripeCustomerId r)
    then ret (Subscription.stripeCustomerId r)
    else lookup
  | None => lookup
  end.

Definition syncSubscriptionFromStripe (userId : string) : Async SubscriptionSync.t :=
  await found <- User_findById userId ;;
  match found with
  | None => throw (Error "User not found")
  | Some u =>
    await customer <- resolveCustomer userId u ;;
    match customer with
    | None =>
      ret (SubscriptionSync.mk false
             "No Stripe customer found for your account. Please make a purchase first."
             None)
    | Some customerId =>
      await subs <-
        external (StripeApi.subscriptions_list stripe customerId "active" 5%nat) ;;
      await trialSubs <-
        external (StripeApi.subscriptions_list stripe customerId "trialing" 5%nat) ;;
      match subs ++ trialSubs with
      | [] =>
        ret (SubscriptionSync.mk false
               "No active subscription found on Stripe for your account." None)
      | stripeSub :: _ =>
        let plan :=
          if opt_eqb (interval_of stripeSub) (Some "year") then yearly else monthly in
        await subscription <-
          Subscription_upsert
            (all_features_doc now userId (Some customerId) stripeSub plan) ;;
        ret (SubscriptionSync.mk true "Subscription synced successfully from Stripe."
               (Some subscription))
      end
    end
  end.

Definition money (amount : Z) (currency : string) : string :=
  "$" +:+ toFixed2 amount +:+ " " +:+ toUpperCase currency.

(** Type and description of an import tied to an invoice; a failed
    retrieval is caught. The invoice is handed back for the caller. *)
Definition classify_invoice (invoiceId : string) (amount : Z) (currency : string)
  : Async (string * string * option StripeInvoice.t) :=
  try_catch
    (await inv <- external (StripeApi.invoices_retrieve stripe invoiceId) ;;
     if str_eqb (StripeInvoice.billing_reason inv) "subscription_cycle"
     then ret ("subscription_renewal",
               "Subscription renewal — " +:+ money amount currency, Some inv)
     else ret ("subscription_payment",
               "Subscription payment — " +:+ money amount currency, Some inv))
    (ret ("subscription_payment",
          "Subscription payment — " +:+ money amount currency, None)).

Definition import_charge (userId : string) (imported : Z) (charge : StripeCharge.t)
  : Async Z :=
  if negb (str_eqb (StripeCharge.status charge) "succeeded") then ret imported
  else
    await exists_ <-
      Transaction_findOne
        (λ t, str_eqb (Transaction.userId t) userId &&
              (opt_eqb (Transaction.stripePaymentIntentId t)
                       (StripeCharge.payment_intent charge)
               || opt_eqb (Transaction.metadata_chargeId t)
                          (Some (StripeCharge.id charge)))) ;;
    match exists_ with
    | Some _ => ret imported
    | None =>
      let amount := StripeCharge.amount charge in
      let currency := or_else (StripeCharge.currency charge) "usd" in
      await classified <-
        (if truthy (StripeCharge.invoice charge)
         then classify_invoice (default "" (StripeCharge.invoice charge)) amount currency
         else ret ("credit_purchase", "Credit purchase — " +:+ money amount currency, None)) ;;
      do Transaction_create
           {| Transaction.userId := userId;
              Transaction.stripeSessionId := None;
              Transaction.stripePaymentIntentId :=
                Some (or_else (StripeCharge.payment_intent charge) (StripeCharge.id charge));
              Transaction.stripeSubscriptionId := None;
              Transaction.stripeInvoiceId := None;
              Transaction.type := classified.1.1;
              Transaction.status := Transaction.completed;
              Transaction.amount := amount;
              Transaction.currency := currency;
              Transaction.creditsAdded :=
                default 0 (StripeCharge.metadata_creditAmount charge);
              Transaction.plan := None;
              Transaction.description := classified.1.2;
              Transaction.stripeEventType := "charge.synced";
              Transaction.metadata_chargeId := Some (StripeCharge.id charge);
              Transaction.metadata_paymentIntentId := None |} ;;
      ret (imported + 1)
    end.

(** The plan of the subscription an invoice belongs to; failures ignored. *)
Definition detect_plan (inv : option StripeInvoice.t) : Async (option Plan) :=
  match inv with
  | Some i =>
    if truthy (StripeInvoice.subscription i) then
      try_catch
        (await sub <-
           external (StripeApi.subscriptions_retrieve stripe
                       (default "" (StripeInvoice.subscription i))) ;;
         ret (Some (if opt_eqb (interval_of sub) (Some "year") then yearly else monthly)))
        (ret None)
    else ret None
  | None => ret None
  end.

Definition import_payment_intent (userId : string) (imported : Z)
    (pi : StripePaymentIntent.t) : Async Z :=
  if negb (str_eqb (StripePaymentIntent.status pi) "succeeded") then ret imported
  else
    await exists_ <-
      Transaction_findOne
        (λ t, str_eqb (Transaction.userId t) userId &&
              (opt_eqb (Transaction.stripePaymentIntentId t)
                       (Some (StripePaymentIntent.id pi))
               || opt_eqb (Transaction.metadata_paymentIntentId t)
                          (Some (StripePaymentIntent.id pi)))) ;;
    match exists_ with
    | Some _ => ret imported
    | None =>
      let amount := StripePaymentIntent.amount pi in
      let currency := or_else (StripePaymentIntent.currency pi) "usd" in
      await classified <-
        (if truthy (StripePaymentIntent.invoice pi) then
           classify_invoice (default "" (StripePaymentIntent.invoice pi)) amount currency
         else if opt_eqb (StripePaymentIntent.metadata_type pi) (Some "credit_purchase") then
           let credits := default 0 (StripePaymentIntent.metadata_creditAmount pi) in
           ret ("credit_purchase",
                (if 0 <? credits
                 then "Credit purchase — " +:+ string_of_Z credits +:+ " credits ("
                        +:+ money amount currency +:+ ")"
                 else "Credit purchase — " +:+ money amount currency),
                None)
         else ret ("credit_purchase", "Payment — " +:+ money amount currency, None)) ;;
      await plan <- detect_plan classified.2 ;;
      do Transaction_create
           {| Transaction.userId := userId;
              Transaction.stripeSessionId := None;
              Transaction.stripePaymentIntentId := Some (StripePaymentIntent.id pi);
              Transaction.stripeSubscriptionId := None;
              Transaction.stripeInvoiceId := StripeInvoice.id <$> classified.2;
              Transaction.type := classified.1.1;
              Transaction.status := Transaction.completed;
              Transaction.amount := amount;
              Transaction.currency := currency;
              Transaction.creditsAdded :=
                default 0 (StripePaymentIntent.metadata_creditAmount pi);
              Transaction.plan := plan;
              Transaction.description := classified.1.2;
              Transaction.stripeEventType := "payment_intent.synced";
              Transaction.metadata_chargeId := None;
              Transaction.metadata_paymentIntentId := Some (StripePaymentIntent.id pi) |} ;;
      ret (imported + 1)
    end.

Definition syncTransactionsFromStripe (userId : string) : Async TransactionSync.t :=
  await found <- User_findById userId ;;
  match found with
  | None => throw (Error "User not found")
  | Some u =>
    await customer <- resolveCustomer userId u ;;
    match customer with
    | None =>
      ret (TransactionSync.mk false 0 "No Stripe customer found for your account.")
    | Some customerId =>
      await charges <- external (StripeApi.charges_list stripe customerId) ;;
      await paymentIntents <- external (StripeApi.paymentIntents_list stripe customerId) ;;
      await afterCharges <- for_of (import_charge userId) charges 0 ;;
      await imported <- for_of (import_payment_intent userId) paymentIntents afterCharges ;;
      ret (TransactionSync.mk true imported
             (if 0 <? imported
              then string_of_Z imported +:+ " transaction"
                     +:+ (if imported =? 1 then "" else "s") +:+ " synced from Stripe."
              else "All transactions are already in sync."))
    end
  end.
End Reconciliation.

(* ------------------------------------------------------------------ *)
(** ** Registration (the initial grant) *)

Definition email_taken (e : string) (st : Store) : bool :=
  existsb (λ kv, str_eqb (User.email kv.2) e) (map_to_list (users st)).

(** [User.create]: the driver picks the [_id]; a taken one is refused. *)
Definition User_create (newId : string) (u : User.t) : Async unit :=
  λ st, match users st !! newId with
        | Some _ => (Throw (DuplicateKeyError "User" "_id"), st)
        | None => (Return tt, set_users (<[newId := u]>) st)
        end.

(** [registerUser] after validation and role resolution; the result is the
    HTTP status of the response. *)
Definition registerUser (newId email : string) (role : Role) : Async Z :=
  try_catch
    (await taken <- read (email_taken email) ;;
     if taken then ret 400
     else
       await initialCredits <- getInitialCredits ;;
       do User_create newId (User.mk email role initialCredits) ;;
       do (if 0 <? initialCredits
           then logCreditEvent newId CreditLog.initial initialCredits (Some initialCredits)
                  ("Welcome bonus — " +:+ string_of_Z initialCredits +:+ " free credits")
           else ret tt) ;;
       ret 201)
    (ret 500).

(* ------------------------------------------------------------------ *)
(** ** Callers: sequences of operations *)

Definition void {A} (m : Async A) : Async unit := await x <- m ;; ret tt.

(** The operations that write the credit ledger. *)
Inductive LedgerOp :=
| InitialGrant (newId email : string) (role : Role)
| UsageDebit (userId action : string)
| CheckoutCompleted (session : StripeSession.t)
| InvoiceSucceeded (invoice : StripeInvoice.t).

(** One request: the operation, with the processor and the clock it meets. *)
Record Request (Op : Type) := mkRequest { api : StripeApi.t; clock : Z; op : Op }.
Arguments mkRequest {Op} api clock op.
Arguments api {Op} r.
Arguments clock {Op} r.
Arguments op {Op} r.

Definition ledger_call (r : Request LedgerOp) : Async unit :=
  match op r with
  | InitialGrant newId email role => void (registerUser newId email role)
  | UsageDebit userId action => void (deductCredits userId action)
  | CheckoutCompleted session => handleCheckoutCompleted (api r) (clock r) session
  | InvoiceSucceeded invoice => handleInvoicePaymentSucceeded invoice
  end.

(** Requests served one after another; a request that throws leaves the
    store as it was at the throw. *)
Definition serve {Op} (call : Request Op → Async unit) (rs : list (Request Op))
    (st : Store) : Store :=
  fold_left (λ s r, final (call r s)) rs st.

(** The reconciliation calls a client can trigger. *)
Inductive ReconciliationOp :=
| CreateCreditCheckout (userId : string) (creditAmount : Z)
| CreateSubscriptionCheckout (userId : string) (plan : Plan)
| Cancel (userId : string)
| Reactivate (userId : string)
| SwitchPlan (userId : string) (newPlan : Plan)
| BillingPortal (userId : string)
| VerifySession (sessionId userId : string)
| SyncSubscription (userId : string)
| SyncTransactions (userId : string).

Definition reconcile (stripe : StripeApi.t) (now : Z) (o : ReconciliationOp) : Async unit :=
  match o with
  | CreateCreditCheckout userId creditAmount =>
    void (createCreditCheckoutSession stripe userId creditAmount)
  | CreateSubscriptionCheckout userId plan =>
    void (createSubscriptionCheckoutSession stripe now userId plan)
  | Cancel userId => void (cancelSubscription stripe now userId)
  | Reactivate userId => void (reactivateSubscription stripe userId)
  | SwitchPlan userId newPlan => void (switchPlan stripe now userId newPlan)
  | BillingPortal userId => void (createBillingPortalSession stripe userId)
  | VerifySession sessionId userId => void (verifyAndProcessSession stripe now sessionId userId)
  | SyncSubscription userId => void (syncSubscriptionFromStripe stripe now userId)
  | SyncTransactions userId => void (syncTransactionsFromStripe stripe userId)
  end.

(** Everything that can write a subscription record. *)
Inductive SubscriptionOp :=
| Webhook (event : Event)
| Reconcile (o : ReconciliationOp).

Definition subscription_call (stripe : StripeApi.t) (now : Z) (o : SubscriptionOp)
  : Async unit :=
  match o with
  | Webhook event => handleWebhookEvent stripe now event
  | Reconcile o' => reconcile stripe now o'
  end.

(* ------------------------------------------------------------------ *)
(** ** Concurrent debits

    A debit suspends at each [await]: after the credit check, after the
    decrement and after the ledger write. Other requests run in between. *)

Inductive Debit :=
| Requested (userId action : string)
| Checked (userId action : string) (creditCheck : CreditCheck.t)
| Decremented (userId action : string) (creditCheck : CreditCheck.t)
    (updatedUser : option User.t)
| Settled (result : completion Deduction.t).

Definition debit_step (d : Debit) (st : Store) : Debit * Store :=
  match d with
  | Requested userId action =>
    match checkCredits userId action st with
    | (Return creditCheck, st') =>
      if CreditCheck.unlimited creditCheck || negb (CreditCheck.hasCredits creditCheck)
      then let r := deduct_after_check userId action creditCheck st' in
           (Settled (outcome r), final r)
      else (Checked userId action creditCheck, st')
    | (Throw e, st') => (Settled (Throw e), st')
    end
  | Checked userId action creditCheck =>
    match deduct_update userId creditCheck st with
    | (Return updatedUser, st') => (Decremented userId action creditCheck updatedUser, st')
    | (Throw e, st') => (Settled (Throw e), st')
    end
  | Decremented userId action creditCheck updatedUser =>
    let r := deduct_log userId action creditCheck updatedUser st in
    (Settled (outcome r), final r)
  | Settled result => (Settled result, st)
  end.

(** A schedule names, step by step, the request that runs next. *)
Fixpoint run_schedule (schedule : list nat) (ds : list Debit) (st : Store)
  : list Debit * Store :=
  match schedule with
  | [] => (ds, st)
  | i :: schedule' =>
    match ds !! i with
    | Some d =>
      let '(d', st') := debit_step d st in
      run_schedule schedule' (<[i := d']> ds) st'
    | None => run_schedule schedule' ds st
    end
  end.

(** Debits served one after another. *)
Definition serial_debits (ds : list (string * string)) (st : Store) : Store :=
  fold_left (λ s d, final (deductCredits d.1 d.2 s)) ds st.

Definition balances_nonneg (st : Store) : Prop :=
  ∀ userId u, users st !! userId = Some u → 0 ≤ User.credits u.

(* ------------------------------------------------------------------ *)
(** ** What the ledger says *)

(** The direction of an entry is in its type: usage takes, the rest give. *)
Definition signed_delta (e : CreditLog.t) : Z :=
  match CreditLog.type e with
  | CreditLog.usage => - CreditLog.credits e
  | _ => CreditLog.credits e
  end.

(** The signed sum of a user's entries. *)
Definition ledger_sum (userId : string) (log : list CreditLog.t) : Z :=
  foldr (λ e acc, if str_eqb (CreditLog.userId e) userId
                  then signed_delta e + acc else acc) 0 log.

(** The running sum when the entry at position [k] was written. *)
Definition running_sum (log : list CreditLog.t) (k : nat) (e : CreditLog.t) : Z :=
  ledger_sum (CreditLog.userId e) (take (S k) log).

Definition balance_is_ledger_sum (st : Store) : Prop :=
  ∀ userId u, users st !! userId = Some u →
    User.credits u = ledger_sum userId (creditLogs st).

(** Every snapshot is the running sum (the property as the specification states it). *)
Definition snapshots_exact (log : list CreditLog.t) : Prop :=
  ∀ k e, log !! k = Some e → CreditLog.balanceAfter e = Some (running_sum log k e).

(** Every snapshot that is present is the running sum. *)
Definition snapshots_match (log : list CreditLog.t) : Prop :=
  ∀ k e b, log !! k = Some e → CreditLog.balanceAfter e = Some b →
    b = running_sum log k e.

(** A missing snapshot marks the zero-magnitude usage entry of an admin. *)
Definition null_snapshots_are_admin (st : Store) : Prop :=
  ∀ e, e ∈ creditLogs st → CreditLog.balanceAfter e = None →
    CreditLog.type e = CreditLog.usage ∧ CreditLog.credits e = 0 ∧
    ∃ u, users st !! CreditLog.userId e = Some u ∧ User.role u = admin.

Definition settings_nonneg (st : Store) : Prop :=
  ∀ key v, settings st !! key = Some v → 0 ≤ v.

Record ledger_ok (st : Store) : Prop := {
  ok_balance : balance_is_ledger_sum st;
  ok_snapshots : snapshots_match (creditLogs st);
  ok_null : null_snapshots_are_admin st;
  ok_entries : ∀ e, e ∈ creditLogs st → is_Some (users st !! CreditLog.userId e);
  ok_subscribers : ∀ r, r ∈ subscriptions st → is_Some (users st !! Subscription.userId r);
  ok_settings : settings_nonneg st
}.

(** A ledger request is addressed to a registered user, for an amount that is
    not negative. *)
Definition well_addressed (st : Store) (r : Request LedgerOp) : Prop :=
  match op r with
  | CheckoutCompleted session =>
    is_Some (users st !! StripeSession.metadata_userId session) ∧
    match StripeSession.metadata session with
    | StripeSession.credit_purchase credits => 0 ≤ credits
    | _ => True
    end
  | _ => True
  end.

Fixpoint all_well_addressed (st : Store) (rs : list (Request LedgerOp)) : Prop :=
  match rs with
  | [] => True
  | r :: rs' => well_addressed st r ∧ all_well_addressed (final (ledger_call r st)) rs'
  end.

(** Completed journal entries for a checkout session. *)
Definition completed_for_session (sessionId : string) (st : Store) : list Transaction.t :=
  List.filter (λ t, opt_eqb (Transaction.stripeSessionId t) (Some sessionId) &&
                    match Transaction.status t with
                    | Transaction.completed => true
                    | _ => false
                    end) (transactions st).

(** Journal entries for an invoice. *)
Definition entries_for_invoice (invoiceId : string) (st : Store) : list Transaction.t :=
  List.filter (λ t, opt_eqb (Transaction.stripeInvoiceId t) (Some invoiceId))
    (transactions st).

Definition balance_of (userId : string) (st : Store) : option Z :=
  User.credits <$> users st !! userId.

Definition emptyStore : Store := mkStore ∅ ∅ ∅ [] [] [] [].

(* ------------------------------------------------------------------ *)
(** ** What the specification calls an active subscription *)

(** A record of the user with status active or trialing whose period ends
    strictly after [now]. *)
Definition entitled (now : Z) (userId : string) (r : Subscription.t) : Prop :=
  Subscription.userId r = userId ∧
  (Subscription.status r = "active" ∨ Subscription.status r = "trialing") ∧
  ∃ e, Subscription.currentPeriodEnd r = Some e ∧ now < e.

(* ------------------------------------------------------------------ *)
(** ** When an invoice-payment-succeeded event is skipped *)

(** The guards of [handleInvoicePaymentSucceeded], in the order it tests them:
    no subscription reference, the initial invoice, nothing paid, no local
    record of the subscription, an entry already journalled for the invoice. *)
Definition invoice_skipped (invoice : StripeInvoice.t) (st : Store) : Prop :=
  truthy (StripeInvoice.subscription invoice) = false ∨
  StripeInvoice.billing_reason invoice = "subscription_create" ∨
  default 0 (StripeInvoice.amount_paid invoice) ≤ 0 ∨
  (∀ r, r ∈ subscriptions st →
        Subscription.stripeSubscriptionId r ≠ StripeInvoice.subscription invoice) ∨
  entries_for_invoice (StripeInvoice.id invoice) st ≠ [].

(** The store after the grant of [allotment] for [invoice] to the owner of
    [subscription]. *)
Definition granted (invoice : StripeInvoice.t) (subscription : Subscription.t)
    (allotment : Z) (st : Store) : Store :=
  let userId := Subscription.userId subscription in
  let isSwitch := str_eqb (StripeInvoice.billing_reason invoice) "subscription_update" in
  let amount := default 0 (StripeInvoice.amount_paid invoice) in
  let currency := or_else (StripeInvoice.currency invoice) "usd" in
  let st1 := final (User_findByIdAndUpdate_inc userId allotment st) in
  set_transactions
    (λ l, l ++ [{| Transaction.userId := userId;
                   Transaction.stripeSessionId := None;
                   Transaction.stripePaymentIntentId := StripeInvoice.payment_intent invoice;
                   Transaction.stripeSubscriptionId := StripeInvoice.subscription invoice;
                   Transaction.stripeInvoiceId := Some (StripeInvoice.id invoice);
                   Transaction.type := "subscription_renewal";
                   Transaction.status := Transaction.completed;
                   Transaction.amount := amount;
                   Transaction.currency := currency;
                   Transaction.creditsAdded := allotment;
                   Transaction.plan := Some (Subscription.plan subscription);
                   Transaction.description :=
                     invoice_label isSwitch +:+ " — $" +:+ toFixed2 amount +:+ " "
                       +:+ toUpperCase currency;
                   Transaction.stripeEventType := "invoice.payment_succeeded";
                   Transaction.metadata_chargeId := None;
                   Transaction.metadata_paymentIntentId := None |}])
    (set_creditLogs
       (λ l, l ++ [CreditLog.mk userId CreditLog.addition None allotment
                     (balance_of userId st1)
                     (invoice_label isSwitch +:+ " — " +:+ string_of_Z allotment
                        +:+ " credits added")])
       st1).

(* ------------------------------------------------------------------ *)
(** ** The moves a ledger operation can make *)

(** Every operation of [LedgerOp] moves the ledger in one of four ways: not
    at all, by a credit or debit of a registered user with its entry, by the
    entry of an admin debit, or by a registration with its initial grant. *)
Inductive ledger_move (st st' : Store) : Prop :=
| move_none :
    users st' = users st → creditLogs st' = creditLogs st →
    ledger_move st st'
| move_entry (userId : string) (u : User.t) (e : CreditLog.t) :
    users st !! userId = Some u →
    users st' = <[userId := User.inc (signed_delta e) u]> (users st) →
    creditLogs st' = creditLogs st ++ [e] →
    CreditLog.userId e = userId →
    CreditLog.balanceAfter e = Some (User.credits u + signed_delta e) →
    ledger_move st st'
| move_admin (userId : string) (u : User.t) (e : CreditLog.t) :
    users st !! userId = Some u → User.role u = admin →
    users st' = users st →
    creditLogs st' = creditLogs st ++ [e] →
    CreditLog.userId e = userId →
    CreditLog.type e = CreditLog.usage → CreditLog.credits e = 0 →
    CreditLog.balanceAfter e = None →
    ledger_move st st'
| move_register (newId : string) (u : User.t) :
    users st !! newId = None →
    users st' = <[newId := u]> (users st) →
    (User.credits u = 0 ∧ creditLogs st' = creditLogs st) ∨
    (∃ e, creditLogs st' = creditLogs st ++ [e] ∧ CreditLog.userId e = newId ∧
          signed_delta e = User.credits u ∧
          CreditLog.balanceAfter e = Some (User.credits u)) →
    ledger_move st st'.

(** What a ledger operation leaves behind: the settings as they were, every
    subscription owned by a registered user, and one move of the ledger. *)
Definition ledger_step (st st' : Store) : Prop :=
  settings st' = settings st ∧
  (∀ r, r ∈ subscriptions st' → is_Some (users st' !! Subscription.userId r)) ∧
  ledger_move st st'.

(* ------------------------------------------------------------------ *)
(** ** Failing closed *)

(** A call that never writes. *)
Definition pure {A} (m : Async A) : Prop := ∀ st, final (m st) = st.

(** A call that, started on [st], leaves [st] untouched whenever it throws. *)
Definition fail_closed {A} (m : Async A) (st : Store) : Prop :=
  ∀ e st', m st = (Throw e, st') → st' = st.

(** The checkout sessions the processor hands out carry amounts that are
    not negative (the checkout creator only accepts 1 to 100 credits). *)
Definition sessions_well_formed (stripe : StripeApi.t) : Prop :=
  ∀ sessionId session credits,
    StripeApi.checkout_sessions_retrieve stripe sessionId = Return (Some session) →
    StripeSession.metadata session = StripeSession.credit_purchase credits →
    0 ≤ credits.

(** The conflict reported when the processor already holds an active
    subscription for the customer. *)
Definition conflict_synced : exn :=
  Error "User already has an active subscription on Stripe. It has been synced — please refresh the page.".

(* ------------------------------------------------------------------ *)
(** ** Where a status written to a local record comes from *)

(** The processor lists [stripeSub] among the subscriptions of a customer. *)
Definition listed (stripe : StripeApi.t) (stripeSub : StripeSubscription.t) : Prop :=
  ∃ customerId status limit subs,
    StripeApi.subscriptions_list stripe customerId status limit = Return subs ∧
    stripeSub ∈ subs.

(** [reported stripe o sid stripeSub]: operation [o] reads [stripeSub] from
    the processor as the subscription with reference [sid] (from the event
    itself, by retrieval, or from a listing). *)
Definition reported (stripe : StripeApi.t) (o : SubscriptionOp) (sid : string)
    (stripeSub : StripeSubscription.t) : Prop :=
  match o with
  | Webhook (customer_subscription_updated sub) =>
    stripeSub = sub ∧ StripeSubscription.id sub = sid
  | Webhook (checkout_session_completed session) =>
    StripeSession.subscription_id session = Some sid ∧
    StripeApi.subscriptions_retrieve stripe sid = Return stripeSub
  | Reconcile (VerifySession sessionId _) =>
    ∃ session,
      StripeApi.checkout_sessions_retrieve stripe sessionId = Return (Some session) ∧
      StripeSession.subscription_id session = Some sid ∧
      StripeApi.subscriptions_retrieve stripe sid = Return stripeSub
  | Reconcile (SyncSubscription _) | Reconcile (CreateSubscriptionCheckout _ _) =>
    StripeSubscription.id stripeSub = sid ∧ listed stripe stripeSub
  | _ => False
  end.

(** A call that leaves the subscription records alone. *)
Definition keeps_subscriptions {A} (m : Async A) : Prop :=
  ∀ st, subscriptions (final (m st)) = subscriptions st.

(** How the status of a record can relate to its status before an
    operation: kept, set to expired, set to past due by a failed payment of
    the record's subscription, or copied from what the processor reports for
    the record's subscription reference. *)
Definition status_origin (stripe : StripeApi.t) (o : SubscriptionOp)
    (r r' : Subscription.t) : Prop :=
  (∃ invoice, o = Webhook (invoice_payment_failed invoice) ∧
              Subscription.stripeSubscriptionId r = StripeInvoice.subscription invoice ∧
              Subscription.status r' = "past_due") ∨
  (∃ sid stripeSub, Subscription.stripeSubscriptionId r = Some sid ∧
                    reported stripe o sid stripeSub ∧
                    Subscription.status r' = StripeSubscription.status stripeSub).

Definition transition (stripe : StripeApi.t) (o : SubscriptionOp)
    (r r' : Subscription.t) : Prop :=
  Subscription.status r' = Subscription.status r ∨
  Subscription.status r' = "expired" ∨
  status_origin stripe o r r'.

(* ------------------------------------------------------------------ *)
(** ** Calls with no credit side effect *)

(** A call that leaves every balance, the ledger and the journal alone. *)
Definition keeps_ledger {A} (m : Async A) : Prop :=
  ∀ st, users (final (m st)) = users st ∧
        creditLogs (final (m st)) = creditLogs st ∧
        transactions (final (m st)) = transactions st.

(** The webhook events and reconciliation calls that only concern the
    entitlement: everything but a completed checkout, an invoice payment, a
    session verification and a transaction sync. *)
Definition entitlement_only (o : SubscriptionOp) : bool :=
  match o with
  | Webhook (customer_subscription_updated _)
  | Webhook (customer_subscription_deleted _)
  | Webhook (unhandled_event _) => true
  | Webhook _ => false
  | Reconcile (VerifySession _ _) | Reconcile (SyncTransactions _) => false
  | Reconcile _ => true
  end.

(* ================================================================== *)
(** * Around the billing core: callers, controllers, settings *)

(* ------------------------------------------------------------------ *)
(** ** What the transaction sync finds and writes *)

(** The journal grew by [new]; nothing else changed. *)
Definition journal_grows (st st' : Store) (new : list Transaction.t) : Prop :=
  users st' = users st ∧ settings st' = settings st ∧
  textSettings st' = textSettings st ∧ creditLogs st' = creditLogs st ∧
  subscriptions st' = subscriptions st ∧ resumes st' = resumes st ∧
  transactions st' = transactions st ++ new.

(** The journal already holds an entry of the user for the charge (by payment
    reference or by charge id), or the charge did not succeed. *)
Definition charge_known (userId : string) (charge : StripeCharge.t)
    (journal : list Transaction.t) : Prop :=
  StripeCharge.status charge ≠ "succeeded" ∨
  ∃ t, t ∈ journal ∧ Transaction.userId t = userId ∧
       (Transaction.stripePaymentIntentId t = StripeCharge.payment_intent charge ∨
        Transaction.metadata_chargeId t = Some (StripeCharge.id charge)).

Definition payment_intent_known (userId : string) (pi : StripePaymentIntent.t)
    (journal : list Transaction.t) : Prop :=
  StripePaymentIntent.status pi ≠ "succeeded" ∨
  ∃ t, t ∈ journal ∧ Transaction.userId t = userId ∧
       (Transaction.stripePaymentIntentId t = Some (StripePaymentIntent.id pi) ∨
        Transaction.metadata_paymentIntentId t = Some (StripePaymentIntent.id pi)).

(** What the transaction sync writes: a completed entry of the user, marked
    as synced, with no checkout session. *)
Definition synced_entry (userId : string) (t : Transaction.t) : Prop :=
  Transaction.userId t = userId ∧
  Transaction.status t = Transaction.completed ∧
  Transaction.stripeSessionId t = None ∧
  Transaction.type t ∈ ["credit_purchase"; "subscription_payment"; "subscription_renewal"] ∧
  (Transaction.stripeEventType t = "charge.synced" ∨
   Transaction.stripeEventType t = "payment_intent.synced").

(* ------------------------------------------------------------------ *)
(** ** What the webhook handlers copy and record *)

(** What a subscription-updated event copies onto the local record. *)
Definition mirrors (now : Z) (stripeSub : StripeSubscription.t)
    (r r' : Subscription.t) : Prop :=
  Subscription.status r' = StripeSubscription.status stripeSub ∧
  Subscription.cancelAtPeriodEnd r' = StripeSubscription.cancel_at_period_end stripeSub ∧
  Subscription.currentPeriodStart r' = Some (extractPeriodDates now stripeSub).1 ∧
  Subscription.currentPeriodEnd r' = Some (extractPeriodDates now stripeSub).2 ∧
  Subscription.plan r' =
    (if truthy (interval_of stripeSub)
     then plan_of_interval (default "" (interval_of stripeSub))
     else Subscription.plan r) ∧
  Subscription.userId r' = Subscription.userId r ∧
  Subscription.stripeCustomerId r' = Subscription.stripeCustomerId r ∧
  Subscription.stripeSubscriptionId r' = Subscription.stripeSubscriptionId r ∧
  Subscription.features r' = Subscription.features r.

(** The journal entry of a failed invoice payment. *)
Definition failed_entry (invoice : StripeInvoice.t) (r : Subscription.t)
    (t : Transaction.t) : Prop :=
  Transaction.userId t = Subscription.userId r ∧
  Transaction.status t = Transaction.failed ∧
  Transaction.type t = "subscription_renewal" ∧
  Transaction.stripeInvoiceId t = Some (StripeInvoice.id invoice) ∧
  Transaction.amount t = default 0 (StripeInvoice.amount_due invoice) ∧
  Transaction.creditsAdded t = 0.

(* ------------------------------------------------------------------ *)
(** ** HTTP responses of the controllers *)

(** [res.status(s).json(body)], an error reply [{ error }], and the reply of
    a debit that was refused (status 402). *)
Inductive Response (A : Type) :=
| Json (status : Z) (body : A)
| Failed (status : Z) (error : string)
| PaymentRequired (error : option string) (creditsRequired : option Z)
    (creditsAvailable : num).
Arguments Json {A} status body.
Arguments Failed {A} status error.
Arguments PaymentRequired {A} error creditsRequired creditsAvailable.

(* ------------------------------------------------------------------ *)
(** ** models/creditLog.model.js: the paginated history *)

Definition kind_name (k : CreditLog.kind) : string :=
  match k with
  | CreditLog.usage => "usage"
  | CreditLog.addition => "addition"
  | CreditLog.initial => "initial"
  | CreditLog.admin_adjustment => "admin_adjustment"
  | CreditLog.purchase => "purchase"
  | CreditLog.refund => "refund"
  end.

(** [Math.ceil(total / limit)] for a divisor other than zero. *)
Definition ceil_div (total limit : Z) : Z := - ((- total) / limit).

(** [Math.ceil(total / limit)]: not a number ([None]) for 0/0, infinite for
    a division of a positive count by zero. *)
Definition pages_of (total limit : Z) : option num :=
  if limit =? 0 then (if total =? 0 then None else Some Infinity)
  else Some (Fin (ceil_div total limit)).

(** [.sort({ createdAt: -1 }).skip(skip).limit(limit)] on documents kept in
    insertion order, the order of [createdAt]: newest first. The server
    refuses a negative [skip]; [limit(0)] is no limit, and the driver sends a
    negative limit as its magnitude. *)
Definition sort_skip_limit {A} (docs : list A) (skip limit : Z) : completion (list A) :=
  if skip <? 0 then Throw (Error "Skip value must be non-negative")
  else
    let rest := drop (Z.to_nat skip) (reverse docs) in
    Return (if limit =? 0 then rest else take (Z.to_nat (Z.abs limit)) rest).

Module History.
Record t := mk {
  logs : list CreditLog.t;
  page : Z;
  limit : Z;
  total : Z;
  pages : option num
}.
End History.

(** [{ userId }], with [type] added when it is given and not empty. *)
Definition history_filter (userId : string) (type : option string) (e : CreditLog.t) : bool :=
  str_eqb (CreditLog.userId e) userId &&
  (if truthy type then str_eqb (kind_name (CreditLog.type e)) (default "" type) else true).

(** [creditLogSchema.statics.getUserHistory] *)
Definition CreditLog_getUserHistory (userId : string) (page limit : Z)
    (type : option string) : Async History.t :=
  let skip := (page - 1) * limit in
  await matching <- read (λ st, List.filter (history_filter userId type) (creditLogs st)) ;;
  await logs <- external (sort_skip_limit matching skip limit) ;;
  let total := Z.of_nat (length matching) in
  ret (History.mk logs page limit total (pages_of total limit)).

(** The entries of a user's history, newest first. *)
Definition history_of (userId : string) (type : option string) (st : Store)
  : list CreditLog.t :=
  reverse (List.filter (history_filter userId type) (creditLogs st)).

(** The entries of a page, none when the call fails. *)
Definition page_logs (r : completion History.t * Store) : list CreditLog.t :=
  match outcome r with
  | Return h => History.logs h
  | Throw _ => []
  end.

(* ------------------------------------------------------------------ *)
(** ** controllers/credits.controller.js *)

(** [parseInt(q, 10) || d], with the query parameter already read as an
    integer ([None] when it is absent or not a number). *)
Definition int_or (q : option Z) (d : Z) : Z :=
  match q with
  | Some n => if n =? 0 then d else n
  | None => d
  end.

Definition getCreditHistory (userId : string) (query_page query_limit : option Z)
    (query_type : option string) : Async (Response History.t) :=
  try_catch
    (await result <-
       CreditLog_getUserHistory userId (int_or query_page 1) (int_or query_limit 20)
         query_type ;;
     ret (Json 200 result))
    (ret (Failed 500 "Failed to get credit history")).

(** [User.findByIdAndUpdate(userId, { credits }, { new: true })] *)
Definition User_findByIdAndUpdate_set (userId : string) (credits : Z)
  : Async (option User.t) :=
  λ st, match users st !! userId with
        | Some u =>
          let u' := User.mk (User.email u) (User.role u) credits in
          (Return (Some u'), set_users (<[userId := u']>) st)
        | None => (Return None, st)
        end.

(** The id of a user in a request body or in a route, as [User.findById]
    takes it: the text of an ObjectId, which names a user id, or any other
    text, on which the cast of the filter fails and the query rejects. *)
Inductive RequestId :=
| ObjectIdText (id : string)
| Malformed (text : string).

(** [!userId]: the text of an ObjectId is never empty. *)
Definition falsy_id (userId : RequestId) : bool :=
  match userId with
  | ObjectIdText _ => false
  | Malformed text => str_eqb text ""
  end.

(** The cast of the filter of [User.findById]: the user id that the text
    names, or nothing. *)
Definition castObjectId (userId : RequestId) : option string :=
  match userId with
  | ObjectIdText id => Some id
  | Malformed _ => None
  end.

(** The body of a credit update: each field may be missing; [credits] is a
    number. *)
Module CreditUpdateBody.
Record t := mk { userId : option RequestId; credits : option Z; operation : option string }.
End CreditUpdateBody.

Module CreditUpdate.
Record t := mk { credits : Z; previousCredits : Z; operation : string }.
End CreditUpdate.

(** The description of an adjustment, with the bytes that the source literal
    holds between the two balances. *)
Definition adjustment_description (operation : string) (diff previous updated : Z) : string :=
  "Admin " +:+ operation +:+ ": " +:+ string_of_Z (Z.abs diff) +:+ " credit"
    +:+ (if Z.abs diff =? 1 then "" else "s")
    +:+ " (" +:+ string_of_Z previous +:+ " â†’ " +:+ string_of_Z updated +:+ ")".

Definition missing_fields : string := "Missing required fields: userId, credits, operation".

Definition updateCredits (body : CreditUpdateBody.t) : Async (Response CreditUpdate.t) :=
  try_catch
    (match CreditUpdateBody.userId body, CreditUpdateBody.credits body,
           CreditUpdateBody.operation body with
     | Some bodyId, Some credits, Some operation =>
       if falsy_id bodyId || (credits =? 0) || str_eqb operation ""
       then ret (Failed 400 missing_fields)
       else if negb (bool_decide (operation ∈ ["add"; "subtract"; "set"]))
       then ret (Failed 400 "Invalid operation. Must be: add, subtract, or set")
       else
         match castObjectId bodyId with
         | None => throw (CastError "User" "_id")
         | Some userId =>
           await found <- User_findById userId ;;
           match found with
           | None => ret (Failed 404 "User not found")
           | Some u =>
             let newCredits :=
               if str_eqb operation "add" then User.credits u + credits
               else if str_eqb operation "subtract" then User.credits u - credits
               else credits in
             if newCredits <? 0
             then ret (Failed 400 "Operation would result in negative credits")
             else
               await updatedUser <- User_findByIdAndUpdate_set userId newCredits ;;
               match updatedUser with
               | None =>
                 throw (TypeError "Cannot read properties of null (reading 'credits')")
               | Some updated =>
                 let diff := newCredits - User.credits u in
                 do logCreditEvent userId CreditLog.admin_adjustment (Z.abs diff)
                      (Some (User.credits updated))
                      (adjustment_description operation diff (User.credits u)
                         (User.credits updated)) ;;
                 ret (Json 200 (CreditUpdate.mk (User.credits updated) (User.credits u)
                                  operation))
               end
           end
         end
     | _, _, _ => ret (Failed 400 missing_fields)
     end)
    (ret (Failed 500 "Failed to update credits")).

(** The store after the balance of [userId] was moved from that of [u] to
    [newCredits] by an admin: the new balance, and one entry with the
    magnitude of the move and the new balance as snapshot. *)
Definition adjusted (userId : string) (u : User.t) (operation : string)
    (newCredits : Z) (st : Store) : Store :=
  set_creditLogs
    (λ l, l ++ [CreditLog.mk userId CreditLog.admin_adjustment None
                  (Z.abs (newCredits - User.credits u)) (Some newCredits)
                  (adjustment_description operation (newCredits - User.credits u)
                     (User.credits u) newCredits)])
    (set_users (<[userId := User.mk (User.email u) (User.role u) newCredits]>) st).

(* ------------------------------------------------------------------ *)
(** ** controllers/user.controller.js: the direct credit update *)

(** [user.credits = credits; await user.save()] ([credits] has no validator) *)
Definition User_save_credits (id : string) (u : User.t) (credits : Z) : Async unit :=
  write (set_users (<[id := User.mk (User.email u) (User.role u) credits]>)).

(** [credits] is a number of the request body. *)
Definition updateUserCredits (id : RequestId) (credits : Z) : Async (Response Z) :=
  if credits <? 0 then ret (Failed 400 "Invalid credit value")
  else
    try_catch
      (match castObjectId id with
       | None => throw (CastError "User" "_id")
       | Some userId =>
         await found <- User_findById userId ;;
         match found with
         | None => ret (Failed 404 "User not found")
         | Some u =>
           do User_save_credits userId u credits ;;
           ret (Json 200 credits)
         end
       end)
      (ret (Failed 500 "Server error")).

(* ------------------------------------------------------------------ *)
(** ** middlewares/subscription.middleware.js *)

(** What a middleware leaves on [req.subscription]. *)
Inductive Attached :=
| AdminBypass
| Document (r : Subscription.t).

Definition attached_features (a : Attached) : Subscription.Features :=
  match a with
  | AdminBypass => Subscription.all_features
  | Document r => Subscription.features r
  end.

(** The keys of the [features] path. *)
Inductive FeatureKey := publicResumes | resumeAnalytics | salaryEstimation.

Definition feature (featureKey : FeatureKey) (f : Subscription.Features) : bool :=
  match featureKey with
  | publicResumes => Subscription.publicResumes f
  | resumeAnalytics => Subscription.resumeAnalytics f
  | salaryEstimation => Subscription.salaryEstimation f
  end.

Module Req.
Record t := mk { user_id : string; user_role : Role; subscription : option Attached }.
Definition attach (a : option Attached) (req : t) : t :=
  mk (user_id req) (user_role req) a.
End Req.

(** How a middleware ends: [next()], [next(err)] or a response. *)
Inductive Handled :=
| next (req : Req.t)
| next_error (err : exn)
| respond (status : Z) (error : string).

(** [try { m } catch (err) { next(err) }] *)
Definition catch_next (m : Async Handled) : Async Handled :=
  λ st, match m st with
        | (Throw err, st') => (Return (next_error err), st')
        | r => r
        end.

Definition requireSubscription (now : Z) (req : Req.t) : Async Handled :=
  catch_next
    (match Req.user_role req with
     | admin => ret (next (Req.attach (Some AdminBypass) req))
     | user =>
       await subscription <- Subscription_getActiveForUser now (Req.user_id req) ;;
       match subscription with
       | None => ret (respond 403 "Active subscription required")
       | Some (_, r) => ret (next (Req.attach (Some (Document r)) req))
       end
     end).

Definition requireFeature (featureKey : FeatureKey) (now : Z) (req : Req.t)
  : Async Handled :=
  catch_next
    (match Req.user_role req with
     | admin => ret (next req)
     | user =>
       await subscription <-
         match Req.subscription req with
         | Some a => ret (Some a)
         | None =>
           await found <- Subscription_getActiveForUser now (Req.user_id req) ;;
           ret (Document <$> (snd <$> found))
         end ;;
       match subscription with
       | None => ret (respond 403 "Active subscription required")
       | Some a =>
         if feature featureKey (attached_features a)
         then ret (next (Req.attach (Some a) req))
         else ret (respond 403 "Feature not included")
       end
     end).

Definition attachSubscription (now : Z) (req : Req.t) : Async Handled :=
  await subscription <-
    try_catch
      (await found <- Subscription_getActiveForUser now (Req.user_id req) ;;
       ret (Document <$> (snd <$> found)))
      (ret None) ;;
  ret (next (Req.attach subscription req)).

(** A route [router.post(path, first, second, handler)]: each middleware
    hands the request on, answers itself, or passes an error on. *)
Definition through {A} (middleware : Req.t → Async Handled)
    (handler : Req.t → Async (Response A)) (req : Req.t) : Async (Response A) :=
  await handled <- middleware req ;;
  match handled with
  | next req' => handler req'
  | next_error err => throw err
  | respond status error => ret (Failed status error)
  end.

(** A middleware result that hands the request on. *)
Definition passes (h : Handled) : bool :=
  match h with next _ => true | _ => false end.

(** A route behind the subscription gate alone, and behind the subscription
    gate followed by a feature gate. *)
Definition subscriber_route {A} (now : Z) (handler : Req.t → Async (Response A))
  : Req.t → Async (Response A) :=
  through (requireSubscription now) handler.

Definition feature_route {A} (now : Z) (featureKey : FeatureKey)
    (handler : Req.t → Async (Response A)) : Req.t → Async (Response A) :=
  through (requireSubscription now) (through (requireFeature featureKey now) handler).

(** Some record of the user is active or trialing with a period end after
    [now]. *)
Definition subscribed (now : Z) (userId : string) (st : Store) : Prop :=
  ∃ s, s ∈ subscriptions st ∧ entitled now userId s.

(** Every subscription record has the three features on. *)
Definition all_featured (st : Store) : Prop :=
  ∀ r, r ∈ subscriptions st → Subscription.features r = Subscription.all_features.

(* ------------------------------------------------------------------ *)
(** ** The debit as the controllers see it *)

(** The cost of a configured action (an own key of the cost map) for a user
    who is not an admin. *)
Definition cost_of (action : string) (st : Store) : option Z :=
  (λ settingKey, default 1 (settings st !! settingKey)) <$> costMap !! action.

(** The store after a debit of [required] credits of user [u] for [action]:
    the decremented balance and the usage entry with the new balance. *)
Definition debited (userId action : string) (u : User.t) (required : Z) (st : Store)
  : Store :=
  set_creditLogs
    (λ l, l ++ [CreditLog.mk userId CreditLog.usage (Some action) required
                  (Some (User.credits u - required))
                  (default action (actionLabels !! action))])
    (set_users (<[userId := User.inc (- required) u]>) st).

(** The descriptor of a refused debit. *)
Definition insufficient (required available : Z) : Deduction.t :=
  Deduction.mk false 0 (Fin available) (Some required)
    (Some ("Insufficient credits. Required: " +:+ string_of_Z required
             +:+ ", Available: " +:+ string_of_Z available))
    false.

(* ------------------------------------------------------------------ *)
(** ** controllers/resume.controller.js *)

(** The validated body of a resume request, as far as the entitlement goes. *)
Module ResumeValue.
Record t := mk { visibility : option Resume.Visibility }.
End ResumeValue.

Definition is_public (r : Resume.t) : bool :=
  match Resume.visibility r with Resume.public => true | Resume.private => false end.

Definition is_admin (role : Role) : bool :=
  match role with admin => true | user => false end.

Definition wants_public (value : ResumeValue.t) : bool :=
  match ResumeValue.visibility value with Some Resume.public => true | _ => false end.

(** [body] is [None] when the validation of the request body fails; the
    response then lists the validation messages. *)
Definition createResume (user_id : string) (body : option ResumeValue.t)
  : Async (Response (Resume.t * Z * num)) :=
  match body with
  | None => ret (Failed 400 "validation")
  | Some value =>
    await creditResult <- deductCredits user_id "resume_creation" ;;
    if negb (Deduction.success creditResult) then
      ret (PaymentRequired (Deduction.error creditResult) (Deduction.required creditResult)
             (Deduction.remaining creditResult))
    else
      let resume :=
        Resume.mk user_id (default Resume.private (ResumeValue.visibility value)) false in
      do write (set_resumes (λ l, l ++ [resume])) ;;
      ret (Json 201 (resume, Deduction.creditsDeducted creditResult,
                     Deduction.remaining creditResult))
  end.

(** A resume is addressed by its position in the collection. *)
Definition updateResume (now : Z) (user_id : string) (user_role : Role) (id : nat)
    (body : option ResumeValue.t) : Async (Response Resume.t) :=
  await found <- read (λ st, resumes st !! id) ;;
  match found with
  | None => ret (Failed 404 "Resume not found")
  | Some resume =>
    if Resume.isDeleted resume then ret (Failed 404 "Resume not found")
    else if negb (is_admin user_role) && negb (str_eqb (Resume.userId resume) user_id)
    then ret (Failed 403 "Access denied")
    else
      match body with
      | None => ret (Failed 400 "validation")
      | Some value =>
        await isSubscribed <-
          (if wants_public value && negb (is_public resume) && negb (is_admin user_role)
           then Subscription_isUserSubscribed now user_id
           else ret true) ;;
        if negb isSubscribed then ret (Failed 403 "Subscription required")
        else
          let resume' :=
            Resume.mk (Resume.userId resume)
              (default (Resume.visibility resume) (ResumeValue.visibility value))
              (Resume.isDeleted resume) in
          do write (set_resumes (<[id := resume']>)) ;;
          ret (Json 200 resume')
      end
  end.

(** The filter [{ userId, visibility: 'public', isDeleted: false }]. *)
Definition exposed (userId : string) (r : Resume.t) : bool :=
  str_eqb (Resume.userId r) userId && is_public r && negb (Resume.isDeleted r).

(** [Resume.updateMany({ userId, visibility: 'public', isDeleted: false },
    { $set: { visibility: 'private' } })], with its [modifiedCount]. *)
Definition Resume_privatize_all (userId : string) : Async Z :=
  λ st,
    (Return (Z.of_nat (length (List.filter (exposed userId) (resumes st)))),
     set_resumes (map (privatize userId)) st).

(** The result is the [privatized] count of the response. *)
Definition enforceVisibility (now : Z) (user_id : string) (user_role : Role) : Async Z :=
  match user_role with
  | admin => ret 0
  | user =>
    await isSubscribed <- Subscription_isUserSubscribed now user_id ;;
    if isSubscribed then ret 0 else Resume_privatize_all user_id
  end.

(* ------------------------------------------------------------------ *)
(** ** Public resume access (the server's [validatePublicAccess]) *)

(** [true], or [false] after the response with the given status was sent. *)
Inductive Access := allowed | refused (status : Z).

Definition validatePublicAccess (now : Z) (resume : option Resume.t) : Async Access :=
  match resume with
  | None => ret (refused 404)
  | Some r =>
    if negb (is_public r) then ret (refused 404)
    else
      await resumeOwner <- User_findById (Resume.userId r) ;;
      let isAdmin :=
        match resumeOwner with Some u => is_admin (User.role u) | None => false end in
      await isSubscribed <-
        (if isAdmin then ret true
         else Subscription_isUserSubscribed now (Resume.userId r)) ;;
      if isSubscribed then ret allowed else ret (refused 403)
  end.

(** The owner of a resume is a registered admin. *)
Definition owned_by_admin (r : Resume.t) (st : Store) : Prop :=
  ∃ u, users st !! Resume.userId r = Some u ∧ User.role u = admin.

(* ------------------------------------------------------------------ *)
(** ** Cover letter and proposal controllers *)

Definition gatherProfile (userId : string) : Async unit :=
  await found <- User_findById userId ;;
  match found with
  | None => throw (Error "User not found")
  | Some _ => ret tt
  end.

(** The shape the five paid generators share: validate, debit, then gather
    the profile and generate. [valid] tells whether the body passed
    validation; [generated] is the outcome of the text generation, which does
    not touch the billing store. *)
Definition paid_generation {A} (action failure : string) (userId : string)
    (valid : bool) (generated : completion A) : Async (Response (A * Z * num)) :=
  if negb valid then ret (Failed 400 "validation")
  else
    await creditResult <- deductCredits userId action ;;
    if negb (Deduction.success creditResult) then
      ret (PaymentRequired (Deduction.error creditResult) (Deduction.required creditResult)
             (Deduction.remaining creditResult))
    else
      try_catch
        (do gatherProfile userId ;;
         await result <- external generated ;;
         ret (Json 200 (result, Deduction.creditsDeducted creditResult,
                        Deduction.remaining creditResult)))
        (ret (Failed 500 failure)).

Definition generateJobPost {A} :=
  @paid_generation A "job_post_cover_letter" "Failed to generate cover letter".
Definition estimateUpwork {A} :=
  @paid_generation A "upwork_estimate" "Failed to estimate timeline & budget".
Definition writeUpworkProposal {A} :=
  @paid_generation A "upwork_proposal" "Failed to write proposal".
Definition estimateFiverr {A} :=
  @paid_generation A "fiverr_estimate" "Failed to estimate timeline & budget".
Definition writeFiverrProposal {A} :=
  @paid_generation A "fiverr_proposal" "Failed to write proposal".

(** The five generators, by the action they charge. *)
Inductive Generator := JobPost | UpworkEstimate | UpworkProposal | FiverrEstimate | FiverrProposal.

Definition generator_action (g : Generator) : string :=
  match g with
  | JobPost => "job_post_cover_letter"
  | UpworkEstimate => "upwork_estimate"
  | UpworkProposal => "upwork_proposal"
  | FiverrEstimate => "fiverr_estimate"
  | FiverrProposal => "fiverr_proposal"
  end.

(** The message of a generator's failure response. *)
Definition generator_failure (g : Generator) : string :=
  match g with
  | JobPost => "Failed to generate cover letter"
  | UpworkEstimate | FiverrEstimate => "Failed to estimate timeline & budget"
  | UpworkProposal | FiverrProposal => "Failed to write proposal"
  end.

Definition generator {A} (g : Generator)
  : string → bool → completion A → Async (Response (A * Z * num)) :=
  match g with
  | JobPost => generateJobPost
  | UpworkEstimate => estimateUpwork
  | UpworkProposal => writeUpworkProposal
  | FiverrEstimate => estimateFiverr
  | FiverrProposal => writeFiverrProposal
  end.

(** [router.post(path, requireSubscription, tryCatch(controller))] *)
Definition generation_route {A} (now : Z) (g : Generator) (valid : bool)
    (generated : completion A) : Req.t → Async (Response (A * Z * num)) :=
  through (requireSubscription now)
    (λ req, generator g (Req.user_id req) valid generated).

(* ------------------------------------------------------------------ *)
(** ** models/appSettings.model.js: set and the seeded defaults *)

Definition set_settings (f : gmap string Z → gmap string Z) (st : Store) : Store :=
  mkStore (users st) (f (settings st)) (textSettings st) (creditLogs st)
          (transactions st) (subscriptions st) (resumes st).
Definition set_textSettings (f : gmap string string → gmap string string) (st : Store)
  : Store :=
  mkStore (users st) (settings st) (f (textSettings st)) (creditLogs st)
          (transactions st) (subscriptions st) (resumes st).

(** The value of a setting: a number or a text. *)
Inductive SettingValue := NumberValue (z : Z) | TextValue (s : string).

(** [AppSettings.findOne({ key })], as far as existence goes. *)
Definition AppSettings_exists (key : string) : Async bool :=
  read (λ st, bool_decide (is_Some (settings st !! key))
              || bool_decide (is_Some (textSettings st !! key))).

(** Writing the value of a key; the value has one type at a time. *)
Definition AppSettings_put (key : string) (value : SettingValue) : Async unit :=
  match value with
  | NumberValue z =>
    write (λ st, set_textSettings (delete key) (set_settings (<[key := z]>) st))
  | TextValue s =>
    write (λ st, set_settings (delete key) (set_textSettings (<[key := s]>) st))
  end.

(** [appSettingsSchema.statics.set]: an upsert of the value. *)
Definition AppSettings_set (key : string) (value : SettingValue) : Async unit :=
  AppSettings_put key value.

(** The defaults of [seedDefaults], prices in cents. *)
Definition defaults : list (string * SettingValue) :=
  [("app_name", TextValue "Resume Builder");
   ("initial_credits", NumberValue 3);
   ("credits_per_resume", NumberValue 1);
   ("credits_per_job_post_cover_letter", NumberValue 1);
   ("credits_per_upwork_estimate", NumberValue 1);
   ("credits_per_upwork_proposal", NumberValue 1);
   ("credits_per_fiverr_estimate", NumberValue 1);
   ("credits_per_fiverr_proposal", NumberValue 1);
   ("ai_provider", TextValue "mock");
   ("ai_model", TextValue "gpt-4o-mini");
   ("openai_api_key", TextValue EmptyString);
   ("price_per_credit", NumberValue 80);
   ("currency", TextValue "usd");
   ("subscription_monthly_price", NumberValue 799);
   ("subscription_yearly_price", NumberValue 5999);
   ("subscription_monthly_credits", NumberValue 50);
   ("subscription_yearly_credits", NumberValue 700);
   ("stripe_monthly_price_id", TextValue EmptyString);
   ("stripe_yearly_price_id", TextValue EmptyString)].

(** [for (const setting of defaults)]: create what is missing; an existing
    setting keeps its value (only a missing label is filled in). *)
Fixpoint seed (ds : list (string * SettingValue)) : Async unit :=
  match ds with
  | [] => ret tt
  | (key, value) :: ds' =>
    await exists_ <- AppSettings_exists key ;;
    do (if exists_ then ret tt else AppSettings_put key value) ;;
    seed ds'
  end.

Definition seedDefaults : Async unit := seed defaults.

(** A setting with that key exists, whatever its value. *)
Definition setting_exists (key : string) (st : Store) : Prop :=
  is_Some (settings st !! key) ∨ is_Some (textSettings st !! key).

(** The value a seed list gives to a key, as the pair of its numeric and its
    text reading. *)
Definition seeded_value (ds : list (string * SettingValue)) (key : string)
  : option Z * option string :=
  match (list_to_map ds : gmap string SettingValue) !! key with
  | Some (NumberValue z) => (Some z, None)
  | Some (TextValue s) => (None, Some s)
  | None => (None, None)
  end.

(** Only the settings differ. *)
Definition same_but_settings (st st' : Store) : Prop :=
  users st' = users st ∧ creditLogs st' = creditLogs st ∧
  transactions st' = transactions st ∧ subscriptions st' = subscriptions st ∧
  resumes st' = resumes st.

(* ------------------------------------------------------------------ *)
(** ** Scenarios: concrete stores, events and processor replies *)

(** The scenario of the specification: balance 2, cost 3. *)
Definition store_2_credits : Store :=
  mkStore {[ "u1" := User.mk "ann@example.org" user 2 ]}
          {[ "credits_per_resume" := 3 ]} ∅ [] [] [] [].

Definition store_with_admin : Store :=
  mkStore {[ "root" := User.mk "root@example.org" admin 10;
             "u1" := User.mk "ann@example.org" user 2 ]} ∅ ∅ [] [] [] [].

(** A processor that cannot be reached: every call rejects. *)
Definition unreachable : exn := StripeError "connection refused".
Definition offline : StripeApi.t :=
  {| StripeApi.customers_create := λ _ _, Throw unreachable;
     StripeApi.customers_list := λ _, Throw unreachable;
     StripeApi.subscriptions_list := λ _ _ _, Throw unreachable;
     StripeApi.subscriptions_retrieve := λ _, Throw unreachable;
     StripeApi.subscriptions_update_cancel := λ _ _, Throw unreachable;
     StripeApi.subscriptions_update_price := λ _ _ _, Throw unreachable;
     StripeApi.checkout_sessions_create := λ _ _, Throw unreachable;
     StripeApi.checkout_sessions_retrieve := λ _, Throw unreachable;
     StripeApi.invoices_retrieve := λ _, Throw unreachable;
     StripeApi.charges_list := λ _, Throw unreachable;
     StripeApi.paymentIntents_list := λ _, Throw unreachable;
     StripeApi.billingPortal_sessions_create := λ _, Throw unreachable |}.

(** A paid checkout session of user [u1] for 10 credits. *)
Definition sess_1 : StripeSession.t :=
  {| StripeSession.id := "sess_1";
     StripeSession.metadata_userId := "u1";
     StripeSession.metadata := StripeSession.credit_purchase 10;
     StripeSession.amount_total := Some 799;
     StripeSession.currency := Some "usd";
     StripeSession.payment_intent := Some "pi_1";
     StripeSession.subscription_id := None;
     StripeSession.customer := Some "cus_1";
     StripeSession.payment_status := "paid" |}.

(** A processor that knows that session and nothing else. *)
Definition knows_sess_1 : StripeApi.t :=
  {| StripeApi.customers_create := λ _ _, Throw unreachable;
     StripeApi.customers_list := λ _, Throw unreachable;
     StripeApi.subscriptions_list := λ _ _ _, Throw unreachable;
     StripeApi.subscriptions_retrieve := λ _, Throw unreachable;
     StripeApi.subscriptions_update_cancel := λ _ _, Throw unreachable;
     StripeApi.subscriptions_update_price := λ _ _ _, Throw unreachable;
     StripeApi.checkout_sessions_create := λ _ _, Throw unreachable;
     StripeApi.checkout_sessions_retrieve :=
       λ sessionId, if str_eqb sessionId "sess_1" then Return (Some sess_1)
                    else Return None;
     StripeApi.invoices_retrieve := λ _, Throw unreachable;
     StripeApi.charges_list := λ _, Throw unreachable;
     StripeApi.paymentIntents_list := λ _, Throw unreachable;
     StripeApi.billingPortal_sessions_create := λ _, Throw unreachable |}.

(** User [u1] holds a yearly subscription [sub_1], running until time 5000. *)
Definition yearly_sub_1 : Subscription.t :=
  {| Subscription.userId := "u1";
     Subscription.stripeCustomerId := Some "cus_1";
     Subscription.stripeSubscriptionId := Some "sub_1";
     Subscription.plan := yearly;
     Subscription.status := "active";
     Subscription.currentPeriodStart := Some 1000;
     Subscription.currentPeriodEnd := Some 5000;
     Subscription.cancelAtPeriodEnd := false;
     Subscription.features := Subscription.all_features |}.

Definition store_subscribed : Store :=
  mkStore {[ "u1" := User.mk "ann@example.org" user 2 ]} ∅ ∅ [] [] [yearly_sub_1] [].

Definition invoice_for (id reason : string) (subscription : string) : StripeInvoice.t :=
  {| StripeInvoice.id := id;
     StripeInvoice.subscription := Some subscription;
     StripeInvoice.billing_reason := reason;
     StripeInvoice.amount_paid := Some 9900;
     StripeInvoice.amount_due := Some 9900;
     StripeInvoice.currency := Some "usd";
     StripeInvoice.payment_intent := Some "pi_2" |}.

(** The invoice of a plan switch, of a renewal, and of a renewal of a
    subscription that has no local record. *)
Definition switch_invoice : StripeInvoice.t := invoice_for "in_1" "subscription_update" "sub_1".
Definition renewal_invoice : StripeInvoice.t := invoice_for "in_2" "subscription_cycle" "sub_1".
Definition stray_invoice : StripeInvoice.t := invoice_for "in_3" "subscription_cycle" "sub_9".

(** One credit left, and the default cost of 1 per action. *)
Definition store_1_credit : Store :=
  mkStore {[ "u1" := User.mk "ann@example.org" user 1 ]} ∅ ∅ [] [] [] [].

(** A processor on which customer [cus_1] already holds the active
    subscription [sub_7]. *)
Definition sub_7 : StripeSubscription.t :=
  {| StripeSubscription.id := "sub_7";
     StripeSubscription.status := "active";
     StripeSubscription.cancel_at_period_end := false;
     StripeSubscription.current_period_start := Some 1;
     StripeSubscription.current_period_end := Some 9;
     StripeSubscription.items := [] |}.

Definition holds_sub_7 : StripeApi.t :=
  {| StripeApi.customers_create := λ _ _, Return "cus_1";
     StripeApi.customers_list := λ _, Return ["cus_1"];
     StripeApi.subscriptions_list :=
       λ _ status _, if str_eqb status "active" then Return [sub_7] else Return [];
     StripeApi.subscriptions_retrieve := λ _, Return sub_7;
     StripeApi.subscriptions_update_cancel := λ _ _, Throw unreachable;
     StripeApi.subscriptions_update_price := λ _ _ _, Throw unreachable;
     StripeApi.checkout_sessions_create := λ _ _, Throw unreachable;
     StripeApi.checkout_sessions_retrieve := λ _, Throw unreachable;
     StripeApi.invoices_retrieve := λ _, Throw unreachable;
     StripeApi.charges_list := λ _, Throw unreachable;
     StripeApi.paymentIntents_list := λ _, Throw unreachable;
     StripeApi.billingPortal_sessions_create := λ _, Throw unreachable |}.

(** The record of [sub_1] after its deletion event, and a subscription-updated
    event for [sub_1], sent while it was still active, that arrives late. *)
Definition expired_sub_1 : Subscription.t := Subscription.set_status "expired" yearly_sub_1.

Definition store_expired : Store :=
  mkStore {[ "u1" := User.mk "ann@example.org" user 2 ]} ∅ ∅ [] [] [expired_sub_1] [].

Definition sub_1_active : StripeSubscription.t :=
  {| StripeSubscription.id := "sub_1";
     StripeSubscription.status := "active";
     StripeSubscription.cancel_at_period_end := false;
     StripeSubscription.current_period_start := Some 1;
     StripeSubscription.current_period_end := Some 5;
     StripeSubscription.items := [] |}.

Definition revived_sub_1 : Subscription.t :=
  Subscription.set_period 1000 5000 (Subscription.set_status "active" expired_sub_1).

(** The monthly price is configured, and the processor carries out the
    switch of [sub_1]. *)
Definition store_priced : Store :=
  mkStore {[ "u1" := User.mk "ann@example.org" user 2 ]} ∅
          {[ "stripe_monthly_price_id" := "price_m" ]} [] [] [yearly_sub_1] [].

Definition sub_1_monthly : StripeSubscription.t :=
  {| StripeSubscription.id := "sub_1";
     StripeSubscription.status := "active";
     StripeSubscription.cancel_at_period_end := false;
     StripeSubscription.current_period_start := None;
     StripeSubscription.current_period_end := None;
     StripeSubscription.items :=
       [StripeItem.mk "si_1" (Some 2) (Some 30) (Some "month")] |}.

Definition switches_sub_1 : StripeApi.t :=
  {| StripeApi.customers_create := λ _ _, Throw unreachable;
     StripeApi.customers_list := λ _, Throw unreachable;
     StripeApi.subscriptions_list := λ _ _ _, Throw unreachable;
     StripeApi.subscriptions_retrieve := λ _, Return sub_1_monthly;
     StripeApi.subscriptions_update_cancel := λ _ _, Throw unreachable;
     StripeApi.subscriptions_update_price := λ _ _ _, Return sub_1_monthly;
     StripeApi.checkout_sessions_create := λ _ _, Throw unreachable;
     StripeApi.checkout_sessions_retrieve := λ _, Throw unreachable;
     StripeApi.invoices_retrieve := λ _, Throw unreachable;
     StripeApi.charges_list := λ _, Throw unreachable;
     StripeApi.paymentIntents_list := λ _, Throw unreachable;
     StripeApi.billingPortal_sessions_create := λ _, Throw unreachable |}.

(** The subscriber has a public resume and a private one; another user has
    a public resume. *)
Definition store_with_resumes : Store :=
  mkStore {[ "u1" := User.mk "ann@example.org" user 2 ]} ∅ ∅ [] [] [yearly_sub_1]
          [Resume.mk "u1" Resume.public false;
           Resume.mk "u1" Resume.private false;
           Resume.mk "u2" Resume.public false].

(** The checkout session by which [u1] subscribes to the monthly plan as
    [sub_7], and the first renewal invoice of that subscription. *)
Definition sess_2 : StripeSession.t :=
  {| StripeSession.id := "sess_2";
     StripeSession.metadata_userId := "u1";
     StripeSession.metadata := StripeSession.subscription monthly;
     StripeSession.amount_total := Some 999;
     StripeSession.currency := Some "usd";
     StripeSession.payment_intent := None;
     StripeSession.subscription_id := Some "sub_7";
     StripeSession.customer := Some "cus_1";
     StripeSession.payment_status := "paid" |}.

Definition renewal_of_sub_7 : StripeInvoice.t := invoice_for "in_7" "subscription_cycle" "sub_7".

(** A user registers, spends on a resume, buys 10 credits, subscribes to the
    monthly plan, and is renewed once; an invoice for a subscription nobody
    holds arrives in between. *)
Definition ledger_scenario : list (Request LedgerOp) :=
  [mkRequest offline 0 (InitialGrant "u1" "ann@example.org" user);
   mkRequest offline 0 (UsageDebit "u1" "resume_creation");
   mkRequest offline 0 (CheckoutCompleted sess_1);
   mkRequest offline 0 (InvoiceSucceeded renewal_invoice);
   mkRequest holds_sub_7 0 (CheckoutCompleted sess_2);
   mkRequest offline 0 (InvoiceSucceeded renewal_of_sub_7)].

(** An admin registers and runs a paid action. *)
Definition admin_scenario : list (Request LedgerOp) :=
  [mkRequest offline 0 (InitialGrant "root" "root@example.org" admin);
   mkRequest offline 0 (UsageDebit "root" "resume_creation")].

(* ------------------------------------------------------------------ *)
(** ** Scenarios around the billing core *)

(** The processor's view of customer [cus_1]: a card payment of 10 credits,
    seen as charge [ch_1] and as payment [pi_1], and the renewal invoice
    [in_2] paid by [pi_2]. *)
Definition charge_1 : StripeCharge.t :=
  {| StripeCharge.id := "ch_1";
     StripeCharge.status := "succeeded";
     StripeCharge.payment_intent := Some "pi_1";
     StripeCharge.description := None;
     StripeCharge.amount := 799;
     StripeCharge.currency := Some "usd";
     StripeCharge.invoice := None;
     StripeCharge.metadata_creditAmount := Some 10 |}.

Definition intent_1 : StripePaymentIntent.t :=
  {| StripePaymentIntent.id := "pi_1";
     StripePaymentIntent.status := "succeeded";
     StripePaymentIntent.description := None;
     StripePaymentIntent.amount := 799;
     StripePaymentIntent.currency := Some "usd";
     StripePaymentIntent.invoice := None;
     StripePaymentIntent.metadata_type := Some "credit_purchase";
     StripePaymentIntent.metadata_creditAmount := Some 10 |}.

Definition intent_2 : StripePaymentIntent.t :=
  {| StripePaymentIntent.id := "pi_2";
     StripePaymentIntent.status := "succeeded";
     StripePaymentIntent.description := None;
     StripePaymentIntent.amount := 9900;
     StripePaymentIntent.currency := Some "usd";
     StripePaymentIntent.invoice := Some "in_2";
     StripePaymentIntent.metadata_type := None;
     StripePaymentIntent.metadata_creditAmount := None |}.

Definition lists_payments : StripeApi.t :=
  {| StripeApi.customers_create := λ _ _, Throw unreachable;
     StripeApi.customers_list := λ _, Return ["cus_1"];
     StripeApi.subscriptions_list := λ _ _ _, Throw unreachable;
     StripeApi.subscriptions_retrieve := λ _, Return sub_1_active;
     StripeApi.subscriptions_update_cancel := λ _ _, Throw unreachable;
     StripeApi.subscriptions_update_price := λ _ _ _, Throw unreachable;
     StripeApi.checkout_sessions_create := λ _ _, Throw unreachable;
     StripeApi.checkout_sessions_retrieve := λ _, Throw unreachable;
     StripeApi.invoices_retrieve := λ _, Return renewal_invoice;
     StripeApi.charges_list := λ _, Return [charge_1];
     StripeApi.paymentIntents_list := λ _, Return [intent_1; intent_2];
     StripeApi.billingPortal_sessions_create := λ _, Throw unreachable |}.

(** A subscription-updated event that reports [sub_1] as unpaid. *)
Definition sub_1_unpaid : StripeSubscription.t :=
  {| StripeSubscription.id := "sub_1";
     StripeSubscription.status := "unpaid";
     StripeSubscription.cancel_at_period_end := false;
     StripeSubscription.current_period_start := Some 1;
     StripeSubscription.current_period_end := Some 5;
     StripeSubscription.items := [] |}.

(** A processor that accepts every change of a cancel flag. *)
Definition accepts_cancel : StripeApi.t :=
  {| StripeApi.customers_create := λ _ _, Throw unreachable;
     StripeApi.customers_list := λ _, Throw unreachable;
     StripeApi.subscriptions_list := λ _ _ _, Throw unreachable;
     StripeApi.subscriptions_retrieve := λ _, Throw unreachable;
     StripeApi.subscriptions_update_cancel := λ _ _, Return tt;
     StripeApi.subscriptions_update_price := λ _ _ _, Throw unreachable;
     StripeApi.checkout_sessions_create := λ _ _, Throw unreachable;
     StripeApi.checkout_sessions_retrieve := λ _, Throw unreachable;
     StripeApi.invoices_retrieve := λ _, Throw unreachable;
     StripeApi.charges_list := λ _, Throw unreachable;
     StripeApi.paymentIntents_list := λ _, Throw unreachable;
     StripeApi.billingPortal_sessions_create := λ _, Throw unreachable |}.

(** The same subscriber during a trial. *)
Definition trial_sub_1 : Subscription.t := Subscription.set_status "trialing" yearly_sub_1.

Definition store_on_trial : Store :=
  mkStore {[ "u1" := User.mk "ann@example.org" user 2 ]} ∅ ∅ [] [] [trial_sub_1] [].

(** The invoice of a renewal of [sub_1] whose payment failed. *)
Definition unpaid_invoice : StripeInvoice.t := invoice_for "in_4" "subscription_cycle" "sub_1".

(** The journal entry of the purchase [sess_1]. *)
Definition purchase_of_sess_1 : Transaction.t :=
  {| Transaction.userId := "u1";
     Transaction.stripeSessionId := Some "sess_1";
     Transaction.stripePaymentIntentId := Some "pi_1";
     Transaction.stripeSubscriptionId := None;
     Transaction.stripeInvoiceId := None;
     Transaction.type := "credit_purchase";
     Transaction.status := Transaction.completed;
     Transaction.amount := 799;
     Transaction.currency := "usd";
     Transaction.creditsAdded := 10;
     Transaction.plan := None;
     Transaction.description := "Purchased 10 resume credits";
     Transaction.stripeEventType := "checkout.session.completed";
     Transaction.metadata_chargeId := None;
     Transaction.metadata_paymentIntentId := None |}.

(** A user right after registration: 10 credits, and the entry that says so. *)
Definition store_welcomed : Store :=
  mkStore {[ "u1" := User.mk "ann@example.org" user 10 ]} ∅ ∅
          [CreditLog.mk "u1" CreditLog.initial None 10 (Some 10)
             "Welcome bonus — 10 free credits"]
          [] [] [].

(** An admin takes 4 credits from [u1]. *)
Definition subtract_4 : CreditUpdateBody.t :=
  CreditUpdateBody.mk (Some (ObjectIdText "u1")) (Some 4) (Some "subtract").

(** A subscription checkout, a late update, a failed renewal and a sync. *)
Definition entitlement_scenario : list (Request SubscriptionOp) :=
  [mkRequest holds_sub_7 0 (Webhook (checkout_session_completed sess_2));
   mkRequest offline 0 (Webhook (customer_subscription_updated sub_7));
   mkRequest offline 0 (Webhook (invoice_payment_failed renewal_of_sub_7));
   mkRequest holds_sub_7 0 (Reconcile (SyncSubscription "u1"))].

(** A request of [u1], with nothing attached yet. *)
Definition request_of_u1 : Req.t := Req.mk "u1" user None.

(** A body that asks for a public resume. *)
Definition go_public : ResumeValue.t := ResumeValue.mk (Some Resume.public).


(* ================================================================== *)
(** * Properties *)

(* ------------------------------------------------------------------ *)
(** ** The [Async] monad: running, purity, failing closed, frames *)

(** Unfolds the plumbing of [Async] so that a call reduces on a store. *)
Ltac async :=
  unfold void, bind, ret, throw, read, write, external, try_catch, final, outcome in *;
  simpl in *.

(** A [throw] met before any write leaves the store as it was. *)
Ltac thrown H := unfold throw in H; injection H as _ <-; reflexivity.

Lemma bind_Return {A B} (m : Async A) (k : A → Async B) st a st' :
  m st = (Return a, st') → bind m k st = k a st'.
Proof. intros H. unfold bind. by rewrite H. Qed.

Lemma bind_Throw {A B} (m : Async A) (k : A → Async B) st e st' :
  m st = (Throw e, st') → bind m k st = (Throw e, st').
Proof. intros H. unfold bind. by rewrite H. Qed.

Lemma bind_read {A B} (f : Store → A) (k : A → Async B) (st : Store) :
  bind (read f) k st = k (f st) st.
Proof. reflexivity. Qed.

Lemma bind_external {A B} (r : completion A) (k : A → Async B) (st : Store) :
  bind (external r) k st =
  match r with Return a => k a st | Throw e => (Throw e, st) end.
Proof. by destruct r. Qed.

Lemma final_bind {A B} (m : Async A) (k : A → Async B) (st : Store) :
  final (bind m k st) =
  match m st with
  | (Return a, st1) => final (k a st1)
  | (Throw _, st1) => st1
  end.
Proof. unfold bind, final. by destruct (m st) as [[?|?] ?]. Qed.

Lemma pure_ret {A} (a : A) : pure (ret a).
Proof. done. Qed.

Lemma pure_throw {A} (e : exn) : pure (@throw A e).
Proof. done. Qed.

Lemma pure_read {A} (f : Store → A) : pure (read f).
Proof. done. Qed.

Lemma pure_external {A} (r : completion A) : pure (external r).
Proof. done. Qed.

Lemma pure_bind {A B} (m : Async A) (k : A → Async B) :
  pure m → (∀ a, pure (k a)) → pure (bind m k).
Proof.
  intros Hm Hk st. unfold bind, final. specialize (Hm st). unfold final in Hm.
  destruct (m st) as [[a|e] st1]; simpl in *; subst; [apply Hk | done].
Qed.

Lemma pure_try_catch {A} (m h : Async A) : pure m → pure h → pure (try_catch m h).
Proof.
  intros Hm Hh st. unfold try_catch, final. specialize (Hm st). unfold final in Hm.
  destruct (m st) as [[a|e] st1]; simpl in *; subst; [done | apply Hh].
Qed.

Lemma pure_void {A} (m : Async A) : pure m → pure (void m).
Proof. intros Hm. apply pure_bind; [done | intros; apply pure_ret]. Qed.

(** One step of a purity proof: a leaf, else a combinator (up to unfolding). *)
Ltac pure_step :=
  first [ apply pure_ret | apply pure_throw | apply pure_read | apply pure_external
        | apply pure_void
        | apply pure_try_catch
        | apply pure_bind; [|intros ?] ].

Ltac purity := repeat (first [ pure_step | case_match ]).

Lemma pure_fail_closed {A} (m : Async A) (st : Store) : pure m → fail_closed m st.
Proof. intros Hm e st' H. specialize (Hm st). rewrite H in Hm. done. Qed.

Lemma fail_closed_bind_pure {A B} (m : Async A) (k : A → Async B) (st : Store) :
  pure m → (∀ a, fail_closed (k a) st) → fail_closed (bind m k) st.
Proof.
  intros Hm Hk e st' H. unfold bind in H. specialize (Hm st). unfold final in Hm.
  destruct (m st) as [[a|e'] st1]; simpl in *; subst.
  - by eapply Hk.
  - thrown H.
Qed.

Lemma fail_closed_void {A} (m : Async A) (st : Store) :
  fail_closed m st → fail_closed (void m) st.
Proof.
  intros Hm e st' H. unfold void, bind, ret in H.
  destruct (m st) as [[a|e'] st1] eqn:E; [discriminate|].
  inversion H; subst. by eapply Hm.
Qed.

Lemma keeps_pure {A} (m : Async A) : pure m → keeps_subscriptions m.
Proof. intros H st. by rewrite H. Qed.

Lemma keeps_bind {A B} (m : Async A) (k : A → Async B) :
  keeps_subscriptions m → (∀ a, keeps_subscriptions (k a)) →
  keeps_subscriptions (bind m k).
Proof.
  intros Hm Hk st. unfold bind, final. specialize (Hm st). unfold final in Hm.
  destruct (m st) as [[a|e] st1]; simpl in *; [|done].
  rewrite <- Hm. apply Hk.
Qed.

Lemma bind_keeps_after {A B} (m : Async A) (k : A → Async B) (st : Store) :
  (∀ a, keeps_subscriptions (k a)) →
  subscriptions (final (bind m k st)) = subscriptions (final (m st)).
Proof.
  intros Hk. rewrite final_bind. unfold final.
  destruct (m st) as [[a|e] st1]; [apply Hk | done].
Qed.

Lemma keeps_void {A} (m : Async A) (st : Store) :
  subscriptions (final (void m st)) = subscriptions (final (m st)).
Proof. unfold void. apply bind_keeps_after. intros a. by apply keeps_pure, pure_ret. Qed.

(* ------------------------------------------------------------------ *)
(** ** Model statics and small helpers *)

Lemma findOne_from_Some {A} (p : A → bool) (l : list A) (n i : nat) (x : A) :
  findOne_from p n l = Some (i, x) →
  (n ≤ i)%nat ∧ l !! (i - n)%nat = Some x ∧ p x = true ∧
  ∀ j y, (j < i - n)%nat → l !! j = Some y → p y = false.
Proof.
  revert n. induction l as [|a l IH]; intros n H; simpl in H; [discriminate|].
  destruct (p a) eqn:Hp.
  - inversion H; subst. replace (i - i)%nat with 0%nat by lia.
    repeat split; auto. intros j y Hj. lia.
  - apply IH in H as (Hle & Hl & Hx & Hmin).
    split; [lia|]. replace (i - n)%nat with (S (i - S n)) by lia.
    repeat split; auto.
    intros [|j] y Hj Hy; simpl in Hy.
    + congruence.
    + apply (Hmin j); [lia | done].
Qed.

Lemma findOne_Some {A} (p : A → bool) (l : list A) (i : nat) (x : A) :
  findOne p l = Some (i, x) →
  l !! i = Some x ∧ p x = true ∧ ∀ j y, (j < i)%nat → l !! j = Some y → p y = false.
Proof.
  intros H. apply findOne_from_Some in H as (_ & Hl & Hp & Hmin).
  rewrite Nat.sub_0_r in *. auto.
Qed.

Lemma findOne_from_None {A} (p : A → bool) (l : list A) (n : nat) :
  findOne_from p n l = None ↔ ∀ x, x ∈ l → p x = false.
Proof.
  revert n. induction l as [|a l IH]; intros n; simpl.
  - split; [|done]. intros _ x Hx. inversion Hx.
  - destruct (p a) eqn:Hp.
    + split; [done|]. intros H. rewrite H in Hp; [done | left].
    + rewrite IH. split.
      * intros H x Hx. inversion Hx; subst; auto.
      * intros H x Hx. apply H. by right.
Qed.

Lemma findOne_None {A} (p : A → bool) (l : list A) :
  findOne p l = None ↔ ∀ x, x ∈ l → p x = false.
Proof. apply findOne_from_None. Qed.

Lemma findOne_from_None_filter {A} (p : A → bool) (l : list A) (n : nat) :
  findOne_from p n l = None ↔ List.filter p l = [].
Proof.
  revert n. induction l as [|a l IH]; intros n; simpl; [done|].
  destruct (p a); [split; discriminate | apply IH].
Qed.

Lemma str_eqb_eq (a b : string) : str_eqb a b = true ↔ a = b.
Proof. unfold str_eqb. apply bool_decide_eq_true. Qed.

Lemma opt_eqb_eq (a b : option string) : opt_eqb a b = true ↔ a = b.
Proof. unfold opt_eqb. apply bool_decide_eq_true. Qed.

Lemma str_eqb_refl (a : string) : str_eqb a a = true.
Proof. by apply str_eqb_eq. Qed.

Lemma opt_eqb_refl (a : option string) : opt_eqb a a = true.
Proof. by apply opt_eqb_eq. Qed.

Lemma nonempty_string (c : ascii) (p s : string) : str_eqb (String c p +:+ s) "" = false.
Proof. reflexivity. Qed.

Lemma default_nonneg (st : Store) (key : string) (d : Z) :
  settings_nonneg st → 0 ≤ d → 0 ≤ default d (settings st !! key).
Proof.
  intros Hs Hd. destruct (settings st !! key) eqn:E; simpl; [by eapply Hs | done].
Qed.

Lemma no_settings_nonneg (st : Store) : settings st = ∅ → settings_nonneg st.
Proof. intros H key v. rewrite H, lookup_empty. discriminate. Qed.

Lemma elem_of_list_insert_inv {A} (l : list A) (i : nat) (x y : A) :
  y ∈ <[i := x]> l → y = x ∨ y ∈ l.
Proof.
  intros H. apply list_elem_of_lookup_1 in H as [j Hj].
  apply list_lookup_insert_Some in Hj as [(-> & -> & _) | (_ & Hj)]; [by left|].
  right. by eapply list_elem_of_lookup_2.
Qed.

Lemma inc_frame (userId : string) (delta : Z) (st : Store) :
  let st1 := final (User_findByIdAndUpdate_inc userId delta st) in
  settings st1 = settings st ∧ textSettings st1 = textSettings st ∧
  creditLogs st1 = creditLogs st ∧ transactions st1 = transactions st ∧
  subscriptions st1 = subscriptions st ∧ resumes st1 = resumes st.
Proof.
  unfold User_findByIdAndUpdate_inc, final.
  destruct (users st !! userId); simpl; auto 10.
Qed.

Lemma inc_balance (userId other : string) (delta : Z) (st : Store) :
  balance_of other (final (User_findByIdAndUpdate_inc userId delta st)) =
  if decide (other = userId) then (λ b, b + delta) <$> balance_of other st
  else balance_of other st.
Proof.
  unfold balance_of, User_findByIdAndUpdate_inc, final.
  destruct (users st !! userId) eqn:Hu; simpl.
  - case_decide; subst.
    + by rewrite lookup_insert_eq, Hu.
    + by rewrite lookup_insert_ne.
  - case_decide; subst; [by rewrite Hu | done].
Qed.

Lemma registered_after_inc (st : Store) (userId other : string) (u : User.t) (delta : Z) :
  users st !! userId = Some u →
  is_Some (users st !! other) →
  is_Some (<[userId := User.inc delta u]> (users st) !! other).
Proof.
  intros Hu Ho. destruct (decide (userId = other)) as [<-|Hne].
  - rewrite lookup_insert_eq. eauto.
  - by rewrite lookup_insert_ne.
Qed.

Lemma create_valid (t : Transaction.t) (st : Store) :
  Transaction.type t ∈ Transaction.type_enum →
  Transaction_create t st = (Return tt, set_transactions (λ l, l ++ [t]) st).
Proof. intros H. unfold Transaction_create. by rewrite bool_decide_eq_true_2. Qed.

Lemma save_valid (i : nat) (r : Subscription.t) (st : Store) :
  Subscription.status r ∈ Subscription.status_enum →
  Subscription_save i r st = (Return tt, set_subscriptions (<[i := r]>) st).
Proof. intros H. unfold Subscription_save. by rewrite bool_decide_eq_true_2. Qed.

Lemma upsert_cases (doc : Subscription.t) (st : Store) :
  Subscription_upsert doc st
    = (Throw (DuplicateKeyError "Subscription" "stripeSubscriptionId"), st) ∨
  ∃ subs', Subscription_upsert doc st = (Return doc, set_subscriptions (λ _, subs') st) ∧
           ∀ r, r ∈ subs' → r = doc ∨ r ∈ subscriptions st.
Proof.
  unfold Subscription_upsert.
  destruct (findOne _ (subscriptions st)) as [[i r0]|].
  - right. exists (<[i := doc]> (subscriptions st)). split; [done|].
    intros r. apply elem_of_list_insert_inv.
  - destruct (_ && _); [by left|].
    right. exists (subscriptions st ++ [doc]). split; [done|].
    intros r. rewrite elem_of_app, list_elem_of_singleton. tauto.
Qed.

(** What an upsert does to the record at one position. *)
Lemma upsert_at (doc : Subscription.t) (st : Store) (i : nat) (r r' : Subscription.t) :
  subscriptions st !! i = Some r →
  subscriptions (final (Subscription_upsert doc st)) !! i = Some r' →
  r' = r ∨
  (r' = doc ∧ Subscription.userId r = Subscription.userId doc ∧
   Subscription.stripeSubscriptionId r = Subscription.stripeSubscriptionId doc).
Proof.
  intros Hr. unfold Subscription_upsert, final.
  destruct (findOne _ (subscriptions st)) as [[j r0]|] eqn:Hf.
  - cbn [snd subscriptions set_subscriptions].
    apply findOne_Some in Hf as (Hj & Hp & _).
    destruct (decide (j = i)) as [->|Hne].
    + rewrite list_lookup_insert_eq by (by eapply lookup_lt_Some).
      intros [= <-]. right. simplify_eq.
      apply andb_true_iff in Hp as [Hu Hs].
      apply str_eqb_eq in Hu. apply opt_eqb_eq in Hs. done.
    + rewrite list_lookup_insert_ne by done. intros ?. left. congruence.
  - destruct (_ && _); cbn [snd subscriptions set_subscriptions].
    + intros ?. left. congruence.
    + rewrite lookup_app_l by (by eapply lookup_lt_Some). intros ?. left. congruence.
Qed.

(** What a save does to the record at one position. *)
Lemma save_at (j : nat) (x : Subscription.t) (st : Store) (i : nat)
    (r r' : Subscription.t) :
  subscriptions st !! i = Some r →
  subscriptions (final (Subscription_save j x st)) !! i = Some r' →
  r' = r ∨ (j = i ∧ r' = x).
Proof.
  intros Hr. unfold Subscription_save, final.
  destruct (bool_decide _); cbn [snd subscriptions set_subscriptions write throw].
  - destruct (decide (j = i)) as [->|Hne].
    + rewrite list_lookup_insert_eq by (by eapply lookup_lt_Some).
      intros [= <-]. by right.
    + rewrite list_lookup_insert_ne by done. intros ?. left. congruence.
  - intros ?. left. congruence.
Qed.

Lemma by_stripe_id_found (sid : option string) (st : Store) (j : nat) (x : Subscription.t) :
  findOne (by_stripe_id sid) (subscriptions st) = Some (j, x) →
  subscriptions st !! j = Some x ∧ Subscription.stripeSubscriptionId x = sid.
Proof.
  intros H. apply findOne_Some in H as (Hl & Hp & _). split; [done|].
  by apply opt_eqb_eq.
Qed.

Lemma active_filter_spec (now : Z) (userId : string) (r : Subscription.t) :
  str_eqb (Subscription.userId r) userId &&
  bool_decide (Subscription.status r ∈ ["active"; "trialing"]) &&
  match Subscription.currentPeriodEnd r with
  | Some e => now <? e
  | None => false
  end = true ↔ entitled now userId r.
Proof.
  unfold entitled. rewrite !andb_true_iff, str_eqb_eq, bool_decide_eq_true.
  rewrite !elem_of_cons, elem_of_nil.
  destruct (Subscription.currentPeriodEnd r) as [e|].
  - rewrite Z.ltb_lt. split.
    + intros [[? [?|[?|[]]]] ?]; eauto 6.
    + intros (? & [?|?] & e' & [= <-] & ?); auto.
  - split; [intros [_ ?]; discriminate | intros (_ & _ & e & ? & _); discriminate].
Qed.

Lemma entitled_valid (now : Z) (userId : string) (r : Subscription.t) :
  entitled now userId r → Subscription.status r ∈ Subscription.status_enum.
Proof.
  intros (_ & [H|H] & _); rewrite H; unfold Subscription.status_enum; set_solver.
Qed.

Lemma getActive_run (now : Z) (userId : string) (st : Store) :
  ∃ found, Subscription_getActiveForUser now userId st = (Return found, st).
Proof. eexists. reflexivity. Qed.

Lemma getActive_Some (now : Z) (userId : string) (st : Store) (i : nat) (r : Subscription.t) :
  Subscription_getActiveForUser now userId st = (Return (Some (i, r)), st) →
  subscriptions st !! i = Some r ∧ entitled now userId r.
Proof.
  unfold Subscription_getActiveForUser, Subscription_findOne, read.
  intros [= H]. apply findOne_Some in H as (Hl & Hp & _).
  split; [done|]. by apply active_filter_spec.
Qed.

Lemma pending_valid (userId : string) (st : Store) (i : nat) (r : Subscription.t) :
  findOne (pending_cancellation userId) (subscriptions st) = Some (i, r) →
  subscriptions st !! i = Some r ∧ Subscription.status r = "active".
Proof.
  intros H. apply findOne_Some in H as (Hl & Hp & _). split; [done|].
  unfold pending_cancellation in Hp. rewrite !andb_true_iff in Hp.
  destruct Hp as [[_ Hs] _]. by apply str_eqb_eq.
Qed.

Lemma creditLimitForPlan_run (plan : Plan) (st : Store) :
  ∃ allotment, creditLimitForPlan plan st = (Return allotment, st) ∧
    (settings_nonneg st → 0 ≤ allotment).
Proof.
  destruct plan; unfold creditLimitForPlan, AppSettings_get, read; eexists; (split; [reflexivity|]);
    intros Hs; match goal with |- context [settings st !! ?k] => destruct (settings st !! k) eqn:E end; simpl; try lia; by eapply Hs.
Qed.

Lemma pure_creditLimitForPlan (plan : Plan) : pure (creditLimitForPlan plan).
Proof. destruct plan; apply pure_read. Qed.

Lemma keeps_inc (userId : string) (delta : Z) :
  keeps_subscriptions (User_findByIdAndUpdate_inc userId delta).
Proof. intros st. apply inc_frame. Qed.

Lemma keeps_CreditLog_create (e : CreditLog.t) : keeps_subscriptions (CreditLog_create e).
Proof.
  intros st. unfold CreditLog_create.
  destruct (_ <? 0); [done|]. by destruct (str_eqb _ _).
Qed.

Lemma keeps_Transaction_create (t : Transaction.t) :
  keeps_subscriptions (Transaction_create t).
Proof. intros st. unfold Transaction_create. by destruct (bool_decide _). Qed.

Lemma keeps_for_of {A} (body : Z → A → Async Z) (xs : list A) :
  (∀ n x, keeps_subscriptions (body n x)) → ∀ n, keeps_subscriptions (for_of body xs n).
Proof.
  intros Hbody. induction xs as [|x xs IH]; intros n; simpl.
  - by apply keeps_pure, pure_ret.
  - apply keeps_bind; [apply Hbody | intros; apply IH].
Qed.

Ltac keeping :=
  repeat first
    [ apply keeps_inc | apply keeps_CreditLog_create | apply keeps_Transaction_create
    | apply keeps_pure; solve [purity]
    | apply keeps_bind; [|intros ?]
    | case_match ].

Lemma pure_customer (stripe : StripeApi.t) (userId : string) (u : User.t) :
  pure (getOrCreateCustomer stripe userId u).
Proof. unfold getOrCreateCustomer, Subscription_findOne. purity. Qed.

Lemma pure_resolveCustomer (stripe : StripeApi.t) (userId : string) (u : User.t) :
  pure (resolveCustomer stripe userId u).
Proof. unfold resolveCustomer, Subscription_findOne. purity. Qed.

Lemma pure_classify_invoice (stripe : StripeApi.t) (invoiceId : string) (amount : Z)
    (currency : string) : pure (classify_invoice stripe invoiceId amount currency).
Proof. unfold classify_invoice. purity. Qed.

Lemma pure_detect_plan (stripe : StripeApi.t) (inv : option StripeInvoice.t) :
  pure (detect_plan stripe inv).
Proof. unfold detect_plan. purity. Qed.

(** The helpers on concrete values. *)
Example toFixed2_values :
  toFixed2 1499 = "14.99" ∧ toFixed2 5 = "0.05" ∧ toFixed2 9900 = "99.00" ∧
  toFixed2 (-250) = "-2.50".
Proof. by vm_compute. Qed.

Example toUpperCase_value : toUpperCase "usd" = "USD".
Proof. reflexivity. Qed.

Example extractPeriodDates_values :
  extractPeriodDates 7 sub_1_monthly = (2000, 30000) ∧
  extractPeriodDates 7 sub_7 = (1000, 9000) ∧
  extractPeriodDates 7
    (StripeSubscription.mk "sub_0" "active" false None (Some 0) []) = (7, 7).
Proof. by vm_compute. Qed.

Example purchase_is_logged_with_its_price :
  CreditLog.description <$>
    creditLogs (final (handleCheckoutCompleted offline 0 sess_1 store_2_credits))
  = ["Purchased 10 credits ($7.99 USD)"].
Proof. by vm_compute. Qed.

(* ------------------------------------------------------------------ *)
(** ** Credit service *)

Lemma checkCredits_pure (userId action : string) (st : Store) :
  final (checkCredits userId action st) = st.
Proof.
  unfold checkCredits, User_findById, AppSettings_get_cast, AppSettings_get. async.
  destruct (users st !! userId) as [u|]; [|done].
  destruct (User.role u); [done|].
  destruct (property costMap action) as [settingKey|]; [|done].
  destruct (truthy_value settingKey); [|done].
  by destruct (castString settingKey).
Qed.

(** The six setting keys of the cost map and the six labels are not empty. *)
Lemma own_setting_key (action settingKey : string) :
  costMap !! action = Some settingKey → str_eqb settingKey "" = false.
Proof.
  intros H. unfold costMap in H. apply elem_of_list_to_map_2 in H.
  repeat (apply elem_of_cons in H as [H|H]; [by inversion H|]).
  inversion H.
Qed.

Lemma own_label (action label : string) :
  actionLabels !! action = Some label → str_eqb label "" = false.
Proof.
  intros H. unfold actionLabels in H. apply elem_of_list_to_map_2 in H.
  repeat (apply elem_of_cons in H as [H|H]; [by inversion H|]).
  inversion H.
Qed.

(** The label of a key that is a label's own key, or that [Object.prototype]
    does not know, is a string: the label, or the key itself. *)
Lemma label_of_own (action label : string) :
  actionLabels !! action = Some label → label_of action = JsString label.
Proof.
  intros H. unfold label_of, property. rewrite H. cbn [truthy_value].
  by rewrite (own_label _ _ H).
Qed.

Lemma label_of_string (action : string) :
  Object_prototype action = None →
  label_of action = JsString (default action (actionLabels !! action)).
Proof.
  intros Hp. destruct (actionLabels !! action) as [label|] eqn:Hl.
  - by rewrite (label_of_own _ _ Hl).
  - unfold label_of, property. by rewrite Hl, Hp.
Qed.

(** What the check answers to a user who is not an admin: it throws, or it
    compares the balance with the setting stored under the key that the cost
    map gave, cast to a string. *)
Lemma checkCredits_cases (userId action : string) (u : User.t) (st : Store) :
  users st !! userId = Some u → User.role u = user →
  (∃ e, checkCredits userId action st = (Throw e, st)) ∨
  (∃ settingKey key,
     property costMap action = Some settingKey ∧ castString settingKey = Some key ∧
     checkCredits userId action st =
       (Return (CreditCheck.mk (default 1 (settings st !! key) <=? User.credits u)
                  (default 1 (settings st !! key)) (Fin (User.credits u)) false), st)).
Proof.
  intros Hu Hr. unfold checkCredits, User_findById, AppSettings_get_cast, AppSettings_get.
  async. rewrite Hu, Hr.
  destruct (property costMap action) as [settingKey|]; [|left; by eexists].
  destruct (truthy_value settingKey); cbn [negb]; [|left; by eexists].
  destruct (castString settingKey) as [key|] eqn:Hk; [|left; by eexists].
  right. by exists settingKey, key.
Qed.

Lemma checkCredits_user (userId action settingKey : string) (u : User.t) (st : Store) :
  users st !! userId = Some u → User.role u = user →
  costMap !! action = Some settingKey →
  checkCredits userId action st =
    (Return (CreditCheck.mk (default 1 (settings st !! settingKey) <=? User.credits u)
               (default 1 (settings st !! settingKey)) (Fin (User.credits u)) false), st).
Proof.
  intros Hu Hr Hc.
  unfold checkCredits, User_findById. rewrite bind_read, Hu, Hr.
  unfold property. rewrite Hc. cbn [truthy_value].
  rewrite (own_setting_key _ _ Hc). cbn [negb].
  unfold AppSettings_get_cast. cbn [castString].
  unfold AppSettings_get. by rewrite bind_read.
Qed.

Lemma checkCredits_admin (userId action : string) (u : User.t) (st : Store) :
  users st !! userId = Some u → User.role u = admin →
  checkCredits userId action st = (Return (CreditCheck.mk true 0 Infinity true), st).
Proof.
  intros Hu Hr. unfold checkCredits, User_findById. async. by rewrite Hu, Hr.
Qed.

(** C5. A non-admin user whose balance is below the cost of a configured
    action is refused: the debit returns the failure descriptor with the
    required and the available amounts, and leaves the store (so the balance
    and the ledger) exactly as it found it. *)
Theorem insufficient_credits_no_mutation
    (st : Store) (userId action settingKey : string) (u : User.t) :
  users st !! userId = Some u →
  User.role u = user →
  costMap !! action = Some settingKey →
  User.credits u < default 1 (settings st !! settingKey) →
  let required := default 1 (settings st !! settingKey) in
  let available := User.credits u in
  deductCredits userId action st =
    (Return {| Deduction.success := false;
               Deduction.creditsDeducted := 0;
               Deduction.remaining := Fin available;
               Deduction.required := Some required;
               Deduction.error :=
                 Some ("Insufficient credits. Required: " +:+ string_of_Z required
                         +:+ ", Available: " +:+ string_of_Z available);
               Deduction.unlimited := false |},
     st).
Proof.
  intros Hu Hr Hc Hlt required available.
  unfold deductCredits, bind.
  rewrite (checkCredits_user _ _ _ _ _ Hu Hr Hc).
  unfold deduct_after_check. simpl.
  replace (default 1 (settings st !! settingKey) <=? User.credits u) with false
    by (symmetry; apply Z.leb_gt; exact Hlt).
  reflexivity.
Qed.

Lemma insufficient_credits_scenario :
  deductCredits "u1" "resume_creation" store_2_credits =
    (Return (Deduction.mk false 0 (Fin 2) (Some 3)
               (Some "Insufficient credits. Required: 3, Available: 2") false),
     store_2_credits).
Proof.
  exact (insufficient_credits_no_mutation store_2_credits "u1" "resume_creation"
           "credits_per_resume" (User.mk "ann@example.org" user 2)
           eq_refl eq_refl eq_refl eq_refl).
Defined.

(** C10 as the specification states it fails twice. [constructor] is no key
    of the cost map, yet the lookup finds the property that every object
    inherits: the check answers with the default cost and the debit charges
    one credit. And the admin debit for the empty key appends nothing: the
    ledger requires a description, and the entry is refused. *)
Lemma inherited_key_is_charged_and_empty_key_refused :
  costMap !! "constructor" = None ∧
  checkCredits "u1" "constructor" store_with_admin =
    (Return (CreditCheck.mk true 1 (Fin 2) false), store_with_admin) ∧
  outcome (deductCredits "u1" "constructor" store_with_admin) =
    Return (Deduction.mk true 1 (Fin 1) None None false) ∧
  creditLogs (final (deductCredits "u1" "constructor" store_with_admin)) =
    [CreditLog.mk "u1" CreditLog.usage (Some "constructor") 1 (Some 1)
       "function Object() { [native code] }"] ∧
  deductCredits "root" "" store_with_admin =
    (Throw (ValidationError "CreditLog" "description"), store_with_admin).
Proof. by vm_compute. Qed.

(** C10 (amended). An action key for which the lookup in the cost map finds
    nothing, neither a configured key nor a property inherited from
    [Object.prototype], makes [checkCredits], and with it the debit, throw
    [Unknown credit action] for a non-admin user, before anything is written.
    For an admin the check answers first, for any key at all, with
    [required = 0]. An admin debit appends a usage entry of magnitude 0 with
    no balance snapshot, described by the label of the action or else by the
    key itself, for every key that is not empty and that names no inherited
    property; for the empty key the ledger, which requires a description,
    refuses the entry and nothing is written. *)
Theorem unknown_action_and_admin_shortcut
    (st : Store) (userId action : string) (u : User.t) :
  users st !! userId = Some u →
  match User.role u with
  | user =>
    property costMap action = None →
    checkCredits userId action st =
      (Throw (Error ("Unknown credit action: " +:+ action)), st) ∧
    deductCredits userId action st =
      (Throw (Error ("Unknown credit action: " +:+ action)), st)
  | admin =>
    checkCredits userId action st = (Return (CreditCheck.mk true 0 Infinity true), st) ∧
    (action = "" →
     deductCredits userId action st =
       (Throw (ValidationError "CreditLog" "description"), st)) ∧
    (action ≠ "" → Object_prototype action = None →
     deductCredits userId action st =
       (Return (Deduction.mk true 0 Infinity None None true),
        set_creditLogs
          (λ l, l ++ [CreditLog.mk userId CreditLog.usage (Some action) 0 None
                        (default action (actionLabels !! action))]) st))
  end.
Proof.
  intros Hu. destruct (User.role u) eqn:Hr.
  - split; [by apply (checkCredits_admin _ _ u)|].
    assert (Hdebit : deductCredits userId action st =
                     (do CreditLog_create_described
                           (CreditLog.mk userId CreditLog.usage (Some action) 0 None)
                           (label_of action) ;;
                      ret (Deduction.mk true 0 Infinity None None true)) st).
    { unfold deductCredits. by rewrite (bind_Return _ _ _ _ _ (checkCredits_admin _ _ u _ Hu Hr)). }
    rewrite Hdebit. unfold CreditLog_create_described, CreditLog_create, void, bind.
    split.
    + intros ->. by vm_compute.
    + intros Hne Hp.
      rewrite (label_of_string _ Hp). cbn [castString CreditLog.credits CreditLog.description].
      assert (Hlabel : str_eqb (default action (actionLabels !! action)) "" = false).
      { apply not_true_is_false. rewrite str_eqb_eq.
        destruct (actionLabels !! action) as [label|] eqn:Hl; simpl; [|done].
        intros ->. by pose proof (own_label _ _ Hl). }
      by rewrite Hlabel.
  - intros Hc.
    assert (Hcheck : checkCredits userId action st =
                     (Throw (Error ("Unknown credit action: " +:+ action)), st)).
    { unfold checkCredits, User_findById. rewrite bind_read. by rewrite Hu, Hr, Hc. }
    split; [done|]. unfold deductCredits, bind. by rewrite Hcheck.
Qed.

Lemma admin_shortcut_scenario :
  checkCredits "root" "no_such_action" store_with_admin =
    (Return (CreditCheck.mk true 0 Infinity true), store_with_admin) ∧
  creditLogs (final (deductCredits "root" "no_such_action" store_with_admin)) =
    [CreditLog.mk "root" CreditLog.usage (Some "no_such_action") 0 None "no_such_action"] ∧
  deductCredits "u1" "no_such_action" store_with_admin =
    (Throw (Error "Unknown credit action: no_such_action"), store_with_admin).
Proof.
  pose proof (unknown_action_and_admin_shortcut store_with_admin "root" "no_such_action"
                (User.mk "root@example.org" admin 10) eq_refl) as (Hcheck & _ & Hdebit).
  pose proof (unknown_action_and_admin_shortcut store_with_admin "u1" "no_such_action"
                (User.mk "ann@example.org" user 2) eq_refl eq_refl) as [_ Hthrow].
  split; [exact Hcheck|]. split; [|exact Hthrow].
  rewrite Hdebit; [reflexivity | discriminate | reflexivity].
Defined.

(* ------------------------------------------------------------------ *)
(** ** Entitlement store *)

(** C9. [isUserSubscribed], and [getActiveForUser] behind it, answer without
    touching the store, and the answer is [true] exactly when some record of
    the user has status active or trialing and a period end strictly later
    than the time of the call; the record handed back is such a record. In
    particular the answer is [false] once every period end of the user is at
    or before the time of the call, whatever the stored status says. *)
Theorem isUserSubscribed_iff_entitled (now : Z) (userId : string) (st : Store) :
  ∃ (b : bool) (found : option (nat * Subscription.t)),
    Subscription_isUserSubscribed now userId st = (Return b, st) ∧
    Subscription_getActiveForUser now userId st = (Return found, st) ∧
    (b = true ↔ is_Some found) ∧
    (b = true ↔ ∃ r, r ∈ subscriptions st ∧ entitled now userId r) ∧
    (∀ i r, found = Some (i, r) → subscriptions st !! i = Some r ∧ entitled now userId r) ∧
    ((∀ r, r ∈ subscriptions st → Subscription.userId r = userId →
        ∃ e, Subscription.currentPeriodEnd r = Some e ∧ e ≤ now) → b = false).
Proof.
  unfold Subscription_isUserSubscribed, Subscription_getActiveForUser,
    Subscription_findOne. async.
  set (p := λ r : Subscription.t, _).
  assert (Hp : ∀ r, p r = true ↔ entitled now userId r)
    by (intros r; apply active_filter_spec).
  exists (bool_decide (is_Some (findOne p (subscriptions st)))), (findOne p (subscriptions st)).
  assert (Hiff : bool_decide (is_Some (findOne p (subscriptions st))) = true ↔
                 ∃ r, r ∈ subscriptions st ∧ entitled now userId r).
  { rewrite bool_decide_eq_true. split.
    - intros [[i r] Hf]. apply findOne_Some in Hf as (Hl & Hr & _).
      exists r. split; [by eapply list_elem_of_lookup_2 | by apply Hp].
    - intros (r & Hin & Hr). destruct (findOne p (subscriptions st)) eqn:Hf; [eauto|].
      rewrite findOne_None in Hf. apply Hf in Hin. apply Hp in Hr. congruence. }
  split; [done|]. split; [done|]. split; [apply bool_decide_eq_true|].
  split; [exact Hiff|]. split.
  - intros i r Hf. apply findOne_Some in Hf as (Hl & Hr & _).
    split; [done | by apply Hp].
  - intros Hpast. apply not_true_is_false. rewrite Hiff.
    intros (r & Hin & Hu & _ & e & He & Hlt).
    destruct (Hpast r Hin Hu) as (e' & He' & Hle). simplify_eq. lia.
Qed.

(* ------------------------------------------------------------------ *)
(** ** Checkout completed, delivered more than once *)

(** C3. At the failing input: the webhook handler has no check for a session
    it has already applied, so the same checkout-completed event for
    [sess_1] (10 credits), delivered twice, is applied twice: the balance goes
    from 2 to 22 and the journal holds two completed entries for the session.
    Only the manual verification looks for a completed entry first: after one
    delivery it answers [alreadyProcessed] and writes nothing, but a webhook
    delivery that follows a verification credits again. *)
Theorem checkout_redelivery_credits_twice :
  let deliver := handleWebhookEvent offline 0 (checkout_session_completed sess_1) in
  let verify := verifyAndProcessSession knows_sess_1 0 "sess_1" "u1" in
  let once := final (deliver store_2_credits) in
  let twice := final (deliver once) in
  let verified := final (verify store_2_credits) in
  balance_of "u1" store_2_credits = Some 2 ∧
  balance_of "u1" once = Some 12 ∧
  outcome (deliver once) = Return tt ∧
  balance_of "u1" twice = Some 22 ∧
  length (completed_for_session "sess_1" twice) = 2%nat ∧
  (∃ tx, verify once = (Return (Verification.mk true (Some tx)), once)) ∧
  balance_of "u1" verified = Some 12 ∧
  balance_of "u1" (final (deliver verified)) = Some 22.
Proof.
  cbv zeta. repeat split; try (vm_compute; reflexivity).
  eexists. vm_compute. reflexivity.
Qed.

(* ------------------------------------------------------------------ *)
(** ** Invoice payment succeeded *)

Lemma journal_rejects_switch (t : Transaction.t) (st : Store) :
  Transaction.type t = "subscription_switch" →
  Transaction_create t st = (Throw (ValidationError "Transaction" "type"), st).
Proof.
  intros Ht. unfold Transaction_create. rewrite Ht.
  rewrite bool_decide_eq_false_2; [done|].
  unfold Transaction.type_enum. rewrite !elem_of_cons, elem_of_nil.
  intros [?|[?|[?|[?|[?|[]]]]]]; discriminate.
Qed.

(** C6. At the failing input: the [type] enum of the journal has no
    [subscription_switch], so the entry the handler builds for a paid
    plan-switch invoice is refused by [Transaction.create]. By then the yearly
    allotment (700) is already on the balance and in the ledger; the event
    fails, nothing is recorded under the invoice id, and the next delivery of
    the same event grants the allotment again. *)
Theorem plan_switch_invoice_is_not_journalled :
  let deliver := handleWebhookEvent offline 0 (invoice_payment_succeeded switch_invoice) in
  let once := final (deliver store_subscribed) in
  let twice := final (deliver once) in
  ("subscription_switch" ∉ Transaction.type_enum) ∧
  outcome (deliver store_subscribed) = Throw (ValidationError "Transaction" "type") ∧
  transactions once = [] ∧
  balance_of "u1" store_subscribed = Some 2 ∧
  balance_of "u1" once = Some 702 ∧
  length (creditLogs once) = 1%nat ∧
  outcome (deliver once) = Throw (ValidationError "Transaction" "type") ∧
  balance_of "u1" twice = Some 1402 ∧
  transactions twice = [].
Proof.
  cbv zeta. split.
  - unfold Transaction.type_enum. rewrite !elem_of_cons, elem_of_nil.
    intros [?|[?|[?|[?|[?|[]]]]]]; discriminate.
  - repeat split; vm_compute; reflexivity.
Qed.

Lemma invoice_description_nonempty (isSwitch : bool) (s : string) :
  str_eqb (invoice_label isSwitch +:+ s) "" = false.
Proof. by destruct isSwitch. Qed.

Lemma invoice_skipped_noop (invoice : StripeInvoice.t) (st : Store) :
  invoice_skipped invoice st →
  handleInvoicePaymentSucceeded invoice st = (Return tt, st).
Proof.
  intros Hskip. unfold handleInvoicePaymentSucceeded.
  destruct (negb (truthy (StripeInvoice.subscription invoice))
            || str_eqb (StripeInvoice.billing_reason invoice) "subscription_create") eqn:G1;
    [done|].
  apply orb_false_iff in G1 as [G1a G1b]. apply negb_false_iff in G1a.
  destruct (default 0 (StripeInvoice.amount_paid invoice) <=? 0) eqn:G2; [done|].
  apply Z.leb_gt in G2.
  unfold Subscription_findOne, Transaction_findOne, bind, read.
  destruct (findOne (by_stripe_id (StripeInvoice.subscription invoice)) (subscriptions st))
    as [[i subscription]|] eqn:Hf; [|done].
  destruct (findOne _ (transactions st)) as [[j tx]|] eqn:Ht; [done|].
  exfalso. destruct Hskip as [H|[H|[H|[H|H]]]].
  - congruence.
  - apply str_eqb_eq in H. congruence.
  - lia.
  - apply findOne_Some in Hf as (Hl & Hp & _).
    apply (H subscription); [by eapply list_elem_of_lookup_2 | by apply opt_eqb_eq].
  - apply H. unfold entries_for_invoice.
    by apply (findOne_from_None_filter _ _ 0%nat).
Qed.

Lemma invoice_granted (invoice : StripeInvoice.t) (st : Store) :
  settings_nonneg st →
  ¬ invoice_skipped invoice st →
  StripeInvoice.billing_reason invoice ≠ "subscription_update" →
  ∃ i subscription allotment,
    findOne (by_stripe_id (StripeInvoice.subscription invoice)) (subscriptions st)
      = Some (i, subscription) ∧
    creditLimitForPlan (Subscription.plan subscription) st = (Return allotment, st) ∧
    handleInvoicePaymentSucceeded invoice st
      = (Return tt, granted invoice subscription allotment st).
Proof.
  intros Hset Hn Hsw. unfold handleInvoicePaymentSucceeded.
  destruct (negb (truthy (StripeInvoice.subscription invoice))
            || str_eqb (StripeInvoice.billing_reason invoice) "subscription_create") eqn:G1.
  { exfalso. apply Hn. apply orb_true_iff in G1 as [G1|G1].
    - left. by apply negb_true_iff.
    - right; left. by apply str_eqb_eq. }
  destruct (default 0 (StripeInvoice.amount_paid invoice) <=? 0) eqn:G2.
  { exfalso. apply Hn. right; right; left. by apply Z.leb_le. }
  unfold Subscription_findOne, Transaction_findOne.
  unfold bind at 1. unfold read at 1.
  destruct (findOne (by_stripe_id (StripeInvoice.subscription invoice)) (subscriptions st))
    as [[i subscription]|] eqn:Hf.
  2: { exfalso. apply Hn. right; right; right; left.
       intros r Hin Heq. rewrite findOne_None in Hf. apply Hf in Hin.
       unfold by_stripe_id in Hin. rewrite <- Heq, opt_eqb_refl in Hin. done. }
  unfold bind at 1. unfold read at 1.
  destruct (findOne _ (transactions st)) as [[j tx]|] eqn:Ht.
  { exfalso. apply Hn. right; right; right; right.
    unfold entries_for_invoice. intros Hnil.
    apply (findOne_from_None_filter _ _ 0%nat) in Hnil. unfold findOne in Ht. congruence. }
  destruct (creditLimitForPlan_run (Subscription.plan subscription) st)
    as (allotment & Hrun & Hpos). specialize (Hpos Hset).
  exists i, subscription, allotment. split; [done|]. split; [done|].
  cbn [fmap option_fmap option_map snd].
  rewrite (bind_Return _ _ _ _ _ Hrun).
  assert (Hns : str_eqb (StripeInvoice.billing_reason invoice) "subscription_update" = false).
  { apply not_true_is_false. by rewrite str_eqb_eq. }
  unfold granted. rewrite Hns.
  unfold bind at 1.
  destruct (User_findByIdAndUpdate_inc (Subscription.userId subscription) allotment st)
    as [[updated|e] st1] eqn:Hinc.
  2: { unfold User_findByIdAndUpdate_inc in Hinc.
       destruct (users st !! Subscription.userId subscription); discriminate. }
  assert (Hbal : User.credits <$> updated = balance_of (Subscription.userId subscription) st1).
  { unfold User_findByIdAndUpdate_inc, balance_of in *.
    destruct (users st !! Subscription.userId subscription) eqn:Hu;
      inversion Hinc; subst; simpl.
    - by rewrite lookup_insert_eq.
    - by rewrite Hu. }
  unfold bind, CreditLog_create, Transaction_create, write, ret, final.
  cbn [CreditLog.credits CreditLog.description Transaction.type snd].
  rewrite (proj2 (Z.ltb_ge allotment 0) Hpos).
  rewrite (invoice_description_nonempty false).
  rewrite Hbal. reflexivity.
Qed.

(** C4 (amended). An invoice-payment-succeeded event is a no-op when the
    invoice carries no subscription reference, is the initial-subscription
    invoice, has nothing paid, matches no local subscription record, or is
    already journalled under its invoice id. Otherwise, for a renewal (any
    billing reason but a plan switch) and settings that are not negative, the
    plan's allotment is added to the balance of the record's owner, one
    ledger entry carries it with the new balance as snapshot, and one
    completed [subscription_renewal] entry keyed by the invoice id is
    journalled; processing the same invoice again then changes nothing. *)
Theorem invoice_payment_succeeded_once (invoice : StripeInvoice.t) (st : Store) :
  settings_nonneg st →
  (invoice_skipped invoice st →
   handleInvoicePaymentSucceeded invoice st = (Return tt, st)) ∧
  (¬ invoice_skipped invoice st →
   StripeInvoice.billing_reason invoice ≠ "subscription_update" →
   ∃ i subscription allotment st',
     findOne (by_stripe_id (StripeInvoice.subscription invoice)) (subscriptions st)
       = Some (i, subscription) ∧
     creditLimitForPlan (Subscription.plan subscription) st = (Return allotment, st) ∧
     handleInvoicePaymentSucceeded invoice st = (Return tt, st') ∧
     balance_of (Subscription.userId subscription) st'
       = (λ b, b + allotment) <$> balance_of (Subscription.userId subscription) st ∧
     (∀ other, other ≠ Subscription.userId subscription →
               balance_of other st' = balance_of other st) ∧
     (∃ e, creditLogs st' = creditLogs st ++ [e] ∧
           CreditLog.userId e = Subscription.userId subscription ∧
           CreditLog.type e = CreditLog.addition ∧
           CreditLog.credits e = allotment ∧
           CreditLog.balanceAfter e = balance_of (Subscription.userId subscription) st') ∧
     (∃ t, transactions st' = transactions st ++ [t] ∧
           Transaction.userId t = Subscription.userId subscription ∧
           Transaction.stripeInvoiceId t = Some (StripeInvoice.id invoice) ∧
           Transaction.type t = "subscription_renewal" ∧
           Transaction.status t = Transaction.completed ∧
           Transaction.creditsAdded t = allotment) ∧
     subscriptions st' = subscriptions st ∧
     handleInvoicePaymentSucceeded invoice st' = (Return tt, st')).
Proof.
  intros Hset. split; [apply invoice_skipped_noop|].
  intros Hn Hsw.
  destruct (invoice_granted invoice st Hset Hn Hsw) as (i & sub & c & Hf & Hc & Hrun).
  exists i, sub, c, (granted invoice sub c st).
  split; [done|]. split; [done|]. split; [done|].
  destruct (inc_frame (Subscription.userId sub) c st) as (_ & _ & Hlog & Htx & Hsub & _).
  assert (Hbal : ∀ uid, balance_of uid (granted invoice sub c st) =
                        balance_of uid (final (User_findByIdAndUpdate_inc
                                                 (Subscription.userId sub) c st))) by done.
  split; [by rewrite Hbal, inc_balance, decide_True|].
  split; [intros other Hne; by rewrite Hbal, inc_balance, decide_False|].
  split.
  { eexists. split; [unfold granted; simpl; rewrite Hlog; reflexivity|]. by rewrite Hbal. }
  split.
  { eexists. split; [unfold granted; simpl; rewrite Htx; reflexivity|]. done. }
  split; [done|].
  apply invoice_skipped_noop. right; right; right; right.
  unfold entries_for_invoice, granted. simpl.
  rewrite List.filter_app. simpl. rewrite opt_eqb_refl.
  intros H. by apply app_eq_nil in H as [_ ?].
Qed.

Lemma renewal_invoice_scenario :
  let handled := final (handleInvoicePaymentSucceeded renewal_invoice store_subscribed) in
  balance_of "u1" store_subscribed = Some 2 ∧
  balance_of "u1" handled = Some 702 ∧
  length (entries_for_invoice "in_2" handled) = 1%nat ∧
  handleInvoicePaymentSucceeded renewal_invoice handled = (Return tt, handled).
Proof.
  destruct (invoice_payment_succeeded_once renewal_invoice store_subscribed
              (no_settings_nonneg store_subscribed eq_refl)) as [_ Hgrant].
  destruct Hgrant as (i & sub & c & st' & _ & _ & Hrun & _ & _ & _ & _ & _ & Hagain).
  - intros [H|[H|[H|[H|H]]]].
    + discriminate.
    + discriminate.
    + by apply H.
    + apply (H yearly_sub_1); [left | reflexivity].
    + by apply H.
  - discriminate.
  - cbv zeta. rewrite Hrun in *. unfold final in *. simpl snd.
    split; [reflexivity|]. split; [|split; [|exact Hagain]].
    + injection Hrun as <-. vm_compute. reflexivity.
    + injection Hrun as <-. vm_compute. reflexivity.
Defined.

(** C4 as the specification states it fails: a paid renewal invoice that is not yet
    journalled, for a subscription with no local record, is skipped. *)
Lemma renewal_without_local_record_is_skipped :
  entries_for_invoice "in_3" store_subscribed = [] ∧
  StripeInvoice.amount_paid stray_invoice = Some 9900 ∧
  StripeInvoice.billing_reason stray_invoice = "subscription_cycle" ∧
  handleInvoicePaymentSucceeded stray_invoice store_subscribed
    = (Return tt, store_subscribed).
Proof. repeat split. Qed.

(* ------------------------------------------------------------------ *)
(** ** The ledger and the balance *)

Lemma ledger_sum_app (userId : string) (l : list CreditLog.t) (e : CreditLog.t) :
  ledger_sum userId (l ++ [e]) =
  ledger_sum userId l + (if str_eqb (CreditLog.userId e) userId then signed_delta e else 0).
Proof.
  unfold ledger_sum. induction l as [|a l IH]; simpl.
  - destruct (str_eqb _ _); lia.
  - rewrite IH. destruct (str_eqb (CreditLog.userId a) userId); lia.
Qed.

Lemma ledger_sum_absent (userId : string) (l : list CreditLog.t) :
  (∀ e, e ∈ l → CreditLog.userId e ≠ userId) → ledger_sum userId l = 0.
Proof.
  unfold ledger_sum. induction l as [|a l IH]; intros H; simpl; [done|].
  rewrite IH by (intros e He; apply H; by right).
  destruct (str_eqb (CreditLog.userId a) userId) eqn:E; [|done].
  apply str_eqb_eq in E. exfalso. apply (H a); [left | done].
Qed.

Lemma running_sum_old (l : list CreditLog.t) (e e' : CreditLog.t) (k : nat) :
  l !! k = Some e' → running_sum (l ++ [e]) k e' = running_sum l k e'.
Proof.
  intros Hk. unfold running_sum. f_equal.
  apply lookup_lt_Some in Hk. rewrite take_app_le by lia. done.
Qed.

Lemma running_sum_last (l : list CreditLog.t) (e : CreditLog.t) :
  running_sum (l ++ [e]) (length l) e = ledger_sum (CreditLog.userId e) (l ++ [e]).
Proof.
  unfold running_sum. f_equal. rewrite take_ge; [done|].
  rewrite length_app. simpl. lia.
Qed.

Lemma snapshots_match_app (l : list CreditLog.t) (e : CreditLog.t) :
  snapshots_match l →
  (∀ b, CreditLog.balanceAfter e = Some b → b = ledger_sum (CreditLog.userId e) (l ++ [e])) →
  snapshots_match (l ++ [e]).
Proof.
  intros Hl He k e' b Hk Hb.
  destruct (decide (k < length l)%nat) as [Hlt|Hge].
  - rewrite lookup_app_l in Hk by done.
    rewrite (running_sum_old _ _ _ _ Hk). by eapply Hl.
  - rewrite lookup_app_r in Hk by lia.
    destruct (k - length l)%nat as [|n] eqn:E; simpl in Hk; [|by destruct n].
    inversion Hk; subst e'. assert (k = length l) as -> by lia.
    rewrite running_sum_last. by apply He.
Qed.

Lemma ledger_move_ok (st st' : Store) :
  settings st' = settings st →
  (∀ r, r ∈ subscriptions st' → is_Some (users st' !! Subscription.userId r)) →
  ledger_ok st → ledger_move st st' → ledger_ok st'.
Proof.
  intros Hset Hsubs [Hbal Hsnap Hnull Hent _ Hnn] Hmove.
  assert (Hnn' : settings_nonneg st') by (unfold settings_nonneg; by rewrite Hset).
  destruct Hmove as [Hu Hl | uid u e Hu Hu' Hl He Hb | uid u e Hu Hr Hu' Hl He Ht Hc Hn
                     | newId u Hfresh Hu' Hl].
  - constructor; auto.
    + intros uid u. rewrite Hu, Hl. apply Hbal.
    + by rewrite Hl.
    + intros e. rewrite Hl, Hu. apply Hnull.
    + intros e. rewrite Hl, Hu. apply Hent.
  - constructor; auto.
    + intros uid' u'. rewrite Hu', Hl, ledger_sum_app, He.
      destruct (decide (uid = uid')) as [->|Hne].
      * rewrite lookup_insert_eq, str_eqb_refl. intros [= <-]. simpl.
        rewrite (Hbal _ _ Hu). done.
      * rewrite lookup_insert_ne by done. intros Hu''.
        rewrite (Hbal _ _ Hu'').
        destruct (str_eqb uid uid') eqn:E; [by apply str_eqb_eq in E|lia].
    + rewrite Hl. apply snapshots_match_app; [done|].
      intros b. rewrite Hb. intros [= <-].
      rewrite ledger_sum_app, He, str_eqb_refl, (Hbal _ _ Hu). done.
    + intros e'. rewrite Hl, elem_of_app, list_elem_of_singleton.
      intros [Hin| ->] Hnone; [|congruence].
      destruct (Hnull e' Hin Hnone) as (? & ? & u' & Hu'' & Hr).
      split; [done|]. split; [done|]. rewrite Hu'.
      destruct (decide (uid = CreditLog.userId e')) as [Heq|Hne].
      * rewrite <- Heq, lookup_insert_eq. rewrite <- Heq in Hu''. simplify_eq.
        eexists. split; [done|]. done.
      * rewrite lookup_insert_ne by done. eauto.
    + intros e'. rewrite Hl, Hu', elem_of_app, list_elem_of_singleton.
      intros [Hin| ->].
      * destruct (decide (uid = CreditLog.userId e')) as [Heq|Hne].
        -- rewrite <- Heq, lookup_insert_eq. eauto.
        -- rewrite lookup_insert_ne by done. by apply Hent.
      * rewrite He, lookup_insert_eq. eauto.
  - assert (Hd : signed_delta e = 0) by (unfold signed_delta; rewrite Ht; lia).
    constructor; auto.
    + intros uid' u'. rewrite Hu', Hl, ledger_sum_app, Hd. intros Hu''.
      rewrite (Hbal _ _ Hu''). destruct (str_eqb _ _); lia.
    + rewrite Hl. apply snapshots_match_app; [done|].
      intros b. rewrite Hn. discriminate.
    + intros e'. rewrite Hl, Hu', elem_of_app, list_elem_of_singleton.
      intros [Hin| ->] Hnone; [by apply Hnull|].
      split; [done|]. split; [done|]. rewrite He. eauto.
    + intros e'. rewrite Hl, Hu', elem_of_app, list_elem_of_singleton.
      intros [Hin| ->]; [by apply Hent|]. rewrite He. eauto.
  - assert (Hzero : ledger_sum newId (creditLogs st) = 0).
    { apply ledger_sum_absent. intros e Hin Heq. apply Hent in Hin as [u' Hu''].
      rewrite Heq in Hu''. congruence. }
    assert (Hother : ∀ e, e ∈ creditLogs st → CreditLog.userId e ≠ newId).
    { intros e Hin Heq. apply Hent in Hin as [u' Hu'']. rewrite Heq in Hu''. congruence. }
    destruct Hl as [[Hc Hl] | (e & Hl & He & Hd & Hb)].
    + constructor; auto.
      * intros uid' u'. rewrite Hu', Hl.
        destruct (decide (newId = uid')) as [<-|Hne].
        -- rewrite lookup_insert_eq. intros [= <-]. lia.
        -- rewrite lookup_insert_ne by done. apply Hbal.
      * by rewrite Hl.
      * intros e. rewrite Hl, Hu'. intros Hin Hnone.
        destruct (Hnull e Hin Hnone) as (? & ? & u' & Hu'' & Hr).
        split; [done|]. split; [done|].
        rewrite lookup_insert_ne by (intros Heq; by apply (Hother e)). eauto.
      * intros e. rewrite Hl, Hu'. intros Hin.
        rewrite lookup_insert_ne by (intros Heq; by apply (Hother e)). by apply Hent.
    + constructor; auto.
      * intros uid' u'. rewrite Hu', Hl, ledger_sum_app, He.
        destruct (decide (newId = uid')) as [<-|Hne].
        -- rewrite lookup_insert_eq, str_eqb_refl. intros [= <-]. lia.
        -- rewrite lookup_insert_ne by done. intros Hu''. rewrite (Hbal _ _ Hu'').
           destruct (str_eqb newId uid') eqn:E; [by apply str_eqb_eq in E|lia].
      * rewrite Hl. apply snapshots_match_app; [done|].
        intros b. rewrite Hb. intros [= <-].
        rewrite ledger_sum_app, He, str_eqb_refl. lia.
      * intros e'. rewrite Hl, Hu', elem_of_app, list_elem_of_singleton.
        intros [Hin| ->] Hnone; [|congruence].
        destruct (Hnull e' Hin Hnone) as (? & ? & u' & Hu'' & Hr).
        split; [done|]. split; [done|].
        rewrite lookup_insert_ne by (intros Heq; by apply (Hother e')). eauto.
      * intros e'. rewrite Hl, Hu', elem_of_app, list_elem_of_singleton.
        intros [Hin| ->].
        -- rewrite lookup_insert_ne by (intros Heq; by apply (Hother e')). by apply Hent.
        -- rewrite He, lookup_insert_eq. eauto.
Qed.

Lemma ledger_step_refl (st : Store) : ledger_ok st → ledger_step st st.
Proof.
  intros Hok. split; [done|]. split; [apply (ok_subscribers _ Hok)|].
  by apply move_none.
Qed.

Lemma configured_action_label (action settingKey : string) :
  costMap !! action = Some settingKey →
  ∃ label, actionLabels !! action = Some label ∧ str_eqb label "" = false.
Proof.
  intros H. unfold costMap in H. apply elem_of_list_to_map_2 in H.
  repeat (apply elem_of_cons in H as [H|H];
          [inversion H; subst; eexists; split; [reflexivity | reflexivity]|]).
  inversion H.
Qed.

(** A key that passed the check of a user has a description that the ledger
    accepts: its label, or the text of the inherited function. *)
Lemma debit_description (action : string) (settingKey : JsValue) (key : string) :
  property costMap action = Some settingKey → castString settingKey = Some key →
  ∃ description,
    castString (label_of action) = Some description ∧ str_eqb description "" = false.
Proof.
  unfold property. intros Hp Hk.
  destruct (costMap !! action) as [own|] eqn:Hc.
  - destruct (configured_action_label _ _ Hc) as (label & Hl & Hne).
    exists label. by rewrite (label_of_own _ _ Hl).
  - unfold Object_prototype in Hp.
    destruct (bool_decide (action = "constructor")) eqn:E1.
    { apply bool_decide_eq_true in E1 as ->. eexists. by vm_compute. }
    destruct (bool_decide (action = "__proto__")) eqn:E2.
    { injection Hp as <-. discriminate. }
    destruct (bool_decide (action ∈ _)) eqn:E3; [|discriminate].
    apply bool_decide_eq_true in E3.
    repeat (apply elem_of_cons in E3 as [-> | E3]; [eexists; by vm_compute|]).
    by apply elem_of_nil in E3.
Qed.

Lemma registerUser_step (newId email : string) (role : Role) (st : Store) :
  ledger_ok st → ledger_step st (final (registerUser newId email role st)).
Proof.
  intros Hok.
  unfold registerUser, getInitialCredits, AppSettings_get,
    User_create, logCreditEvent, CreditLog_create.
  unfold try_catch, bind, read, ret, write, throw, final.
  destruct (email_taken email st); [by apply ledger_step_refl|].
  cbn [snd fst].
  destruct (users st !! newId) eqn:Hfresh; [by apply ledger_step_refl|].
  set (c := default 10 (settings st !! "initial_credits")).
  assert (Hc : 0 ≤ c) by (apply default_nonneg; [apply (ok_settings _ Hok) | lia]).
  assert (Hsubs : ∀ r, r ∈ subscriptions st →
                       is_Some (<[newId := User.mk email role c]> (users st)
                                  !! Subscription.userId r)).
  { intros r Hr. apply (ok_subscribers _ Hok) in Hr as [u Hu].
    rewrite lookup_insert_ne; [eauto | intros Heq; rewrite <- Heq in Hu; congruence]. }
  destruct (0 <? c) eqn:Hpos.
  - cbn [CreditLog.credits CreditLog.description].
    rewrite (proj2 (Z.ltb_ge c 0) Hc).
    rewrite nonempty_string. cbn [snd fst].
    split; [done|]. split; [done|].
    eapply (move_register _ _ newId (User.mk email role c)); [done | done |].
    right. eexists. split; [reflexivity|]. repeat split.
  - apply Z.ltb_ge in Hpos. cbn [snd fst].
    split; [done|]. split; [done|].
    eapply (move_register _ _ newId (User.mk email role c)); [done | done |].
    left. split; [simpl; lia | done].
Qed.

Lemma deductCredits_step (userId action : string) (st : Store) :
  ledger_ok st → ledger_step st (final (deductCredits userId action st)).
Proof.
  intros Hok. unfold deductCredits, bind.
  destruct (users st !! userId) as [u|] eqn:Hu.
  2: { unfold checkCredits, User_findById, bind, read, throw. rewrite Hu.
       by apply ledger_step_refl. }
  destruct (User.role u) eqn:Hr.
  - rewrite (checkCredits_admin _ _ u _ Hu Hr).
    unfold deduct_after_check, CreditLog_create_described.
    cbn [CreditCheck.unlimited].
    destruct (castString (label_of action)) as [description|];
      [|by apply ledger_step_refl].
    unfold CreditLog_create, bind, write, ret, throw, final.
    cbn [CreditLog.credits CreditLog.description].
    destruct (str_eqb description ""); [by apply ledger_step_refl|].
    cbn [snd fst Z.ltb Z.compare].
    split; [done|]. split; [apply (ok_subscribers _ Hok)|].
    eapply (move_admin _ _ userId u); try done.
  - destruct (checkCredits_cases userId action u st Hu Hr)
      as [[e ->] | (settingKey & key & Hp & Hk & ->)]; [by apply ledger_step_refl|].
    set (required := default 1 (settings st !! key)).
    assert (Hreq : 0 ≤ required) by (apply default_nonneg; [apply (ok_settings _ Hok) | lia]).
    unfold deduct_after_check.
    cbn [CreditCheck.unlimited CreditCheck.hasCredits CreditCheck.required].
    destruct (required <=? User.credits u) eqn:Hle; cbn [negb].
    2: { by apply ledger_step_refl. }
    unfold deduct_update, deduct_log, User_findByIdAndUpdate_inc, bind.
    cbn [CreditCheck.required]. rewrite Hu.
    destruct (debit_description _ _ _ Hp Hk) as (description & Hd & Hne).
    unfold CreditLog_create_described. rewrite Hd.
    unfold CreditLog_create, write, ret, throw, final.
    cbn [CreditLog.credits CreditLog.description].
    rewrite Hne, (proj2 (Z.ltb_ge required 0) Hreq). cbn [snd fst].
    split; [done|]. split.
    { intros r Hin. apply (ok_subscribers _ Hok) in Hin as [u' Hu'].
      cbn [users set_users set_creditLogs subscriptions] in *.
      destruct (decide (userId = Subscription.userId r)) as [<-|Hne'].
      - rewrite lookup_insert_eq. eauto.
      - rewrite lookup_insert_ne by done. eauto. }
    eapply (move_entry _ _ userId u); try done; reflexivity.
Qed.

Lemma handleCheckoutCompleted_step (stripe : StripeApi.t) (now : Z)
    (session : StripeSession.t) (st : Store) :
  ledger_ok st →
  is_Some (users st !! StripeSession.metadata_userId session) →
  match StripeSession.metadata session with
  | StripeSession.credit_purchase credits => 0 ≤ credits
  | _ => True
  end →
  ledger_step st (final (handleCheckoutCompleted stripe now session st)).
Proof.
  intros Hok [u Hu] Hamount. unfold handleCheckoutCompleted.
  destruct (StripeSession.metadata session) as [credits|plan|other].
  - unfold User_findByIdAndUpdate_inc, Transaction_create, CreditLog_create.
    unfold bind, write, ret, throw, final. rewrite Hu.
    cbn [Transaction.type CreditLog.credits CreditLog.description fst snd].
    rewrite bool_decide_eq_true_2 by (unfold Transaction.type_enum; set_solver).
    rewrite (proj2 (Z.ltb_ge credits 0) Hamount), nonempty_string. cbn [fst snd].
    split; [done|]. split.
    { intros r Hin. apply (registered_after_inc _ _ _ _ _ Hu).
      by apply (ok_subscribers _ Hok). }
    eapply (move_entry _ _ _ u); try done; reflexivity.
  - destruct (StripeSession.subscription_id session) as [sid|];
      [|by apply ledger_step_refl].
    unfold bind at 1. unfold external at 1.
    destruct (StripeApi.subscriptions_retrieve stripe sid) as [stripeSub|e];
      [|by apply ledger_step_refl].
    destruct (extractPeriodDates now stripeSub) as [ps pe].
    unfold bind at 1.
    match goal with |- context [Subscription_upsert ?d st] => set (doc := d) end.
    destruct (upsert_cases doc st) as [-> | (subs' & -> & Hsubs')];
      [by apply ledger_step_refl|].
    set (st1 := set_subscriptions (λ _, subs') st).
    destruct (creditLimitForPlan_run plan st1) as (c & Hrun & Hc).
    rewrite (bind_Return _ _ _ _ _ Hrun).
    assert (0 ≤ c) as Hc' by (apply Hc; apply (ok_settings _ Hok)).
    unfold User_findByIdAndUpdate_inc, Transaction_create, CreditLog_create.
    unfold bind, write, ret, throw, final.
    change (users st1) with (users st). rewrite Hu.
    cbn [Transaction.type CreditLog.credits CreditLog.description fst snd].
    rewrite bool_decide_eq_true_2 by (unfold Transaction.type_enum; set_solver).
    rewrite (proj2 (Z.ltb_ge c 0) Hc').
    replace (str_eqb (capitalized plan +:+ _) "") with false by (by destruct plan).
    cbn [fst snd].
    split; [done|]. split.
    { intros r Hin. apply (registered_after_inc _ _ _ _ _ Hu).
      cbn in Hin. apply Hsubs' in Hin as [-> | Hin].
      - simpl. eauto.
      - by apply (ok_subscribers _ Hok). }
    eapply (move_entry _ _ _ u); try done; reflexivity.
  - by apply ledger_step_refl.
Qed.

Lemma handleInvoicePaymentSucceeded_step (invoice : StripeInvoice.t) (st : Store) :
  ledger_ok st →
  ledger_step st (final (handleInvoicePaymentSucceeded invoice st)).
Proof.
  intros Hok. unfold handleInvoicePaymentSucceeded.
  destruct (_ || _); [by apply ledger_step_refl|].
  destruct (_ <=? 0); [by apply ledger_step_refl|].
  unfold Subscription_findOne, Transaction_findOne.
  unfold bind at 1. unfold read at 1.
  destruct (findOne _ (subscriptions st)) as [[i subscription]|] eqn:Hf;
    [|by apply ledger_step_refl].
  unfold bind at 1. unfold read at 1.
  destruct (findOne _ (transactions st)) as [[j tx]|];
    [by apply ledger_step_refl|].
  cbn [fmap option_fmap option_map snd].
  destruct (creditLimitForPlan_run (Subscription.plan subscription) st)
    as (c & Hrun & Hc).
  rewrite (bind_Return _ _ _ _ _ Hrun).
  assert (0 ≤ c) as Hc' by (apply Hc; apply (ok_settings _ Hok)).
  apply findOne_Some in Hf as (Hl & _ & _).
  apply list_elem_of_lookup_2 in Hl.
  destruct (ok_subscribers _ Hok _ Hl) as [u Hu].
  unfold User_findByIdAndUpdate_inc, Transaction_create, CreditLog_create.
  unfold bind, write, ret, throw, final. rewrite Hu.
  cbn [Transaction.type CreditLog.credits CreditLog.description fst snd].
  rewrite (proj2 (Z.ltb_ge c 0) Hc'), invoice_description_nonempty.
  assert (Hreg : ∀ r, r ∈ subscriptions st →
            is_Some (<[Subscription.userId subscription := User.inc c u]> (users st)
                       !! Subscription.userId r)).
  { intros r Hin. apply (registered_after_inc _ _ _ _ _ Hu).
    by apply (ok_subscribers _ Hok). }
  destruct (bool_decide _); cbn [fst snd].
  - split; [done|]. split; [done|].
    eapply (move_entry _ _ _ u); try done; reflexivity.
  - split; [done|]. split; [done|].
    eapply (move_entry _ _ _ u); try done; reflexivity.
Qed.

Lemma ledger_call_step (r : Request LedgerOp) (st : Store) :
  ledger_ok st → well_addressed st r → ledger_step st (final (ledger_call r st)).
Proof.
  intros Hok Hwa. unfold ledger_call, well_addressed in *.
  destruct (op r) as [newId email role | userId action | session | invoice].
  - pose proof (registerUser_step newId email role st Hok) as H.
    unfold void, bind, ret, final in *.
    by destruct (registerUser newId email role st) as [[?|?] ?].
  - pose proof (deductCredits_step userId action st Hok) as H.
    unfold void, bind, ret, final in *.
    by destruct (deductCredits userId action st) as [[?|?] ?].
  - destruct Hwa. by apply handleCheckoutCompleted_step.
  - by apply handleInvoicePaymentSucceeded_step.
Qed.

(** C1 (amended). From a store whose ledger is consistent, every sequence
    of ledger operations (initial grant, usage debit, purchase credit,
    subscription credit on checkout and on renewal), each addressed to a
    registered user and for an amount that is not negative, leaves the
    balance of every user equal to the signed sum of that user's entries
    (usage negative, everything else positive), and every balance snapshot
    that is present equal to the running sum at the time it was written. A
    snapshot is absent only on the zero-magnitude usage entry of an admin
    debit. *)
Theorem ledger_invariant (rs : list (Request LedgerOp)) (st : Store) :
  ledger_ok st → all_well_addressed st rs → ledger_ok (serve ledger_call rs st).
Proof.
  revert st. induction rs as [|r rs IH]; intros st Hok Hwa; [done|].
  destruct Hwa as [Hr Hrs]. simpl. apply IH; [|done].
  destruct (ledger_call_step r st Hok Hr) as (Hset & Hsubs & Hmove).
  by eapply ledger_move_ok.
Qed.

Lemma ledger_ok_fresh (st : Store) :
  users st = ∅ → creditLogs st = [] → subscriptions st = [] →
  settings_nonneg st → ledger_ok st.
Proof.
  intros Hu Hl Hs Hn. constructor; auto.
  - intros userId u. rewrite Hu, lookup_empty. discriminate.
  - intros k e b. rewrite Hl. discriminate.
  - intros e. rewrite Hl. intros H. inversion H.
  - intros e. rewrite Hl. intros H. inversion H.
  - intros r. rewrite Hs. intros H. inversion H.
Qed.

Lemma ledger_scenario_consistent :
  let st := serve ledger_call ledger_scenario emptyStore in
  ledger_ok st ∧ balance_of "u1" st = Some 119 ∧ ledger_sum "u1" (creditLogs st) = 119 ∧
  CreditLog.balanceAfter <$> creditLogs st = [Some 10; Some 9; Some 19; Some 69; Some 119].
Proof.
  split; [|by vm_compute].
  apply ledger_invariant.
  - apply ledger_ok_fresh; try reflexivity. by apply no_settings_nonneg.
  - simpl. repeat split; try (by vm_compute); eexists; by vm_compute.
Defined.

(** C1 as the specification states it fails on the snapshot of an admin debit: the entry
    is written with no snapshot while the running sum of the admin is 10. *)
Lemma admin_debit_has_no_snapshot :
  let log := creditLogs (serve ledger_call admin_scenario emptyStore) in
  ∃ e, log !! 1%nat = Some e ∧ CreditLog.type e = CreditLog.usage ∧
       CreditLog.balanceAfter e = None ∧ running_sum log 1 e = 10 ∧
       ¬ snapshots_exact log.
Proof.
  eexists. split; [by vm_compute|]. split; [done|]. split; [done|].
  split; [by vm_compute|].
  intros H. specialize (H 1%nat _ eq_refl). vm_compute in H. discriminate.
Qed.

(* ------------------------------------------------------------------ *)
(** ** Debits, one after another and interleaved *)

Lemma debit_steps_are_deductCredits (userId action : string) (st : Store) :
  run_schedule [0; 0; 0]%nat [Requested userId action] st =
    ([Settled (outcome (deductCredits userId action st))],
     final (deductCredits userId action st)).
Proof.
  unfold deductCredits, bind. cbn [run_schedule lookup list_lookup debit_step].
  destruct (checkCredits userId action st) as [[cc|e] st1]; [|reflexivity].
  destruct (CreditCheck.unlimited cc || negb (CreditCheck.hasCredits cc)) eqn:Hshort;
    [reflexivity|].
  apply orb_false_iff in Hshort as [Hun Hhas]. apply negb_false_iff in Hhas.
  unfold deduct_after_check. rewrite Hun, Hhas. cbn [negb].
  cbn [insert list_insert run_schedule lookup list_lookup debit_step].
  unfold bind.
  destruct (deduct_update userId cc st1) as [[updated|e] st2]; reflexivity.
Qed.

Lemma deductCredits_nonneg (userId action : string) (st : Store) :
  balances_nonneg st → balances_nonneg (final (deductCredits userId action st)).
Proof.
  intros Hnn. unfold deductCredits, bind.
  destruct (users st !! userId) as [u|] eqn:Hu.
  2: { unfold checkCredits, User_findById, bind, read, throw. by rewrite Hu. }
  destruct (User.role u) eqn:Hr.
  - rewrite (checkCredits_admin _ _ u _ Hu Hr).
    unfold deduct_after_check, CreditLog_create_described.
    cbn [CreditCheck.unlimited].
    destruct (castString (label_of action)) as [description|]; [|done].
    unfold CreditLog_create, bind, write, ret, throw, final.
    cbn [CreditLog.credits CreditLog.description].
    by destruct (str_eqb description "").
  - destruct (checkCredits_cases userId action u st Hu Hr)
      as [[e ->] | (settingKey & key & _ & _ & ->)]; [done|].
    set (required := default 1 (settings st !! key)).
    unfold deduct_after_check.
    cbn [CreditCheck.unlimited CreditCheck.hasCredits CreditCheck.required].
    destruct (required <=? User.credits u) eqn:Hle; cbn [negb]; [|done].
    apply Z.leb_le in Hle.
    unfold deduct_update, deduct_log, User_findByIdAndUpdate_inc, bind.
    cbn [CreditCheck.required]. rewrite Hu.
    assert (Hafter : balances_nonneg
                       (set_users (<[userId := User.inc (- required) u]>) st)).
    { intros uid u'. cbn [users set_users].
      destruct (decide (userId = uid)) as [<-|Hne].
      - rewrite lookup_insert_eq. intros [= <-]. simpl. lia.
      - rewrite lookup_insert_ne by done. apply Hnn. }
    unfold CreditLog_create_described.
    destruct (castString (label_of action)) as [description|]; [|exact Hafter].
    unfold CreditLog_create, write, ret, throw, final.
    cbn [CreditLog.credits CreditLog.description].
    destruct (required <? 0); [exact Hafter|].
    destruct (str_eqb _ ""); exact Hafter.
Qed.

(** C2 (amended). A debit is a credit check followed by a separate step that
    decrements the balance with one atomic but unconditional update: the
    decrement is applied whatever the balance is by then. Served one after
    another, debits never take a balance that is not negative below zero. *)
Theorem serial_debits_keep_balances_nonneg (ds : list (string * string)) (st : Store) :
  balances_nonneg st →
  balances_nonneg (serial_debits ds st) ∧
  (∀ userId action,
     run_schedule [0; 0; 0]%nat [Requested userId action] st =
       ([Settled (outcome (deductCredits userId action st))],
        final (deductCredits userId action st))) ∧
  (∀ userId u creditCheck,
     users st !! userId = Some u →
     deduct_update userId creditCheck st =
       (Return (Some (User.inc (- CreditCheck.required creditCheck) u)),
        set_users (<[userId := User.inc (- CreditCheck.required creditCheck) u]>) st)).
Proof.
  intros Hnn. split; [|split].
  - revert st Hnn. induction ds as [|d ds IH]; intros st Hnn; [done|].
    simpl. apply IH. by apply deductCredits_nonneg.
  - intros. apply debit_steps_are_deductCredits.
  - intros userId u cc Hu. unfold deduct_update, User_findByIdAndUpdate_inc.
    by rewrite Hu.
Qed.

Lemma serial_debits_scenario :
  balance_of "u1" (serial_debits [("u1", "resume_creation"); ("u1", "resume_creation")]
                     store_1_credit) = Some 0 ∧
  balances_nonneg (serial_debits [("u1", "resume_creation"); ("u1", "resume_creation")]
                     store_1_credit).
Proof.
  split; [by vm_compute|].
  apply (serial_debits_keep_balances_nonneg
           [("u1", "resume_creation"); ("u1", "resume_creation")] store_1_credit).
  intros userId u. unfold store_1_credit. cbn [users].
  destruct (decide (userId = "u1")) as [->|Hne].
  - rewrite lookup_singleton_eq. intros [= <-]. simpl. lia.
  - rewrite lookup_singleton_ne by done. discriminate.
Defined.

(** C2 as the specification states it fails: two debits of cost 1 for the same user with
    balance 1, interleaved so that both checks run before either decrement,
    both succeed and leave the balance at -1. *)
Lemma interleaved_debits_overdraw :
  let requests := [Requested "u1" "resume_creation"; Requested "u1" "resume_creation"] in
  let run := run_schedule [0; 1; 0; 1; 0; 1]%nat requests store_1_credit in
  balance_of "u1" store_1_credit = Some 1 ∧
  balance_of "u1" run.2 = Some (-1) ∧
  run.1 = [Settled (Return (Deduction.mk true 1 (Fin 0) None None false));
           Settled (Return (Deduction.mk true 1 (Fin (-1)) None None false))].
Proof. by vm_compute. Qed.

(* ------------------------------------------------------------------ *)
(** ** Reconciliation calls that throw *)

Lemma pure_createCreditCheckoutSession (stripe : StripeApi.t) (userId : string) (n : Z) :
  pure (createCreditCheckoutSession stripe userId n).
Proof.
  unfold createCreditCheckoutSession, User_findById, AppSettings_get_text, AppSettings_get.
  purity; apply pure_customer.
Qed.

Lemma pure_createBillingPortalSession (stripe : StripeApi.t) (userId : string) :
  pure (createBillingPortalSession stripe userId).
Proof. unfold createBillingPortalSession, Subscription_findOne. purity. Qed.

Lemma cancel_fail_closed (stripe : StripeApi.t) (now : Z) (userId : string) (st : Store) :
  fail_closed (cancelSubscription stripe now userId) st.
Proof.
  intros e st' H. unfold cancelSubscription in H.
  destruct (getActive_run now userId st) as [found Hrun].
  rewrite (bind_Return _ _ _ _ _ Hrun) in H.
  destruct found as [[i r]|]; [|thrown H].
  apply getActive_Some in Hrun as [_ Hent].
  destruct (Subscription.stripeSubscriptionId r); [|thrown H].
  rewrite bind_external in H.
  destruct (StripeApi.subscriptions_update_cancel _ _ _); [|thrown H].
  unfold bind in H. rewrite save_valid in H by (by eapply entitled_valid).
  discriminate.
Qed.

Lemma reactivate_fail_closed (stripe : StripeApi.t) (userId : string) (st : Store) :
  fail_closed (reactivateSubscription stripe userId) st.
Proof.
  intros e st' H. unfold reactivateSubscription, Subscription_findOne in H.
  rewrite bind_read in H.
  destruct (findOne _ (subscriptions st)) as [[i r]|] eqn:Hf; [|thrown H].
  apply pending_valid in Hf as [_ Hs].
  destruct (Subscription.stripeSubscriptionId r); [|thrown H].
  rewrite bind_external in H.
  destruct (StripeApi.subscriptions_update_cancel _ _ _); [|thrown H].
  unfold bind in H. rewrite save_valid in H; [discriminate|].
  simpl. rewrite Hs. unfold Subscription.status_enum. set_solver.
Qed.

Lemma switchPlan_fail_closed (stripe : StripeApi.t) (now : Z) (userId : string)
    (newPlan : Plan) (st : Store) :
  fail_closed (switchPlan stripe now userId newPlan) st.
Proof.
  intros e st' H. unfold switchPlan in H.
  destruct (getActive_run now userId st) as [found Hrun].
  rewrite (bind_Return _ _ _ _ _ Hrun) in H.
  destruct found as [[i r]|]; [|thrown H].
  apply getActive_Some in Hrun as [_ Hent].
  destruct (plan_eqb _ _); [thrown H|].
  destruct (Subscription.cancelAtPeriodEnd r); [thrown H|].
  unfold AppSettings_get_text in H. rewrite bind_read in H.
  destruct (negb _); [thrown H|].
  destruct (Subscription.stripeSubscriptionId r); [|thrown H].
  rewrite bind_external in H.
  destruct (StripeApi.subscriptions_retrieve _ _) as [stripeSub|]; [|thrown H].
  destruct (StripeSubscription.items stripeSub) as [|item items]; [thrown H|].
  rewrite bind_external in H.
  destruct (StripeApi.subscriptions_update_price _ _ _ _) as [updated|]; [|thrown H].
  destruct (extractPeriodDates now updated) as [ps pe].
  unfold bind in H.
  rewrite save_valid in H by (exact (entitled_valid _ _ _ Hent)).
  discriminate.
Qed.

Lemma handleCheckoutCompleted_fail_closed (stripe : StripeApi.t) (now : Z)
    (session : StripeSession.t) (st : Store) :
  settings_nonneg st →
  (∀ credits, StripeSession.metadata session = StripeSession.credit_purchase credits →
              0 ≤ credits) →
  fail_closed (handleCheckoutCompleted stripe now session) st.
Proof.
  intros Hset Hamount e st' H. unfold handleCheckoutCompleted in H.
  destruct (StripeSession.metadata session) as [credits|plan|other]; [| |thrown H].
  - specialize (Hamount credits eq_refl).
    unfold User_findByIdAndUpdate_inc, Transaction_create, CreditLog_create in H.
    unfold bind, write, ret, throw in H.
    destruct (users st !! StripeSession.metadata_userId session);
      cbn [Transaction.type CreditLog.credits CreditLog.description fst snd] in H;
      rewrite bool_decide_eq_true_2 in H by (unfold Transaction.type_enum; set_solver);
      rewrite (proj2 (Z.ltb_ge credits 0) Hamount), nonempty_string in H;
      discriminate.
  - destruct (StripeSession.subscription_id session) as [sid|]; [|thrown H].
    rewrite bind_external in H.
    destruct (StripeApi.subscriptions_retrieve stripe sid) as [stripeSub|];
      [|thrown H].
    destruct (extractPeriodDates now stripeSub) as [ps pe].
    unfold bind at 1 in H.
    match type of H with context [Subscription_upsert ?d st] => set (doc := d) in H end.
    destruct (upsert_cases doc st) as [Hup | (subs' & Hup & _)]; rewrite Hup in H;
      [thrown H|].
    set (st1 := set_subscriptions (λ _, subs') st) in H.
    destruct (creditLimitForPlan_run plan st1) as (c & Hrun & Hc).
    rewrite (bind_Return _ _ _ _ _ Hrun) in H.
    assert (0 ≤ c) as Hc' by (by apply Hc).
    unfold User_findByIdAndUpdate_inc, Transaction_create, CreditLog_create in H.
    unfold bind, write, ret, throw in H.
    destruct (users st1 !! StripeSession.metadata_userId session);
      cbn [Transaction.type CreditLog.credits CreditLog.description fst snd] in H;
      rewrite bool_decide_eq_true_2 in H by (unfold Transaction.type_enum; set_solver);
      rewrite (proj2 (Z.ltb_ge c 0) Hc') in H;
      replace (str_eqb (capitalized plan +:+ " subscription activated — "
                          +:+ string_of_Z c +:+ " credits added") "")
        with false in H by (by destruct plan);
      discriminate.
Qed.

Lemma verify_fail_closed (stripe : StripeApi.t) (now : Z) (sessionId userId : string)
    (st : Store) :
  settings_nonneg st → sessions_well_formed stripe →
  fail_closed (verifyAndProcessSession stripe now sessionId userId) st.
Proof.
  intros Hset Hwf e st' H. unfold verifyAndProcessSession, Transaction_findOne in H.
  rewrite bind_read in H.
  destruct (snd <$> findOne _ (transactions st)); [discriminate|].
  rewrite bind_external in H.
  destruct (StripeApi.checkout_sessions_retrieve stripe sessionId) as [[session|]|] eqn:Hs;
    [| thrown H | thrown H].
  destruct (negb _); [thrown H|].
  destruct (negb _); [thrown H|].
  unfold bind at 1 in H.
  destruct (handleCheckoutCompleted stripe now session st) as [[[]|e'] st1] eqn:Hrun.
  - rewrite bind_read in H. discriminate.
  - inversion H; subst.
    eapply handleCheckoutCompleted_fail_closed; [done | | exact Hrun].
    intros credits. by eapply Hwf.
Qed.

Lemma syncSubscription_fail_closed (stripe : StripeApi.t) (now : Z) (userId : string)
    (st : Store) :
  fail_closed (syncSubscriptionFromStripe stripe now userId) st.
Proof.
  unfold syncSubscriptionFromStripe, User_findById.
  apply fail_closed_bind_pure; [apply pure_read|]. intros [u|]; [|by apply pure_fail_closed].
  apply fail_closed_bind_pure; [apply pure_resolveCustomer|].
  intros [customerId|]; [|by apply pure_fail_closed].
  apply fail_closed_bind_pure; [apply pure_external|]. intros subs.
  apply fail_closed_bind_pure; [apply pure_external|]. intros trialSubs.
  destruct (subs ++ trialSubs) as [|stripeSub rest]; [by apply pure_fail_closed|].
  intros e st' H. unfold bind in H.
  match type of H with context [Subscription_upsert ?d st] =>
    destruct (upsert_cases d st) as [Hup | (subs' & Hup & _)]; rewrite Hup in H
  end; [thrown H | discriminate].
Qed.

Lemma classify_invoice_run (stripe : StripeApi.t) (invoiceId : string) (amount : Z)
    (currency : string) (st : Store) :
  ∃ type description inv,
    classify_invoice stripe invoiceId amount currency st
      = (Return (type, description, inv), st) ∧
    type ∈ Transaction.type_enum.
Proof.
  unfold classify_invoice, try_catch, bind, external, ret.
  destruct (StripeApi.invoices_retrieve stripe invoiceId) as [inv|].
  - destruct (str_eqb _ _); do 3 eexists; (split; [reflexivity|]);
      unfold Transaction.type_enum; set_solver.
  - do 3 eexists. split; [reflexivity|]. unfold Transaction.type_enum. set_solver.
Qed.

Lemma detect_plan_run (stripe : StripeApi.t) (inv : option StripeInvoice.t) (st : Store) :
  ∃ plan, detect_plan stripe inv st = (Return plan, st).
Proof.
  unfold detect_plan, try_catch, bind, external, ret.
  destruct inv as [i|]; [|by eexists].
  destruct (truthy _); [|by eexists].
  destruct (StripeApi.subscriptions_retrieve _ _); by eexists.
Qed.

Lemma import_charge_run (stripe : StripeApi.t) (userId : string) (imported : Z)
    (charge : StripeCharge.t) (st : Store) :
  ∃ imported' st', import_charge stripe userId imported charge st = (Return imported', st').
Proof.
  unfold import_charge. destruct (negb _); [by do 2 eexists|].
  unfold Transaction_findOne. rewrite bind_read.
  destruct (snd <$> findOne _ (transactions st)); [by do 2 eexists|].
  destruct (truthy (StripeCharge.invoice charge)).
  - destruct (classify_invoice_run stripe (default "" (StripeCharge.invoice charge))
                (StripeCharge.amount charge)
                (or_else (StripeCharge.currency charge) "usd") st)
      as (type & description & inv & Hrun & Htype).
    rewrite (bind_Return _ _ _ _ _ Hrun). unfold bind.
    rewrite create_valid by done. by do 2 eexists.
  - unfold bind at 1. unfold ret at 1. unfold bind.
    rewrite create_valid by (unfold Transaction.type_enum; set_solver).
    by do 2 eexists.
Qed.

Lemma import_payment_intent_run (stripe : StripeApi.t) (userId : string) (imported : Z)
    (pi : StripePaymentIntent.t) (st : Store) :
  ∃ imported' st',
    import_payment_intent stripe userId imported pi st = (Return imported', st').
Proof.
  unfold import_payment_intent. destruct (negb _); [by do 2 eexists|].
  unfold Transaction_findOne. rewrite bind_read.
  destruct (snd <$> findOne _ (transactions st)); [by do 2 eexists|].
  assert (Hclass : ∃ type description inv,
    (if truthy (StripePaymentIntent.invoice pi) then
       classify_invoice stripe (default "" (StripePaymentIntent.invoice pi))
         (StripePaymentIntent.amount pi) (or_else (StripePaymentIntent.currency pi) "usd")
     else if opt_eqb (StripePaymentIntent.metadata_type pi) (Some "credit_purchase") then
       let credits := default 0 (StripePaymentIntent.metadata_creditAmount pi) in
       ret ("credit_purchase",
            (if 0 <? credits
             then "Credit purchase — " +:+ string_of_Z credits +:+ " credits ("
                    +:+ money (StripePaymentIntent.amount pi)
                          (or_else (StripePaymentIntent.currency pi) "usd") +:+ ")"
             else "Credit purchase — "
                    +:+ money (StripePaymentIntent.amount pi)
                          (or_else (StripePaymentIntent.currency pi) "usd")),
            None)
     else ret ("credit_purchase",
               "Payment — " +:+ money (StripePaymentIntent.amount pi)
                                 (or_else (StripePaymentIntent.currency pi) "usd"), None)) st
      = (Return (type, description, inv), st) ∧ type ∈ Transaction.type_enum).
  { destruct (truthy _); [apply classify_invoice_run|].
    destruct (opt_eqb _ _); do 3 eexists; (split; [reflexivity|]);
      unfold Transaction.type_enum; set_solver. }
  destruct Hclass as (type & description & inv & Hrun & Htype).
  rewrite (bind_Return _ _ _ _ _ Hrun).
  destruct (detect_plan_run stripe inv st) as [plan Hplan].
  cbn [fst snd]. rewrite (bind_Return _ _ _ _ _ Hplan). unfold bind.
  rewrite create_valid by done. by do 2 eexists.
Qed.

Lemma for_of_run {A} (body : Z → A → Async Z) (xs : list A) :
  (∀ imported x st, ∃ imported' st', body imported x st = (Return imported', st')) →
  ∀ imported st, ∃ imported' st', for_of body xs imported st = (Return imported', st').
Proof.
  intros Hbody. induction xs as [|x xs IH]; intros imported st; simpl.
  - by do 2 eexists.
  - destruct (Hbody imported x st) as (n & st1 & Hrun).
    rewrite (bind_Return _ _ _ _ _ Hrun). apply IH.
Qed.

Lemma syncTransactions_fail_closed (stripe : StripeApi.t) (userId : string) (st : Store) :
  fail_closed (syncTransactionsFromStripe stripe userId) st.
Proof.
  unfold syncTransactionsFromStripe, User_findById.
  apply fail_closed_bind_pure; [apply pure_read|]. intros [u|]; [|by apply pure_fail_closed].
  apply fail_closed_bind_pure; [apply pure_resolveCustomer|].
  intros [customerId|]; [|by apply pure_fail_closed].
  apply fail_closed_bind_pure; [apply pure_external|]. intros charges.
  apply fail_closed_bind_pure; [apply pure_external|]. intros paymentIntents.
  intros e st' H.
  destruct (for_of_run (import_charge stripe userId) charges
              (import_charge_run stripe userId) 0 st) as (n1 & st1 & Hrun1).
  rewrite (bind_Return _ _ _ _ _ Hrun1) in H.
  destruct (for_of_run (import_payment_intent stripe userId) paymentIntents
              (import_payment_intent_run stripe userId) n1 st1) as (n2 & st2 & Hrun2).
  rewrite (bind_Return _ _ _ _ _ Hrun2) in H. discriminate.
Qed.

Lemma createSubscriptionCheckout_throws (stripe : StripeApi.t) (now : Z) (userId : string)
    (plan : Plan) (st : Store) (e : exn) (st' : Store) :
  createSubscriptionCheckoutSession stripe now userId plan st = (Throw e, st') →
  st' = st ∨
  ∃ customerId stSub rest,
    StripeApi.subscriptions_list stripe customerId "active" 1%nat = Return (stSub :: rest) ∧
    e = conflict_synced ∧
    st' = final (Subscription_upsert
                   (all_features_doc now userId (Some customerId) stSub plan) st).
Proof.
  intros H. unfold createSubscriptionCheckoutSession, User_findById in H.
  rewrite bind_read in H. destruct (users st !! userId) as [u|]; [|left; thrown H].
  destruct (getActive_run now userId st) as [found Hrun].
  rewrite (bind_Return _ _ _ _ _ Hrun) in H.
  destruct found; [left; thrown H|].
  unfold bind at 1 in H. pose proof (pure_customer stripe userId u st) as Hpure.
  unfold final in Hpure.
  destruct (getOrCreateCustomer stripe userId u st) as [[customerId|e'] st1];
    simpl in Hpure; subst st1; [|left; thrown H].
  rewrite bind_external in H.
  destruct (StripeApi.subscriptions_list stripe customerId "active" 1%nat)
    as [[|stSub rest]|] eqn:Hlist; [| |left; thrown H].
  - unfold AppSettings_get_text in H. rewrite bind_read in H.
    destruct (truthy _); [|left; thrown H].
    unfold external in H. injection H as _ <-. by left.
  - unfold bind in H.
    destruct (upsert_cases (all_features_doc now userId (Some customerId) stSub plan) st)
      as [Hup | (subs' & Hup & _)]; rewrite Hup in H.
    + left. thrown H.
    + right. exists customerId, stSub, rest. split; [done|].
      unfold throw in H. injection H as <- <-. rewrite Hup. done.
Qed.

(** C8 (amended). With settings and purchased amounts that are not negative,
    a reconciliation call (checkout creation, cancel, reactivate, switch plan,
    billing portal, verify session, either sync) that ends by throwing leaves
    the store exactly as it found it, with one exception: subscription
    checkout creation, on finding an active subscription of the customer at
    the processor, first upserts it into the local subscription records and
    then reports the conflict; balance, ledger and journal are untouched
    there too. *)
Theorem reconciliation_errors_leave_no_write (stripe : StripeApi.t) (now : Z)
    (o : ReconciliationOp) (st : Store) (e : exn) (st' : Store) :
  settings_nonneg st → sessions_well_formed stripe →
  reconcile stripe now o st = (Throw e, st') →
  st' = st ∨
  ∃ userId plan customerId stSub rest,
    o = CreateSubscriptionCheckout userId plan ∧
    StripeApi.subscriptions_list stripe customerId "active" 1%nat = Return (stSub :: rest) ∧
    e = conflict_synced ∧
    st' = final (Subscription_upsert
                   (all_features_doc now userId (Some customerId) stSub plan) st) ∧
    users st' = users st ∧ creditLogs st' = creditLogs st ∧
    transactions st' = transactions st.
Proof.
  intros Hset Hwf H.
  assert (Hvoid : ∀ A (m : Async A), void m st = (Throw e, st') → m st = (Throw e, st')).
  { intros A m Hm. unfold void, bind, ret in Hm.
    destruct (m st) as [[a|e1] st1]; [discriminate | by injection Hm as -> ->]. }
  destruct o; simpl in H; apply Hvoid in H.
  - left. by eapply pure_fail_closed; [apply pure_createCreditCheckoutSession|].
  - apply createSubscriptionCheckout_throws in H
      as [-> | (customerId & stSub & rest & Hlist & -> & ->)]; [by left|].
    right. exists userId, plan, customerId, stSub, rest.
    do 4 (split; [done|]).
    destruct (upsert_cases (all_features_doc now userId (Some customerId) stSub plan) st)
      as [Hup | (subs' & Hup & _)]; by rewrite Hup.
  - left. by eapply cancel_fail_closed.
  - left. by eapply reactivate_fail_closed.
  - left. by eapply switchPlan_fail_closed.
  - left. by eapply pure_fail_closed; [apply pure_createBillingPortalSession|].
  - left. by eapply verify_fail_closed.
  - left. by eapply syncSubscription_fail_closed.
  - left. by eapply syncTransactions_fail_closed.
Qed.

Lemma offline_sessions_well_formed : sessions_well_formed offline.
Proof. intros sessionId session credits H. discriminate. Qed.

Lemma cancel_offline_scenario :
  let call := reconcile offline 2000 (Cancel "u1") store_subscribed in
  outcome call = Throw unreachable ∧ final call = store_subscribed.
Proof.
  cbv zeta.
  destruct (reconciliation_errors_leave_no_write offline 2000 (Cancel "u1")
              store_subscribed unreachable
              (final (reconcile offline 2000 (Cancel "u1") store_subscribed))
              (no_settings_nonneg store_subscribed eq_refl)
              offline_sessions_well_formed eq_refl)
    as [Hsame | (userId & plan & _ & _ & _ & Hop & _)].
  - split; [reflexivity | exact Hsame].
  - discriminate Hop.
Defined.

(** C8 as the specification states it fails: the already-subscribed conflict of the
    subscription checkout is reported after the processor's subscription has
    been written to the local records. *)
Lemma conflict_is_reported_after_the_upsert :
  let call := reconcile holds_sub_7 2000 (CreateSubscriptionCheckout "u1" monthly) in
  outcome (call store_2_credits) = Throw conflict_synced ∧
  subscriptions store_2_credits = [] ∧
  (Subscription.stripeSubscriptionId <$> subscriptions (final (call store_2_credits)))
    = [Some "sub_7"] ∧
  (Subscription.status <$> subscriptions (final (call store_2_credits))) = ["active"].
Proof. by vm_compute. Qed.

(* ------------------------------------------------------------------ *)
(** ** The status of a subscription record *)

Lemma keeps_handleInvoicePaymentSucceeded (invoice : StripeInvoice.t) :
  keeps_subscriptions (handleInvoicePaymentSucceeded invoice).
Proof.
  unfold handleInvoicePaymentSucceeded, Subscription_findOne, Transaction_findOne.
  keeping. apply keeps_pure, pure_creditLimitForPlan.
Qed.

Lemma keeps_syncTransactions (stripe : StripeApi.t) (userId : string) :
  keeps_subscriptions (syncTransactionsFromStripe stripe userId).
Proof.
  unfold syncTransactionsFromStripe, User_findById.
  apply keeps_bind; [by apply keeps_pure, pure_read|]. intros [u|];
    [|by apply keeps_pure, pure_throw].
  apply keeps_bind; [apply keeps_pure, pure_resolveCustomer|].
  intros [customerId|]; [|by apply keeps_pure, pure_ret].
  apply keeps_bind; [by apply keeps_pure, pure_external|]. intros charges.
  apply keeps_bind; [by apply keeps_pure, pure_external|]. intros paymentIntents.
  apply keeps_bind.
  { apply keeps_for_of. intros n charge. unfold import_charge, Transaction_findOne.
    keeping. }
  intros n1. apply keeps_bind; [|intros; by apply keeps_pure, pure_ret].
  apply keeps_for_of. intros n pi. unfold import_payment_intent, Transaction_findOne.
  keeping; apply keeps_pure, pure_detect_plan.
Qed.

Section Transitions.
Variable stripe : StripeApi.t.
Variable now : Z.
Variables (st : Store) (i : nat) (r : Subscription.t).
Hypothesis Hr : subscriptions st !! i = Some r.

Lemma checkout_at (session : StripeSession.t) (r' : Subscription.t) :
  subscriptions (final (handleCheckoutCompleted stripe now session st)) !! i = Some r' →
  r' = r ∨
  ∃ sid stripeSub,
    StripeSession.subscription_id session = Some sid ∧
    StripeApi.subscriptions_retrieve stripe sid = Return stripeSub ∧
    Subscription.stripeSubscriptionId r = Some sid ∧
    Subscription.status r' = StripeSubscription.status stripeSub.
Proof.
  unfold handleCheckoutCompleted.
  destruct (StripeSession.metadata session) as [credits|plan|other].
  - match goal with |- context [final (?m st)] =>
      assert (Hk : keeps_subscriptions m) by keeping end.
    rewrite Hk. intros ?. left. congruence.
  - destruct (StripeSession.subscription_id session) as [sid|];
      [|intros ?; left; unfold throw, final in *; simpl in *; congruence].
    rewrite final_bind. unfold external at 1.
    destruct (StripeApi.subscriptions_retrieve stripe sid) as [stripeSub|] eqn:Hret;
      [|intros ?; left; congruence].
    destruct (extractPeriodDates now stripeSub) as [ps pe].
    rewrite bind_keeps_after.
    2: { intros a. keeping. apply keeps_pure, pure_creditLimitForPlan. }
    intros H. apply (upsert_at _ _ _ _ _ Hr) in H as [-> | (-> & _ & Hs)]; [by left|].
    right. exists sid, stripeSub. done.
  - intros ?. left. unfold ret, final in *; simpl in *; congruence.
Qed.

Lemma updated_at (sub : StripeSubscription.t) (r' : Subscription.t) :
  subscriptions (final (handleSubscriptionUpdated now sub st)) !! i = Some r' →
  r' = r ∨
  (Subscription.stripeSubscriptionId r = Some (StripeSubscription.id sub) ∧
   Subscription.status r' = StripeSubscription.status sub).
Proof.
  unfold handleSubscriptionUpdated, Subscription_findOne. rewrite final_bind.
  unfold read at 1.
  destruct (findOne _ (subscriptions st)) as [[j x]|] eqn:Hf;
    [|intros ?; left; unfold ret, final in *; simpl in *; congruence].
  apply by_stripe_id_found in Hf as [Hj Hs].
  destruct (extractPeriodDates now sub) as [ps pe].
  intros H. apply (save_at _ _ _ _ _ _ Hr) in H as [-> | [-> ->]]; [by left|].
  right. simplify_eq. split; [done|]. by destruct (truthy _).
Qed.

Lemma deleted_at (sub : StripeSubscription.t) (r' : Subscription.t) :
  subscriptions (final (handleSubscriptionDeleted sub st)) !! i = Some r' →
  r' = r ∨ Subscription.status r' = "expired".
Proof.
  unfold handleSubscriptionDeleted, Subscription_findOne. rewrite final_bind.
  unfold read at 1.
  destruct (findOne _ (subscriptions st)) as [[j x]|] eqn:Hf;
    [|intros ?; left; unfold ret, final in *; simpl in *; congruence].
  rewrite bind_keeps_after by (intros ? ?; reflexivity).
  intros H. apply (save_at _ _ _ _ _ _ Hr) in H as [-> | [-> ->]]; [by left | by right].
Qed.

Lemma failed_at (invoice : StripeInvoice.t) (r' : Subscription.t) :
  subscriptions (final (handlePaymentFailed invoice st)) !! i = Some r' →
  r' = r ∨
  (Subscription.stripeSubscriptionId r = StripeInvoice.subscription invoice ∧
   Subscription.status r' = "past_due").
Proof.
  unfold handlePaymentFailed, Subscription_findOne. rewrite final_bind.
  unfold read at 1.
  destruct (findOne _ (subscriptions st)) as [[j x]|] eqn:Hf;
    [|intros ?; left; unfold ret, final in *; simpl in *; congruence].
  apply by_stripe_id_found in Hf as [Hj Hs].
  rewrite bind_keeps_after by (intros ?; keeping).
  intros H. apply (save_at _ _ _ _ _ _ Hr) in H as [-> | [-> ->]]; [by left|].
  right. simplify_eq. done.
Qed.

Lemma cancel_at (userId : string) (r' : Subscription.t) :
  subscriptions (final (cancelSubscription stripe now userId st)) !! i = Some r' →
  Subscription.status r' = Subscription.status r.
Proof.
  unfold cancelSubscription.
  destruct (getActive_run now userId st) as [found Hrun].
  rewrite final_bind, Hrun.
  destruct found as [[j x]|]; [|intros ?; unfold throw, final in *; simpl in *; congruence].
  apply getActive_Some in Hrun as [Hj _].
  destruct (Subscription.stripeSubscriptionId x);
    [|intros ?; unfold throw, final in *; simpl in *; congruence].
  rewrite final_bind. unfold external at 1.
  destruct (StripeApi.subscriptions_update_cancel _ _ _); [|intros ?; congruence].
  rewrite bind_keeps_after by (intros ?; by apply keeps_pure, pure_ret).
  intros H. apply (save_at _ _ _ _ _ _ Hr) in H as [-> | [-> ->]]; [done|].
  by simplify_eq.
Qed.

Lemma reactivate_at (userId : string) (r' : Subscription.t) :
  subscriptions (final (reactivateSubscription stripe userId st)) !! i = Some r' →
  Subscription.status r' = Subscription.status r.
Proof.
  unfold reactivateSubscription, Subscription_findOne. rewrite final_bind.
  unfold read at 1.
  destruct (findOne _ (subscriptions st)) as [[j x]|] eqn:Hf;
    [|intros ?; unfold throw, final in *; simpl in *; congruence].
  apply pending_valid in Hf as [Hj _].
  destruct (Subscription.stripeSubscriptionId x);
    [|intros ?; unfold throw, final in *; simpl in *; congruence].
  rewrite final_bind. unfold external at 1.
  destruct (StripeApi.subscriptions_update_cancel _ _ _); [|intros ?; congruence].
  rewrite bind_keeps_after by (intros ?; by apply keeps_pure, pure_ret).
  intros H. apply (save_at _ _ _ _ _ _ Hr) in H as [-> | [-> ->]]; [done|].
  by simplify_eq.
Qed.

Lemma switchPlan_at (userId : string) (newPlan : Plan) (r' : Subscription.t) :
  subscriptions (final (switchPlan stripe now userId newPlan st)) !! i = Some r' →
  Subscription.status r' = Subscription.status r.
Proof.
  unfold switchPlan.
  destruct (getActive_run now userId st) as [found Hrun].
  rewrite final_bind, Hrun.
  destruct found as [[j x]|]; [|intros ?; unfold throw, final in *; simpl in *; congruence].
  apply getActive_Some in Hrun as [Hj _].
  destruct (plan_eqb _ _); [intros ?; unfold throw, final in *; simpl in *; congruence|].
  destruct (Subscription.cancelAtPeriodEnd x);
    [intros ?; unfold throw, final in *; simpl in *; congruence|].
  unfold AppSettings_get_text. rewrite final_bind. unfold read at 1.
  destruct (negb _); [intros ?; unfold throw, final in *; simpl in *; congruence|].
  destruct (Subscription.stripeSubscriptionId x);
    [|intros ?; unfold throw, final in *; simpl in *; congruence].
  rewrite final_bind. unfold external at 1.
  destruct (StripeApi.subscriptions_retrieve _ _) as [stripeSub|]; [|intros ?; congruence].
  destruct (StripeSubscription.items stripeSub) as [|item items];
    [intros ?; unfold throw, final in *; simpl in *; congruence|].
  rewrite final_bind. unfold external at 1.
  destruct (StripeApi.subscriptions_update_price _ _ _ _) as [updated|];
    [|intros ?; congruence].
  destruct (extractPeriodDates now updated) as [ps pe].
  rewrite bind_keeps_after by (intros ?; by apply keeps_pure, pure_ret).
  intros H. apply (save_at _ _ _ _ _ _ Hr) in H as [-> | [-> ->]]; [done|].
  by simplify_eq.
Qed.

Lemma doc_status (userId : string) (customerId : option string)
    (stripeSub : StripeSubscription.t) (plan : Plan) :
  Subscription.status (all_features_doc now userId customerId stripeSub plan)
    = StripeSubscription.status stripeSub ∧
  Subscription.stripeSubscriptionId (all_features_doc now userId customerId stripeSub plan)
    = Some (StripeSubscription.id stripeSub).
Proof. unfold all_features_doc. by destruct (extractPeriodDates now stripeSub). Qed.

Lemma createSubscriptionCheckout_at (userId : string) (plan : Plan) (r' : Subscription.t) :
  subscriptions (final (createSubscriptionCheckoutSession stripe now userId plan st)) !! i
    = Some r' →
  r' = r ∨
  ∃ stripeSub, listed stripe stripeSub ∧
    Subscription.stripeSubscriptionId r = Some (StripeSubscription.id stripeSub) ∧
    Subscription.status r' = StripeSubscription.status stripeSub.
Proof.
  unfold createSubscriptionCheckoutSession, User_findById. rewrite final_bind.
  unfold read at 1.
  destruct (users st !! userId) as [u|];
    [|intros ?; left; unfold throw, final in *; simpl in *; congruence].
  destruct (getActive_run now userId st) as [found Hrun].
  rewrite final_bind, Hrun.
  destruct found; [intros ?; left; unfold throw, final in *; simpl in *; congruence|].
  rewrite final_bind. pose proof (pure_customer stripe userId u st) as Hpure.
  unfold final in Hpure.
  destruct (getOrCreateCustomer stripe userId u st) as [[customerId|e'] st1];
    simpl in Hpure; subst st1; [|intros ?; left; congruence].
  rewrite final_bind. unfold external at 1.
  destruct (StripeApi.subscriptions_list stripe customerId "active" 1%nat)
    as [[|stSub rest]|] eqn:Hlist; [| |intros ?; left; congruence].
  - match goal with |- context [final (?m st)] =>
      assert (Hk : pure m) by (unfold AppSettings_get_text; purity) end.
    rewrite Hk. intros ?. left. congruence.
  - rewrite bind_keeps_after by (intros ?; by apply keeps_pure, pure_throw).
    intros H. apply (upsert_at _ _ _ _ _ Hr) in H as [-> | (-> & _ & Hs)]; [by left|].
    right. exists stSub. destruct (doc_status userId (Some customerId) stSub plan) as [Hd1 Hd2].
    split; [|split; [congruence | done]].
    exists customerId, "active", 1%nat, (stSub :: rest). split; [done | left].
Qed.

Lemma syncSubscription_at (userId : string) (r' : Subscription.t) :
  subscriptions (final (syncSubscriptionFromStripe stripe now userId st)) !! i = Some r' →
  r' = r ∨
  ∃ stripeSub, listed stripe stripeSub ∧
    Subscription.stripeSubscriptionId r = Some (StripeSubscription.id stripeSub) ∧
    Subscription.status r' = StripeSubscription.status stripeSub.
Proof.
  unfold syncSubscriptionFromStripe, User_findById. rewrite final_bind.
  unfold read at 1.
  destruct (users st !! userId) as [u|];
    [|intros ?; left; unfold throw, final in *; simpl in *; congruence].
  rewrite final_bind. pose proof (pure_resolveCustomer stripe userId u st) as Hpure.
  unfold final in Hpure.
  destruct (resolveCustomer stripe userId u st) as [[[customerId|]|e'] st1];
    simpl in Hpure; subst st1;
    [| intros ?; left; unfold ret, final in *; simpl in *; congruence
     | intros ?; left; congruence].
  rewrite final_bind. unfold external at 1.
  destruct (StripeApi.subscriptions_list stripe customerId "active" 5%nat)
    as [subs|] eqn:Hactive; [|intros ?; left; congruence].
  rewrite final_bind. unfold external at 1.
  destruct (StripeApi.subscriptions_list stripe customerId "trialing" 5%nat)
    as [trialSubs|] eqn:Htrial; [|intros ?; left; congruence].
  destruct (subs ++ trialSubs) as [|stripeSub rest] eqn:Hall;
    [intros ?; left; unfold ret, final in *; simpl in *; congruence|].
  rewrite bind_keeps_after by (intros ?; by apply keeps_pure, pure_ret).
  intros H. apply (upsert_at _ _ _ _ _ Hr) in H as [-> | (-> & _ & Hs)]; [by left|].
  right. exists stripeSub.
  match type of Hs with context [all_features_doc _ _ _ _ ?p] =>
    destruct (doc_status userId (Some customerId) stripeSub p) as [Hd1 Hd2] end.
  split; [|split; [congruence | done]].
  assert (Hin : stripeSub ∈ subs ++ trialSubs) by (rewrite Hall; left).
  apply elem_of_app in Hin as [Hin|Hin].
  - by exists customerId, "active", 5%nat, subs.
  - by exists customerId, "trialing", 5%nat, trialSubs.
Qed.

Lemma verify_at (sessionId userId : string) (r' : Subscription.t) :
  subscriptions (final (verifyAndProcessSession stripe now sessionId userId st)) !! i
    = Some r' →
  r' = r ∨
  ∃ session sid stripeSub,
    StripeApi.checkout_sessions_retrieve stripe sessionId = Return (Some session) ∧
    StripeSession.subscription_id session = Some sid ∧
    StripeApi.subscriptions_retrieve stripe sid = Return stripeSub ∧
    Subscription.stripeSubscriptionId r = Some sid ∧
    Subscription.status r' = StripeSubscription.status stripeSub.
Proof.
  unfold verifyAndProcessSession, Transaction_findOne. rewrite final_bind.
  unfold read at 1.
  destruct (snd <$> findOne _ (transactions st));
    [intros ?; left; unfold ret, final in *; simpl in *; congruence|].
  rewrite final_bind. unfold external at 1.
  destruct (StripeApi.checkout_sessions_retrieve stripe sessionId) as [[session|]|] eqn:Hs;
    [| intros ?; left; unfold throw, final in *; simpl in *; congruence
     | intros ?; left; congruence].
  destruct (negb _); [intros ?; left; unfold throw, final in *; simpl in *; congruence|].
  destruct (negb _); [intros ?; left; unfold throw, final in *; simpl in *; congruence|].
  rewrite bind_keeps_after by (intros ?; keeping).
  intros H. apply checkout_at in H as [-> | (sid & stripeSub & ? & ? & ? & ?)]; [by left|].
  right. by exists session, sid, stripeSub.
Qed.

End Transitions.

Lemma every_transition (stripe : StripeApi.t) (now : Z) (o : SubscriptionOp) (st : Store)
    (i : nat) (r r' : Subscription.t) :
  subscriptions st !! i = Some r →
  subscriptions (final (subscription_call stripe now o st)) !! i = Some r' →
  transition stripe o r r'.
Proof.
  intros Hr H. unfold transition, status_origin.
  destruct o as [event | o]; cbn [subscription_call] in H.
  - destruct event as [session | sub | sub | invoice | invoice | type];
      cbn [handleWebhookEvent] in H.
    + apply (checkout_at _ _ _ _ _ Hr) in H
        as [-> | (sid & stripeSub & ? & ? & ? & ?)]; [by left|].
      right; right; right. exists sid, stripeSub. done.
    + apply (updated_at _ _ _ _ Hr) in H as [-> | [? ?]]; [by left|].
      right; right; right. exists (StripeSubscription.id sub), sub. done.
    + apply (deleted_at _ _ _ Hr) in H as [-> | ?]; [by left | by right; left].
    + rewrite keeps_handleInvoicePaymentSucceeded in H. left. congruence.
    + apply (failed_at _ _ _ Hr) in H as [-> | [? ?]]; [by left|].
      right; right; left. by exists invoice.
    + left. unfold ret, final in H. simpl in H. congruence.
  - destruct o; cbn [reconcile] in H; rewrite keeps_void in H.
    + rewrite (pure_createCreditCheckoutSession stripe userId creditAmount st) in H.
      left. congruence.
    + apply (createSubscriptionCheckout_at _ _ _ _ _ Hr) in H
        as [-> | (stripeSub & ? & ? & ?)]; [by left|].
      right; right; right. exists (StripeSubscription.id stripeSub), stripeSub. done.
    + left. by eapply cancel_at.
    + left. by eapply reactivate_at.
    + left. by eapply switchPlan_at.
    + rewrite (pure_createBillingPortalSession stripe userId st) in H. left. congruence.
    + apply (verify_at _ _ _ _ _ Hr) in H
        as [-> | (session & sid & stripeSub & ? & ? & ? & ? & ?)]; [by left|].
      right; right; right. exists sid, stripeSub. split; [done|]. split; [|done].
      by exists session.
    + apply (syncSubscription_at _ _ _ _ _ Hr) in H
        as [-> | (stripeSub & ? & ? & ?)]; [by left|].
      right; right; right. exists (StripeSubscription.id stripeSub), stripeSub. done.
    + rewrite keeps_syncTransactions in H. left. congruence.
Qed.

(** C7 (amended). Nothing in the handlers guards the status of a record
    against what it was before. A record whose status is expired gets another
    status only from an operation that writes for the record's own
    subscription reference: a failed invoice payment sets past due, and a
    checkout-completed event (from the webhook or from session verification),
    a subscription-updated event, a subscription sync or the creation of a
    subscription checkout copy the status the processor reports, active and
    trialing included. Subscription-deleted and invoice-payment-succeeded
    events, and the cancel, reactivate and switch-plan calls, leave an
    expired record expired. *)
Theorem expired_record_changes_only_by_processor_status
    (stripe : StripeApi.t) (now : Z) (o : SubscriptionOp) (st : Store)
    (i : nat) (r r' : Subscription.t) :
  subscriptions st !! i = Some r →
  Subscription.status r = "expired" →
  subscriptions (final (subscription_call stripe now o st)) !! i = Some r' →
  Subscription.status r' ≠ "expired" →
  status_origin stripe o r r'.
Proof.
  intros Hr Hexp Hr' Hne.
  destruct (every_transition stripe now o st i r r' Hr Hr') as [H | [H | H]];
    [congruence | congruence | exact H].
Qed.

Lemma late_update_scenario :
  status_origin offline (Webhook (customer_subscription_updated sub_1_active))
    expired_sub_1 revived_sub_1.
Proof.
  apply (expired_record_changes_only_by_processor_status offline 2000
           (Webhook (customer_subscription_updated sub_1_active)) store_expired
           0%nat expired_sub_1 revived_sub_1).
  - reflexivity.
  - reflexivity.
  - reflexivity.
  - discriminate.
Defined.

(** C7 as the specification states it fails: a subscription-updated event alone moves an
    expired record back to active, and a record that reads active (period end
    5000, time 2000) is an active subscription again. *)
Lemma late_update_revives_expired_record :
  let deliver := handleWebhookEvent offline 2000 (customer_subscription_updated sub_1_active) in
  (Subscription.status <$> subscriptions store_expired) = ["expired"] ∧
  outcome (Subscription_isUserSubscribed 2000 "u1" store_expired) = Return false ∧
  outcome (deliver store_expired) = Return tt ∧
  (Subscription.status <$> subscriptions (final (deliver store_expired))) = ["active"] ∧
  outcome (Subscription_isUserSubscribed 2000 "u1" (final (deliver store_expired)))
    = Return true.
Proof. by vm_compute. Qed.

(* ------------------------------------------------------------------ *)
(** ** Calls with no credit side effect *)

Lemma keeps_ledger_pure {A} (m : Async A) : pure m → keeps_ledger m.
Proof. intros H st. by rewrite H. Qed.

Lemma keeps_ledger_bind {A B} (m : Async A) (k : A → Async B) :
  keeps_ledger m → (∀ a, keeps_ledger (k a)) → keeps_ledger (bind m k).
Proof.
  intros Hm Hk st. rewrite final_bind. specialize (Hm st). unfold final in Hm.
  destruct (m st) as [[a|e] st1]; simpl in Hm; [|done].
  destruct Hm as (<- & <- & <-). apply Hk.
Qed.

Lemma keeps_ledger_save (i : nat) (r : Subscription.t) :
  keeps_ledger (Subscription_save i r).
Proof. intros st. unfold Subscription_save. by destruct (bool_decide _). Qed.

Lemma keeps_ledger_upsert (doc : Subscription.t) : keeps_ledger (Subscription_upsert doc).
Proof.
  intros st. destruct (upsert_cases doc st) as [-> | (subs' & -> & _)]; done.
Qed.

Lemma keeps_ledger_write_resumes (f : list Resume.t → list Resume.t) :
  keeps_ledger (write (set_resumes f)).
Proof. done. Qed.

Ltac ledger_frame :=
  repeat first
    [ apply keeps_ledger_save | apply keeps_ledger_upsert | apply keeps_ledger_write_resumes
    | apply keeps_ledger_pure; solve [purity]
    | apply keeps_ledger_bind; [|intros ?]
    | case_match ].

(** X1. Subscription-updated and subscription-deleted events, unhandled
    events, and the checkout-creation, cancel, reactivate, switch-plan,
    billing-portal and subscription-sync calls have no credit side effect:
    whatever they return or throw, every balance, the ledger and the journal
    are as before. In particular switching plans grants no credits by
    itself. *)
Theorem entitlement_calls_have_no_credit_side_effect
    (stripe : StripeApi.t) (now : Z) (o : SubscriptionOp) :
  entitlement_only o = true → keeps_ledger (subscription_call stripe now o).
Proof.
  intros Honly.
  destruct o as [[session | sub | sub | invoice | invoice | type] | o];
    try discriminate Honly; cbn [subscription_call handleWebhookEvent].
  - unfold handleSubscriptionUpdated, Subscription_findOne. ledger_frame.
  - unfold handleSubscriptionDeleted, Subscription_findOne. ledger_frame.
  - by apply keeps_ledger_pure, pure_ret.
  - destruct o; try discriminate Honly; cbn [reconcile]; unfold void;
      (apply keeps_ledger_bind; [|intros ?; by apply keeps_ledger_pure, pure_ret]).
    + apply keeps_ledger_pure, pure_createCreditCheckoutSession.
    + unfold createSubscriptionCheckoutSession, User_findById,
        Subscription_getActiveForUser, Subscription_findOne, AppSettings_get_text.
      ledger_frame.
    + unfold cancelSubscription, Subscription_getActiveForUser, Subscription_findOne.
      ledger_frame.
    + unfold reactivateSubscription, Subscription_findOne. ledger_frame.
    + unfold switchPlan, Subscription_getActiveForUser, Subscription_findOne,
        AppSettings_get_text.
      ledger_frame.
    + apply keeps_ledger_pure, pure_createBillingPortalSession.
    + unfold syncSubscriptionFromStripe, User_findById. ledger_frame.
Qed.

Lemma switch_plan_scenario :
  let call := subscription_call switches_sub_1 2000 (Reconcile (SwitchPlan "u1" monthly)) in
  keeps_ledger call ∧
  outcome (call store_priced) = Return tt ∧
  (Subscription.plan <$> subscriptions (final (call store_priced))) = [monthly] ∧
  balance_of "u1" (final (call store_priced)) = balance_of "u1" store_priced.
Proof.
  split; [|by vm_compute].
  exact (entitlement_calls_have_no_credit_side_effect switches_sub_1 2000
           (Reconcile (SwitchPlan "u1" monthly)) eq_refl).
Defined.

(* ------------------------------------------------------------------ *)
(** ** Verification after a processed checkout *)

Lemma findOne_is_Some {A} (p : A → bool) (l : list A) (x : A) :
  x ∈ l → p x = true → ∃ i y, findOne p l = Some (i, y).
Proof.
  intros Hin Hp. destruct (findOne p l) as [[i y]|] eqn:Hf; [eauto|].
  rewrite findOne_None in Hf. apply Hf in Hin. congruence.
Qed.

(** X2. Once a checkout-completed event for a credit purchase (of an amount
    that is not negative) has been processed, a manual verification of the
    same session finds the completed journal entry, answers
    [alreadyProcessed] with an entry of that session, and writes nothing: the
    purchase is credited once. *)
Theorem verification_after_checkout_is_noop
    (stripe : StripeApi.t) (now : Z) (session : StripeSession.t) (credits : Z)
    (userId : string) (st : Store) :
  StripeSession.metadata session = StripeSession.credit_purchase credits →
  0 ≤ credits →
  let processed := final (handleCheckoutCompleted stripe now session st) in
  ∃ tx, verifyAndProcessSession stripe now (StripeSession.id session) userId processed
          = (Return (Verification.mk true (Some tx)), processed) ∧
        tx ∈ transactions processed ∧
        Transaction.stripeSessionId tx = Some (StripeSession.id session) ∧
        Transaction.status tx = Transaction.completed.
Proof.
  intros Hmeta Hpos processed.
  set (p := λ t : Transaction.t,
         opt_eqb (Transaction.stripeSessionId t) (Some (StripeSession.id session)) &&
         match Transaction.status t with Transaction.completed => true | _ => false end).
  assert (Hjournal : ∃ t, t ∈ transactions processed ∧ p t = true).
  { subst processed. unfold handleCheckoutCompleted. rewrite Hmeta.
    unfold User_findByIdAndUpdate_inc, Transaction_create, CreditLog_create.
    unfold bind, write, ret, throw, final.
    destruct (users st !! StripeSession.metadata_userId session);
      cbn [Transaction.type CreditLog.credits CreditLog.description fst snd];
      rewrite bool_decide_eq_true_2 by (unfold Transaction.type_enum; set_solver);
      rewrite (proj2 (Z.ltb_ge credits 0) Hpos), nonempty_string;
      cbn [fst snd transactions set_transactions set_creditLogs set_users];
      (eexists; split; [apply elem_of_app; right; left|]);
      unfold p; cbn [Transaction.stripeSessionId Transaction.status];
      by rewrite opt_eqb_refl. }
  destruct Hjournal as (t & Hin & Hp).
  destruct (findOne_is_Some p _ t Hin Hp) as (i & tx & Hf).
  exists tx. unfold verifyAndProcessSession, Transaction_findOne.
  rewrite bind_read. fold p. rewrite Hf. cbn [fmap option_fmap option_map snd].
  apply findOne_Some in Hf as (Hl & Hptx & _).
  split; [reflexivity|]. split; [by eapply list_elem_of_lookup_2|].
  unfold p in Hptx. apply andb_true_iff in Hptx as [Hs Hc].
  apply opt_eqb_eq in Hs. split; [done|].
  by destruct (Transaction.status tx).
Qed.

Lemma verification_after_webhook_scenario :
  let processed := final (handleCheckoutCompleted offline 0 sess_1 store_2_credits) in
  balance_of "u1" processed = Some 12 ∧
  ∃ tx, verifyAndProcessSession knows_sess_1 0 "sess_1" "u1" processed
          = (Return (Verification.mk true (Some tx)), processed).
Proof.
  split; [by vm_compute|].
  destruct (verification_after_checkout_is_noop knows_sess_1 0 sess_1 10 "u1"
              store_2_credits eq_refl) as (tx & Hrun & _).
  - done.
  - exists tx. exact Hrun.
Defined.

(* ------------------------------------------------------------------ *)
(** ** Subscription deleted *)

(** X3. A subscription-deleted event for a subscription with a local record
    sets the first record carrying that reference to expired, whatever its
    status was, and flips every public, undeleted resume of its owner to
    private; nothing else changes. *)
Theorem subscription_deleted_expires_and_privatizes
    (sub : StripeSubscription.t) (st : Store) (i : nat) (r : Subscription.t) :
  subscriptions st !! i = Some r →
  Subscription.stripeSubscriptionId r = Some (StripeSubscription.id sub) →
  (∀ j y, (j < i)%nat → subscriptions st !! j = Some y →
          Subscription.stripeSubscriptionId y ≠ Some (StripeSubscription.id sub)) →
  let st' := final (handleSubscriptionDeleted sub st) in
  outcome (handleSubscriptionDeleted sub st) = Return tt ∧
  subscriptions st' = <[i := Subscription.set_status "expired" r]> (subscriptions st) ∧
  resumes st' = map (privatize (Subscription.userId r)) (resumes st) ∧
  (∀ resume, resume ∈ resumes st' → Resume.userId resume = Subscription.userId r →
             Resume.isDeleted resume = false → Resume.visibility resume = Resume.private) ∧
  users st' = users st ∧ creditLogs st' = creditLogs st ∧ transactions st' = transactions st.
Proof.
  intros Hr Hid Hfirst st'.
  assert (Hf : findOne (by_stripe_id (Some (StripeSubscription.id sub))) (subscriptions st)
               = Some (i, r)).
  { destruct (findOne _ (subscriptions st)) as [[j y]|] eqn:Hf.
    - apply findOne_Some in Hf as (Hj & Hp & Hmin).
      apply opt_eqb_eq in Hp.
      destruct (Nat.lt_trichotomy j i) as [Hlt | [-> | Hgt]].
      + exfalso. by apply (Hfirst j y).
      + congruence.
      + specialize (Hmin i r Hgt Hr). unfold by_stripe_id in Hmin.
        rewrite Hid, opt_eqb_refl in Hmin. discriminate.
    - rewrite findOne_None in Hf. apply list_elem_of_lookup_2 in Hr.
      apply Hf in Hr. unfold by_stripe_id in Hr. rewrite Hid, opt_eqb_refl in Hr.
      discriminate. }
  subst st'. unfold handleSubscriptionDeleted, Subscription_findOne.
  rewrite bind_read, Hf. unfold bind.
  rewrite save_valid by (unfold Subscription.status_enum; set_solver).
  unfold write, outcome, final. cbn [fst snd].
  repeat split.
  intros resume Hin Hu Hd. cbn [resumes set_resumes set_subscriptions] in Hin.
  apply list_elem_of_fmap in Hin as (resume0 & -> & _).
  unfold privatize in *.
  destruct (str_eqb (Resume.userId resume0) (Subscription.userId r)) eqn:E1;
    destruct (Resume.visibility resume0) eqn:E2;
    destruct (Resume.isDeleted resume0) eqn:E3; simpl in *; try congruence.
  all: rewrite Hu, str_eqb_refl in E1; discriminate.
Qed.

Lemma subscription_deleted_scenario :
  let st' := final (handleSubscriptionDeleted sub_1_active store_with_resumes) in
  (Subscription.status <$> subscriptions st') = ["expired"] ∧
  (Resume.visibility <$> resumes st') = [Resume.private; Resume.private; Resume.public].
Proof.
  destruct (subscription_deleted_expires_and_privatizes sub_1_active store_with_resumes
              0%nat yearly_sub_1 eq_refl eq_refl) as (_ & Hs & Hres & _).
  - intros j y Hj. lia.
  - cbv zeta. rewrite Hs, Hres. by vm_compute.
Defined.

(* ================================================================== *)
(** * Around the billing core *)

(* ------------------------------------------------------------------ *)
(** ** Transaction sync *)

Lemma journal_grows_refl (st : Store) : journal_grows st st [].
Proof. unfold journal_grows. by rewrite app_nil_r. Qed.

Lemma journal_grows_trans (st st1 st2 : Store) (new1 new2 : list Transaction.t) :
  journal_grows st st1 new1 → journal_grows st1 st2 new2 →
  journal_grows st st2 (new1 ++ new2).
Proof.
  unfold journal_grows. intros (A1&A2&A3&A4&A5&A6&A7) (B1&B2&B3&B4&B5&B6&B7).
  rewrite B7, A7, app_assoc. repeat split; congruence.
Qed.

Lemma journal_grows_create (t : Transaction.t) (st : Store) :
  journal_grows st (set_transactions (λ l, l ++ [t]) st) [t].
Proof. by unfold journal_grows. Qed.

Lemma charge_known_mono userId charge l l' :
  charge_known userId charge l → charge_known userId charge (l ++ l').
Proof.
  intros [H|(t & Ht & H)]; [by left|]. right. exists t. split; [|done].
  apply elem_of_app. by left.
Qed.

Lemma payment_intent_known_mono userId pi l l' :
  payment_intent_known userId pi l → payment_intent_known userId pi (l ++ l').
Proof.
  intros [H|(t & Ht & H)]; [by left|]. right. exists t. split; [|done].
  apply elem_of_app. by left.
Qed.

Lemma findOne_hit {A} (p : A → bool) (l : list A) :
  is_Some (findOne p l) ↔ ∃ x, x ∈ l ∧ p x = true.
Proof.
  split.
  - intros [[i x] H]. apply findOne_Some in H as (Hl & Hp & _).
    exists x. split; [by eapply list_elem_of_lookup_2 | done].
  - intros (x & Hx & Hp). destruct (findOne p l) eqn:E; [done|].
    rewrite findOne_None in E. rewrite (E x Hx) in Hp. done.
Qed.

Lemma synced_types_valid (type : string) :
  type ∈ ["credit_purchase"; "subscription_payment"; "subscription_renewal"] →
  type ∈ Transaction.type_enum.
Proof.
  rewrite !elem_of_cons, elem_of_nil. unfold Transaction.type_enum.
  intros [->|[->|[->|[]]]]; rewrite !elem_of_cons; auto 10.
Qed.

Lemma import_charge_known stripe userId imported charge st :
  charge_known userId charge (transactions st) →
  import_charge stripe userId imported charge st = (Return imported, st).
Proof.
  intros Hk. unfold import_charge.
  destruct (str_eqb (StripeCharge.status charge) "succeeded") eqn:Es; [|done].
  cbn [negb]. apply str_eqb_eq in Es.
  destruct Hk as [Hk|(t & Ht & Hu & Hm)]; [done|].
  unfold Transaction_findOne. rewrite bind_read.
  match goal with |- context [findOne ?p ?l] =>
    assert (Hs : is_Some (findOne p l)) end.
  { apply findOne_hit. exists t. split; [done|].
    apply andb_true_iff. split; [by apply str_eqb_eq|].
    apply orb_true_iff. destruct Hm as [Hm|Hm]; [left|right]; by apply opt_eqb_eq. }
  destruct Hs as [[i x] ->]. done.
Qed.

Lemma import_charge_spec stripe userId imported charge st :
  ∃ imported' st' new,
    import_charge stripe userId imported charge st = (Return imported', st') ∧
    journal_grows st st' new ∧
    charge_known userId charge (transactions st') ∧
    Forall (synced_entry userId) new ∧
    imported' = imported + Z.of_nat (length new).
Proof.
  unfold import_charge.
  destruct (str_eqb (StripeCharge.status charge) "succeeded") eqn:Es; cbn [negb].
  2:{ exists imported, st, []. split; [done|]. split; [apply journal_grows_refl|].
      split; [|split; [constructor|simpl; lia]].
      left. intros H. apply str_eqb_eq in H. congruence. }
  unfold Transaction_findOne. rewrite bind_read.
  destruct (findOne _ (transactions st)) as [[i x]|] eqn:Ef; cbn [fmap option_fmap option_map snd].
  { exists imported, st, []. split; [done|]. split; [apply journal_grows_refl|].
    split; [|split; [constructor|simpl; lia]].
    apply findOne_Some in Ef as (Hl & Hp & _).
    apply andb_true_iff in Hp as [Hu Hm]. apply str_eqb_eq in Hu.
    apply orb_true_iff in Hm. right. exists x.
    split; [by eapply list_elem_of_lookup_2|]. split; [done|].
    destruct Hm as [Hm|Hm]; apply opt_eqb_eq in Hm; auto. }
  assert (Hclass : ∃ type description inv,
    (if truthy (StripeCharge.invoice charge)
     then classify_invoice stripe (default "" (StripeCharge.invoice charge))
            (StripeCharge.amount charge) (or_else (StripeCharge.currency charge) "usd")
     else ret ("credit_purchase",
               "Credit purchase — " +:+ money (StripeCharge.amount charge)
                  (or_else (StripeCharge.currency charge) "usd"), None)) st
      = (Return (type, description, inv), st) ∧
    type ∈ ["credit_purchase"; "subscription_payment"; "subscription_renewal"]).
  { destruct (truthy _).
    - unfold classify_invoice, try_catch, bind, external, ret.
      destruct (StripeApi.invoices_retrieve stripe _) as [inv|].
      + destruct (str_eqb (StripeInvoice.billing_reason inv) _);
          do 3 eexists; (split; [reflexivity|]); set_solver.
      + do 3 eexists. split; [reflexivity|]. set_solver.
    - do 3 eexists. split; [reflexivity|]. set_solver. }
  destruct Hclass as (type & description & inv & Hrun & Htype).
  rewrite (bind_Return _ _ _ _ _ Hrun). unfold bind. cbn [fst snd].
  rewrite create_valid by (by apply synced_types_valid).
  unfold ret. do 3 eexists. split; [reflexivity|].
  split; [apply journal_grows_create|].
  split; [|split].
  - right. eexists. split.
    + cbn [transactions set_transactions]. apply elem_of_app. right. apply list_elem_of_singleton. reflexivity.
    + cbn. auto.
  - constructor; [|constructor]. unfold synced_entry. cbn. auto 10.
  - simpl. lia.
Qed.

Lemma classified_types (stripe : StripeApi.t) (invoiceId : string) (amount : Z)
    (currency : string) (st : Store) :
  ∃ type description inv,
    classify_invoice stripe invoiceId amount currency st
      = (Return (type, description, inv), st) ∧
    type ∈ ["credit_purchase"; "subscription_payment"; "subscription_renewal"].
Proof.
  unfold classify_invoice, try_catch, bind, external, ret.
  destruct (StripeApi.invoices_retrieve stripe invoiceId) as [inv|].
  - destruct (str_eqb (StripeInvoice.billing_reason inv) _);
      do 3 eexists; (split; [reflexivity|]); rewrite !elem_of_cons; auto.
  - do 3 eexists. split; [reflexivity|]. rewrite !elem_of_cons; auto.
Qed.

Lemma import_payment_intent_known stripe userId imported pi st :
  payment_intent_known userId pi (transactions st) →
  import_payment_intent stripe userId imported pi st = (Return imported, st).
Proof.
  intros Hk. unfold import_payment_intent.
  destruct (str_eqb (StripePaymentIntent.status pi) "succeeded") eqn:Es; [|done].
  cbn [negb]. apply str_eqb_eq in Es.
  destruct Hk as [Hk|(t & Ht & Hu & Hm)]; [done|].
  unfold Transaction_findOne. rewrite bind_read.
  match goal with |- context [findOne ?p ?l] =>
    assert (Hs : is_Some (findOne p l)) end.
  { apply findOne_hit. exists t. split; [done|].
    apply andb_true_iff. split; [by apply str_eqb_eq|].
    apply orb_true_iff. destruct Hm as [Hm|Hm]; [left|right]; by apply opt_eqb_eq. }
  destruct Hs as [[i x] ->]. done.
Qed.

Lemma import_payment_intent_spec stripe userId imported pi st :
  ∃ imported' st' new,
    import_payment_intent stripe userId imported pi st = (Return imported', st') ∧
    journal_grows st st' new ∧
    payment_intent_known userId pi (transactions st') ∧
    Forall (synced_entry userId) new ∧
    imported' = imported + Z.of_nat (length new).
Proof.
  unfold import_payment_intent.
  destruct (str_eqb (StripePaymentIntent.status pi) "succeeded") eqn:Es; cbn [negb].
  2:{ exists imported, st, []. split; [done|]. split; [apply journal_grows_refl|].
      split; [|split; [constructor|simpl; lia]].
      left. intros H. apply str_eqb_eq in H. congruence. }
  unfold Transaction_findOne. rewrite bind_read.
  destruct (findOne _ (transactions st)) as [[i x]|] eqn:Ef; cbn [fmap option_fmap option_map snd].
  { exists imported, st, []. split; [done|]. split; [apply journal_grows_refl|].
    split; [|split; [constructor|simpl; lia]].
    apply findOne_Some in Ef as (Hl & Hp & _).
    apply andb_true_iff in Hp as [Hu Hm]. apply str_eqb_eq in Hu.
    apply orb_true_iff in Hm. right. exists x.
    split; [by eapply list_elem_of_lookup_2|]. split; [done|].
    destruct Hm as [Hm|Hm]; apply opt_eqb_eq in Hm; auto. }
  match goal with |- context [bind ?m _ st] =>
    assert (Hclass : ∃ type description inv,
      m st = (Return (type, description, inv), st) ∧
      type ∈ ["credit_purchase"; "subscription_payment"; "subscription_renewal"])
  end.
  { destruct (truthy _); [apply classified_types|].
    destruct (opt_eqb _ _); do 3 eexists; (split; [reflexivity|]);
      rewrite !elem_of_cons; auto. }
  destruct Hclass as (type & description & inv & Hrun & Htype).
  rewrite (bind_Return _ _ _ _ _ Hrun).
  destruct (detect_plan_run stripe inv st) as [plan Hplan].
  cbn [fst snd]. rewrite (bind_Return _ _ _ _ _ Hplan). unfold bind.
  rewrite create_valid by (by apply synced_types_valid).
  unfold ret. do 3 eexists. split; [reflexivity|].
  split; [apply journal_grows_create|].
  split; [|split].
  - right. eexists. split.
    + cbn [transactions set_transactions]. apply elem_of_app. right.
      apply list_elem_of_singleton. reflexivity.
    + cbn. auto.
  - constructor; [|constructor]. unfold synced_entry. cbn. auto 10.
  - simpl. lia.
Qed.

(** A loop of imports: what each step guarantees holds for the whole list. *)
Lemma for_of_imports {A} (body : Z → A → Async Z) (known : A → list Transaction.t → Prop)
    (entry : Transaction.t → Prop) (xs : list A) :
  (∀ x l l', known x l → known x (l ++ l')) →
  (∀ imported x st, ∃ imported' st' new,
      body imported x st = (Return imported', st') ∧ journal_grows st st' new ∧
      known x (transactions st') ∧ Forall entry new ∧
      imported' = imported + Z.of_nat (length new)) →
  ∀ imported st, ∃ imported' st' new,
    for_of body xs imported st = (Return imported', st') ∧ journal_grows st st' new ∧
    (∀ x, x ∈ xs → known x (transactions st')) ∧ Forall entry new ∧
    imported' = imported + Z.of_nat (length new).
Proof.
  intros Hmono Hbody. induction xs as [|x xs IH]; intros imported st; simpl.
  - exists imported, st, []. split; [done|]. split; [apply journal_grows_refl|].
    split; [intros x Hx; inversion Hx|]. split; [constructor | simpl; lia].
  - destruct (Hbody imported x st) as (n1 & st1 & new1 & Hrun & Hg1 & Hk1 & He1 & ->).
    rewrite (bind_Return _ _ _ _ _ Hrun).
    destruct (IH (imported + Z.of_nat (length new1)) st1)
      as (n2 & st2 & new2 & Hrun2 & Hg2 & Hk2 & He2 & ->).
    exists (imported + Z.of_nat (length new1) + Z.of_nat (length new2)), st2, (new1 ++ new2).
    split; [done|]. split; [by eapply journal_grows_trans|].
    split; [|split].
    + intros y Hy. apply elem_of_cons in Hy as [->|Hy]; [|by apply Hk2].
      destruct Hg2 as (_&_&_&_&_&_&->). by apply Hmono.
    + by apply Forall_app.
    + rewrite length_app. lia.
Qed.

Lemma for_of_known {A} (body : Z → A → Async Z) (known : A → list Transaction.t → Prop)
    (xs : list A) (imported : Z) (st : Store) :
  (∀ imported x, known x (transactions st) → body imported x st = (Return imported, st)) →
  (∀ x, x ∈ xs → known x (transactions st)) →
  for_of body xs imported st = (Return imported, st).
Proof.
  intros Hbody. induction xs as [|x xs IH]; intros Hk; simpl; [done|].
  rewrite (bind_Return _ _ _ _ _ (Hbody imported x (Hk x ltac:(left)))).
  apply IH. intros y Hy. apply Hk. by right.
Qed.

Lemma resolveCustomer_reads_subscriptions stripe userId u st st' :
  subscriptions st' = subscriptions st →
  resolveCustomer stripe userId u st' =
  (outcome (resolveCustomer stripe userId u st), st').
Proof.
  intros Hs. unfold resolveCustomer, Subscription_findOne, outcome.
  rewrite !bind_read, Hs.
  destruct (findOne _ (subscriptions st)) as [[i r]|].
  - destruct (truthy _); [done|]. rewrite !bind_external.
    by destruct (StripeApi.customers_list _ _).
  - rewrite !bind_external. by destruct (StripeApi.customers_list _ _).
Qed.



(** X5. A transaction sync that returned, run again on the store it left
    with the same replies of the processor, imports nothing and leaves the
    store untouched. The reason is stated with it: when the first run has
    returned, every succeeded charge and every succeeded payment intent that
    the processor lists for the customer of the user is matched by a journal
    entry of the user, by its payment reference or by its own id. *)
Theorem transaction_sync_twice_imports_nothing
    (stripe : StripeApi.t) (userId : string) (st : Store)
    (r : TransactionSync.t) (st' : Store) :
  syncTransactionsFromStripe stripe userId st = (Return r, st') →
  (∃ r', syncTransactionsFromStripe stripe userId st' = (Return r', st') ∧
         TransactionSync.imported r' = 0 ∧
         TransactionSync.synced r' = TransactionSync.synced r) ∧
  (∀ u customerId charges paymentIntents,
     users st !! userId = Some u →
     outcome (resolveCustomer stripe userId u st) = Return (Some customerId) →
     StripeApi.charges_list stripe customerId = Return charges →
     StripeApi.paymentIntents_list stripe customerId = Return paymentIntents →
     (∀ charge, charge ∈ charges → StripeCharge.status charge = "succeeded" →
        ∃ t, t ∈ transactions st' ∧ Transaction.userId t = userId ∧
             (Transaction.stripePaymentIntentId t = StripeCharge.payment_intent charge ∨
              Transaction.metadata_chargeId t = Some (StripeCharge.id charge))) ∧
     (∀ pi, pi ∈ paymentIntents → StripePaymentIntent.status pi = "succeeded" →
        ∃ t, t ∈ transactions st' ∧ Transaction.userId t = userId ∧
             (Transaction.stripePaymentIntentId t = Some (StripePaymentIntent.id pi) ∨
              Transaction.metadata_paymentIntentId t = Some (StripePaymentIntent.id pi)))).
Proof.
  intros Hrun.
  assert (Hfirst : ∃ u, users st !! userId = Some u ∧
            ((outcome (resolveCustomer stripe userId u st) = Return None ∧ st' = st ∧
              TransactionSync.synced r = false) ∨
             (∃ customerId charges paymentIntents,
                outcome (resolveCustomer stripe userId u st) = Return (Some customerId) ∧
                StripeApi.charges_list stripe customerId = Return charges ∧
                StripeApi.paymentIntents_list stripe customerId = Return paymentIntents ∧
                TransactionSync.synced r = true ∧
                (∃ new, journal_grows st st' new) ∧
                (∀ x, x ∈ charges → charge_known userId x (transactions st')) ∧
                (∀ x, x ∈ paymentIntents → payment_intent_known userId x (transactions st'))))).
  { unfold syncTransactionsFromStripe, User_findById in Hrun. rewrite bind_read in Hrun.
    destruct (users st !! userId) as [u|] eqn:Hu; [|discriminate].
    exists u. split; [done|].
    pose proof (pure_resolveCustomer stripe userId u st) as Hpure. unfold final in Hpure.
    destruct (resolveCustomer stripe userId u st) as [[[customerId|]|e] st0] eqn:Hres;
      simpl in Hpure; subst st0.
    3:{ by rewrite (bind_Throw _ _ _ _ _ Hres) in Hrun. }
    2:{ rewrite (bind_Return _ _ _ _ _ Hres) in Hrun. unfold ret in Hrun.
        injection Hrun as <- <-. by left. }
    rewrite (bind_Return _ _ _ _ _ Hres), bind_external in Hrun.
    destruct (StripeApi.charges_list stripe customerId) as [charges|e] eqn:Hc; [|discriminate].
    rewrite bind_external in Hrun.
    destruct (StripeApi.paymentIntents_list stripe customerId) as [pis|e] eqn:Hp;
      [|discriminate].
    destruct (for_of_imports (import_charge stripe userId) (charge_known userId)
                (synced_entry userId) charges (charge_known_mono userId)
                (import_charge_spec stripe userId) 0 st)
      as (n1 & st1 & new1 & Hrun1 & Hg1 & Hk1 & _ & ->).
    rewrite (bind_Return _ _ _ _ _ Hrun1) in Hrun.
    destruct (for_of_imports (import_payment_intent stripe userId) (payment_intent_known userId)
                (synced_entry userId) pis (payment_intent_known_mono userId)
                (import_payment_intent_spec stripe userId) (0 + Z.of_nat (length new1)) st1)
      as (n2 & st2 & new2 & Hrun2 & Hg2 & Hk2 & _ & ->).
    rewrite (bind_Return _ _ _ _ _ Hrun2) in Hrun.
    unfold ret in Hrun. injection Hrun as <- <-. right. exists customerId, charges, pis.
    repeat split; try done.
    - eexists. by eapply journal_grows_trans.
    - intros x Hx. destruct Hg2 as (_&_&_&_&_&_&->). by apply charge_known_mono, Hk1. }
  destruct Hfirst as (u & Hu & [(Hres & -> & Hsynced) | Hlisted]).
  - split.
    + unfold syncTransactionsFromStripe, User_findById. rewrite bind_read, Hu.
      unfold bind. pose proof (pure_resolveCustomer stripe userId u st) as Hpure.
      unfold final in Hpure. unfold outcome in Hres.
      destruct (resolveCustomer stripe userId u st) as [o st0]. cbn in Hres, Hpure.
      subst o st0. eexists. split; [reflexivity|]. by rewrite Hsynced.
    + intros u' customerId charges pis Hu'. rewrite Hu in Hu'. injection Hu' as <-.
      rewrite Hres. discriminate.
  - destruct Hlisted as (customerId & charges & pis & Hres & Hc & Hp & Hsynced &
                         [new Hg] & Hk1 & Hk2).
    split.
    + pose proof Hg as (Hus & _ & _ & _ & Hsubs & _ & Htx).
      unfold syncTransactionsFromStripe, User_findById. rewrite bind_read, Hus, Hu.
      pose proof (resolveCustomer_reads_subscriptions stripe userId u st st' Hsubs) as Hres2.
      rewrite Hres in Hres2.
      rewrite (bind_Return _ _ _ _ _ Hres2), bind_external, Hc, bind_external, Hp.
      rewrite (bind_Return _ _ _ _ _
                 (for_of_known (import_charge stripe userId) (charge_known userId) charges 0 st'
                    (λ n x, import_charge_known stripe userId n x st') Hk1)).
      rewrite (bind_Return _ _ _ _ _
                 (for_of_known (import_payment_intent stripe userId)
                    (payment_intent_known userId) pis 0 st'
                    (λ n x, import_payment_intent_known stripe userId n x st') Hk2)).
      eexists. split; [reflexivity|]. by rewrite Hsynced.
    + intros u' customerId' charges' pis' Hu'. rewrite Hu in Hu'. injection Hu' as <-.
      rewrite Hres. intros [= <-]. rewrite Hc, Hp. intros [= <-] [= <-].
      split.
      * intros charge Hin Hs. destruct (Hk1 charge Hin) as [Hno|Hyes]; [done | exact Hyes].
      * intros pi Hin Hs. destruct (Hk2 pi Hin) as [Hno|Hyes]; [done | exact Hyes].
Qed.

Lemma payments_synced_twice_scenario :
  let first := syncTransactionsFromStripe lists_payments "u1" store_2_credits in
  (Transaction.stripeEventType <$> transactions (final first))
    = ["charge.synced"; "payment_intent.synced"] ∧
  (∃ r', syncTransactionsFromStripe lists_payments "u1" (final first)
           = (Return r', final first) ∧
         TransactionSync.imported r' = 0 ∧ TransactionSync.synced r' = true) ∧
  (∃ t, t ∈ transactions (final first) ∧ Transaction.userId t = "u1" ∧
        (Transaction.stripePaymentIntentId t = Some "pi_2" ∨
         Transaction.metadata_paymentIntentId t = Some "pi_2")).
Proof.
  pose proof (transaction_sync_twice_imports_nothing lists_payments "u1" store_2_credits
                (TransactionSync.mk true 2 "2 transactions synced from Stripe.")
                (final (syncTransactionsFromStripe lists_payments "u1" store_2_credits))
                eq_refl) as [Hagain Hknown].
  split; [by vm_compute|]. split; [exact Hagain|].
  destruct (Hknown (User.mk "ann@example.org" user 2) "cus_1" [charge_1]
              [intent_1; intent_2] eq_refl eq_refl eq_refl eq_refl) as [_ Hpis].
  apply (Hpis intent_2); [|done].
  apply elem_of_cons. right. apply elem_of_cons. by left.
Defined.

(* ------------------------------------------------------------------ *)
(** ** Entitlement: updates, cancellation, failed payments, guards *)

(** X6. A subscription-updated event for a subscription with a local record
    either copies status, period and cancel flag of the processor onto the
    first record with that reference (the plan too when the event carries a
    billing interval; owner, customer, reference and features stay), or, when
    the processor's status is not one the local schema admits (unpaid, paused,
    incomplete_expired, ...), fails with a validation error and leaves the
    store, so the old status, as it was. *)
Theorem subscription_updated_mirrors_or_rejects
    (now : Z) (stripeSub : StripeSubscription.t) (st : Store)
    (i : nat) (r : Subscription.t) :
  findOne (by_stripe_id (Some (StripeSubscription.id stripeSub))) (subscriptions st)
    = Some (i, r) →
  ((StripeSubscription.status stripeSub ∈ Subscription.status_enum) ∧
   ∃ r', handleSubscriptionUpdated now stripeSub st
           = (Return tt, set_subscriptions (<[i := r']>) st) ∧
         mirrors now stripeSub r r') ∨
  ((StripeSubscription.status stripeSub ∉ Subscription.status_enum) ∧
   handleSubscriptionUpdated now stripeSub st
     = (Throw (ValidationError "Subscription" "status"), st)).
Proof.
  intros Hf. unfold handleSubscriptionUpdated, Subscription_findOne.
  rewrite bind_read, Hf.
  destruct (extractPeriodDates now stripeSub) as [ps pe] eqn:Hp.
  unfold mirrors. rewrite Hp. cbn [fst snd].
  destruct (decide (StripeSubscription.status stripeSub ∈ Subscription.status_enum))
    as [Hin|Hout].
  - left. split; [done|]. eexists. split.
    + apply save_valid. by destruct (truthy _).
    + destruct (truthy _); by destruct r.
  - right. split; [done|]. unfold Subscription_save.
    rewrite bool_decide_eq_false_2; [done|]. by destruct (truthy _).
Qed.

Lemma unpaid_update_scenario :
  handleSubscriptionUpdated 0 sub_1_unpaid store_subscribed
    = (Throw (ValidationError "Subscription" "status"), store_subscribed).
Proof.
  destruct (subscription_updated_mirrors_or_rejects 0 sub_1_unpaid store_subscribed
              0%nat yearly_sub_1 eq_refl) as [[Hin _] | [_ Hrun]].
  - exfalso. unfold Subscription.status_enum in Hin.
    rewrite !elem_of_cons, elem_of_nil in Hin.
    repeat (destruct Hin as [Hin|Hin]; [discriminate Hin|]). exact Hin.
  - exact Hrun.
Defined.

Lemma findOne_from_insert {A} (p : A → bool) (l : list A) (n i : nat) (c : A) :
  (∀ x, x ∈ l → p x = false) → (i < length l)%nat → p c = true →
  findOne_from p n (<[i := c]> l) = Some ((n + i)%nat, c).
Proof.
  revert n i. induction l as [|a l IH]; intros n i Hnone Hi Hc; simpl in Hi; [lia|].
  destruct i as [|i]; simpl.
  - rewrite Hc. by rewrite Nat.add_0_r.
  - rewrite (Hnone a) by left. rewrite IH; [f_equal; f_equal; lia | | lia | done].
    intros x Hx. apply Hnone. by right.
Qed.

Lemma insert_back (i : nat) (r r' : Subscription.t) (st : Store) :
  subscriptions st !! i = Some r →
  set_subscriptions (<[i := r]>) (set_subscriptions (<[i := r']>) st) = st.
Proof.
  intros Hi. destruct st. unfold set_subscriptions. simpl in *. f_equal.
  rewrite list_insert_insert_eq. by apply list_insert_id.
Qed.

(** X7. Cancelling the subscription returned by [getActiveForUser] sets its
    cancel flag. If that record is active, a reactivation right after restores
    the store exactly as it was before the cancellation; if it is trialing,
    the reactivation finds nothing to reactivate (it looks for status active
    only) and the cancellation stays. Here no other record of the user is
    pending cancellation and the processor accepts both updates. *)
Theorem cancel_then_reactivate
    (stripe : StripeApi.t) (now : Z) (userId : string) (st : Store)
    (i : nat) (r : Subscription.t) (sid : string) :
  Subscription_getActiveForUser now userId st = (Return (Some (i, r)), st) →
  Subscription.stripeSubscriptionId r = Some sid →
  Subscription.cancelAtPeriodEnd r = false →
  (∀ x, x ∈ subscriptions st → pending_cancellation userId x = false) →
  (∀ flag, StripeApi.subscriptions_update_cancel stripe sid flag = Return tt) →
  let canceled := Subscription.set_cancelAtPeriodEnd true r in
  let st1 := set_subscriptions (<[i := canceled]>) st in
  cancelSubscription stripe now userId st = (Return canceled, st1) ∧
  reactivateSubscription stripe userId st1 =
    if str_eqb (Subscription.status r) "active"
    then (Return r, st)
    else (Throw (Error "No subscription pending cancellation found"), st1).
Proof.
  intros Hact Hsid Hflag Hnone Hapi canceled st1.
  pose proof (getActive_Some _ _ _ _ _ Hact) as [Hi Hent].
  split.
  - unfold cancelSubscription. rewrite (bind_Return _ _ _ _ _ Hact), Hsid.
    rewrite bind_external, Hapi. unfold bind.
    rewrite save_valid by (by eapply entitled_valid). done.
  - unfold reactivateSubscription, Subscription_findOne. rewrite bind_read.
    destruct (str_eqb (Subscription.status r) "active") eqn:Es.
    + assert (Hf : findOne (pending_cancellation userId) (subscriptions st1) = Some (i, canceled)).
      { apply (findOne_from_insert _ _ 0%nat); [done | by eapply lookup_lt_Some |].
        unfold pending_cancellation. cbn. rewrite Es.
        destruct Hent as [-> _]. by rewrite str_eqb_refl. }
      rewrite Hf. cbn [Subscription.stripeSubscriptionId canceled Subscription.set_cancelAtPeriodEnd].
      rewrite Hsid, bind_external, Hapi. unfold bind.
      rewrite save_valid by (by eapply entitled_valid).
      unfold ret. f_equal.
      * f_equal. destruct r. simpl in *. by subst.
      * replace (Subscription.set_cancelAtPeriodEnd false canceled) with r
          by (destruct r; simpl in *; by subst).
        by apply insert_back.
    + assert (Hf : findOne (pending_cancellation userId) (subscriptions st1) = None).
      { apply findOne_None. intros x Hx. cbn in Hx.
        apply elem_of_list_insert_inv in Hx as [->|Hx]; [|by apply Hnone].
        unfold pending_cancellation. cbn. rewrite Es. by rewrite andb_false_r. }
      by rewrite Hf.
Qed.

Lemma cancellation_scenarios :
  (let canceled := Subscription.set_cancelAtPeriodEnd true yearly_sub_1 in
   let st1 := set_subscriptions (<[0%nat := canceled]>) store_subscribed in
   cancelSubscription accepts_cancel 2000 "u1" store_subscribed = (Return canceled, st1) ∧
   reactivateSubscription accepts_cancel "u1" st1 = (Return yearly_sub_1, store_subscribed)) ∧
  (let canceled := Subscription.set_cancelAtPeriodEnd true trial_sub_1 in
   let st1 := set_subscriptions (<[0%nat := canceled]>) store_on_trial in
   cancelSubscription accepts_cancel 2000 "u1" store_on_trial = (Return canceled, st1) ∧
   reactivateSubscription accepts_cancel "u1" st1
     = (Throw (Error "No subscription pending cancellation found"), st1)).
Proof.
  split.
  - refine (cancel_then_reactivate accepts_cancel 2000 "u1" store_subscribed 0%nat
              yearly_sub_1 "sub_1" eq_refl eq_refl eq_refl _ (λ _, eq_refl)).
    intros x Hx. apply list_elem_of_singleton in Hx as ->. reflexivity.
  - refine (cancel_then_reactivate accepts_cancel 2000 "u1" store_on_trial 0%nat
              trial_sub_1 "sub_1" eq_refl eq_refl eq_refl _ (λ _, eq_refl)).
    intros x Hx. apply list_elem_of_singleton in Hx as ->. reflexivity.
Defined.

(** X8. A failed invoice payment for a subscription with a local record sets
    that record to past_due and appends one failed journal entry of zero
    credits for the invoice; balances, ledger and resumes are untouched. The
    record no longer counts as an active subscription at any time: whatever
    [getActiveForUser] returns for its owner afterwards is another record,
    unchanged. *)
Theorem payment_failed_suspends_entitlement
    (invoice : StripeInvoice.t) (st : Store) (i : nat) (r : Subscription.t) :
  findOne (by_stripe_id (StripeInvoice.subscription invoice)) (subscriptions st)
    = Some (i, r) →
  let call := handlePaymentFailed invoice st in
  outcome call = Return tt ∧
  subscriptions (final call) = <[i := Subscription.set_status "past_due" r]> (subscriptions st) ∧
  (∃ t, transactions (final call) = transactions st ++ [t] ∧ failed_entry invoice r t) ∧
  users (final call) = users st ∧ creditLogs (final call) = creditLogs st ∧
  resumes (final call) = resumes st ∧
  ∀ now j x, Subscription_getActiveForUser now (Subscription.userId r) (final call)
               = (Return (Some (j, x)), final call) →
             j ≠ i ∧ subscriptions st !! j = Some x.
Proof.
  intros Hf call. subst call.
  unfold handlePaymentFailed, Subscription_findOne. rewrite bind_read, Hf.
  unfold bind. rewrite save_valid
    by (cbn; unfold Subscription.status_enum; rewrite !elem_of_cons; auto 10).
  rewrite create_valid
    by (cbn; unfold Transaction.type_enum; rewrite !elem_of_cons; auto 10).
  unfold ret, outcome, final. cbn [fst snd].
  cbn [subscriptions transactions users creditLogs resumes set_transactions set_subscriptions].
  split; [done|]. split; [done|]. split; [eexists; split; [reflexivity|by cbn]|].
  do 3 (split; [done|]).
  intros now j x Hact. apply getActive_Some in Hact as [Hj Hent].
  cbn [subscriptions set_subscriptions] in Hj.
  apply list_lookup_insert_Some in Hj as [(-> & <- & _) | (Hne & Hj)].
  - destruct Hent as (_ & [H|H] & _); cbn in H; discriminate.
  - done.
Qed.

Lemma failed_renewal_scenario :
  let call := handlePaymentFailed unpaid_invoice store_subscribed in
  (Subscription.status <$> subscriptions (final call)) = ["past_due"] ∧
  (Transaction.status <$> transactions (final call)) = [Transaction.failed] ∧
  outcome (Subscription_isUserSubscribed 2000 "u1" (final call)) = Return false ∧
  outcome call = Return tt.
Proof.
  split; [by vm_compute|]. split; [by vm_compute|]. split; [by vm_compute|].
  exact (proj1 (payment_failed_suspends_entitlement unpaid_invoice store_subscribed
                  0%nat yearly_sub_1 eq_refl)).
Defined.

(** X9. For a registered user, the answer of [isUserSubscribed] decides
    the guards whatever the processor would reply: a subscribed user is
    refused a new subscription checkout, and a user who is not subscribed is
    refused cancellation and plan switch; the store is untouched in each
    case. *)
Theorem entitlement_guards
    (stripe : StripeApi.t) (now : Z) (userId : string) (plan : Plan) (st : Store)
    (u : User.t) :
  users st !! userId = Some u →
  match outcome (Subscription_isUserSubscribed now userId st) with
  | Return true =>
    createSubscriptionCheckoutSession stripe now userId plan st
      = (Throw (Error "User already has an active subscription. Cancel it first to switch plans."), st)
  | _ =>
    cancelSubscription stripe now userId st
      = (Throw (Error "No active subscription found"), st) ∧
    switchPlan stripe now userId plan st
      = (Throw (Error "No active subscription found"), st)
  end.
Proof.
  intros Hu. unfold Subscription_isUserSubscribed, cancelSubscription, switchPlan,
    createSubscriptionCheckoutSession, User_findById.
  rewrite bind_read, Hu.
  destruct (getActive_run now userId st) as [found Hrun].
  rewrite !(bind_Return _ _ _ _ _ Hrun). unfold ret, outcome. cbn [fst].
  destruct found as [[i r]|]; [|done].
  rewrite bool_decide_eq_true_2 by eauto. done.
Qed.

Lemma second_checkout_scenario :
  createSubscriptionCheckoutSession offline 2000 "u1" monthly store_subscribed
    = (Throw (Error "User already has an active subscription. Cancel it first to switch plans."),
       store_subscribed).
Proof.
  exact (entitlement_guards offline 2000 "u1" monthly store_subscribed
           (User.mk "ann@example.org" user 2) eq_refl).
Defined.

(** X10. A session with no completed journal entry that the processor
    reports as not paid, or as belonging to another user, is refused by the
    manual verification, with the unpaid message first, and nothing is
    written. *)
Theorem verification_refuses_unpaid_or_foreign_session
    (stripe : StripeApi.t) (now : Z) (sessionId userId : string) (st : Store)
    (session : StripeSession.t) :
  completed_for_session sessionId st = [] →
  StripeApi.checkout_sessions_retrieve stripe sessionId = Return (Some session) →
  StripeSession.payment_status session ≠ "paid" ∨
  StripeSession.metadata_userId session ≠ userId →
  verifyAndProcessSession stripe now sessionId userId st =
    (Throw (Error (if str_eqb (StripeSession.payment_status session) "paid"
                   then "Session does not belong to this user"
                   else "Payment not completed. Status: "
                          +:+ StripeSession.payment_status session)), st).
Proof.
  intros Hnone Hret Hbad. unfold verifyAndProcessSession, Transaction_findOne.
  rewrite bind_read.
  unfold completed_for_session in Hnone.
  apply (findOne_from_None_filter _ _ 0%nat) in Hnone. unfold findOne. rewrite Hnone.
  cbn [fmap option_fmap option_map]. rewrite bind_external, Hret.
  destruct (str_eqb (StripeSession.payment_status session) "paid") eqn:Ep; cbn [negb]; [|done].
  apply str_eqb_eq in Ep. destruct Hbad as [Hbad|Hbad]; [done|].
  destruct (str_eqb (StripeSession.metadata_userId session) userId) eqn:Eu; cbn [negb]; [|done].
  by apply str_eqb_eq in Eu.
Qed.

Lemma foreign_session_scenario :
  verifyAndProcessSession knows_sess_1 0 "sess_1" "u2" store_2_credits
    = (Throw (Error "Session does not belong to this user"), store_2_credits).
Proof.
  refine (verification_refuses_unpaid_or_foreign_session knows_sess_1 0 "sess_1" "u2"
            store_2_credits sess_1 eq_refl eq_refl (or_intror _)).
  discriminate.
Defined.

(** X11. Once the journal holds a completed entry for a session id, the
    manual verification answers [alreadyProcessed] with the first such entry
    to every caller, without asking the processor and without comparing the
    caller with the owner of the entry; nothing is written. *)
Theorem processed_session_is_reported_to_any_caller
    (stripe : StripeApi.t) (now : Z) (sessionId : string) (st : Store)
    (tx : Transaction.t) (rest : list Transaction.t) :
  completed_for_session sessionId st = tx :: rest →
  ∀ userId, verifyAndProcessSession stripe now sessionId userId st
            = (Return (Verification.mk true (Some tx)), st).
Proof.
  intros Hsome userId. unfold verifyAndProcessSession, Transaction_findOne.
  rewrite bind_read. unfold completed_for_session in Hsome.
  assert (Hf : ∀ p (l : list Transaction.t) n, List.filter p l = tx :: rest →
               snd <$> findOne_from p n l = Some tx).
  { intros p l. induction l as [|a l IH]; intros n H; simpl in *; [done|].
    destruct (p a); [by injection H as -> _ | by apply IH]. }
  unfold findOne. by rewrite (Hf _ _ _ Hsome).
Qed.

Lemma processed_session_scenario :
  let processed := final (handleCheckoutCompleted offline 0 sess_1 store_2_credits) in
  verifyAndProcessSession offline 0 "sess_1" "u2" processed
    = (Return (Verification.mk true (Some purchase_of_sess_1)), processed).
Proof.
  exact (processed_session_is_reported_to_any_caller offline 0 "sess_1"
           (final (handleCheckoutCompleted offline 0 sess_1 store_2_credits))
           purchase_of_sess_1 [] eq_refl "u2").
Defined.

(* ------------------------------------------------------------------ *)
(** ** Credit updates by an admin *)

Lemma updateCredits_run (body : CreditUpdateBody.t) (st : Store) :
  ∃ reply st', updateCredits body st = (Return reply, st') ∧
    match reply with
    | Json status result =>
      status = 200 ∧
      ∃ userId u, CreditUpdateBody.userId body = Some (ObjectIdText userId) ∧
                  CreditUpdateBody.operation body = Some (CreditUpdate.operation result) ∧
                  users st !! userId = Some u ∧
                  CreditUpdate.previousCredits result = User.credits u ∧
                  0 ≤ CreditUpdate.credits result ∧
                  CreditUpdateBody.credits body ≠ Some 0 ∧
                  st' = adjusted userId u (CreditUpdate.operation result)
                          (CreditUpdate.credits result) st
    | Failed status _ =>
      st' = st ∧
      (status = 400 ∨
       (status = 404 ∧ ∃ userId, CreditUpdateBody.userId body = Some (ObjectIdText userId) ∧
                                 users st !! userId = None) ∨
       (status = 500 ∧ ∃ text, CreditUpdateBody.userId body = Some (Malformed text) ∧
                               text ≠ ""))
    | PaymentRequired _ _ _ => False
    end.
Proof.
  unfold updateCredits, try_catch.
  destruct body as [[bodyId|] [credits|] [operation|]]; cbn [CreditUpdateBody.userId
    CreditUpdateBody.credits CreditUpdateBody.operation];
    try (by eexists _, st; split; [reflexivity|]; split; [|left]).
  destruct (falsy_id bodyId) eqn:Eid; cbn [orb];
    [by eexists _, st; split; [reflexivity|]; split; [|left]|].
  destruct (credits =? 0) eqn:Ez; cbn [orb];
    [by eexists _, st; split; [reflexivity|]; split; [|left]|].
  destruct (str_eqb operation ""); cbn [orb];
    [by eexists _, st; split; [reflexivity|]; split; [|left]|].
  destruct (bool_decide _); cbn [negb];
    [|by eexists _, st; split; [reflexivity|]; split; [|left]].
  destruct bodyId as [userId|text]; cbn [castObjectId].
  2:{ eexists _, st. split; [reflexivity|]. split; [done|]. right. right.
      split; [done|]. exists text. split; [done|].
      cbn in Eid. intros ->. by rewrite str_eqb_refl in Eid. }
  unfold User_findById. rewrite bind_read.
  destruct (users st !! userId) as [u|] eqn:Hu.
  2:{ eexists _, st. split; [reflexivity|]. split; [done|]. right. left. eauto. }
  set (newCredits := if str_eqb operation "add" then _ else _).
  destruct (newCredits <? 0) eqn:Eneg;
    [by eexists _, st; split; [reflexivity|]; split; [|left]|].
  apply Z.ltb_ge in Eneg. apply Z.eqb_neq in Ez.
  unfold bind, User_findByIdAndUpdate_set. rewrite Hu.
  unfold logCreditEvent, CreditLog_create. cbn [CreditLog.credits CreditLog.description User.credits].
  destruct (Z.abs (newCredits - User.credits u) <? 0) eqn:Eabs; [apply Z.ltb_lt in Eabs; lia|].
  unfold adjustment_description at 1. rewrite nonempty_string.
  unfold write, ret. eexists _, _. split; [reflexivity|].
  split; [done|]. exists userId, u. cbn. repeat split; try done.
  intros [= ?]. done.
Qed.


Example adjustment_description_value :
  adjustment_description "subtract" (-4) 10 6 = "Admin subtract: 4 credits (10 â†’ 6)".
Proof. reflexivity. Qed.

Example malformed_id_is_a_server_error :
  updateCredits (CreditUpdateBody.mk (Some (Malformed "me")) (Some 4) (Some "add"))
    store_welcomed
  = (Return (Failed 500 "Failed to update credits"), store_welcomed).
Proof. reflexivity. Qed.

Lemma adjusted_ledger_sum (userId : string) (u : User.t) (operation : string)
    (newCredits : Z) (st : Store) :
  users st !! userId = Some u →
  balance_is_ledger_sum st →
  balance_is_ledger_sum (adjusted userId u operation newCredits st) ↔
  User.credits u ≤ newCredits.
Proof.
  intros Hu Hst. unfold balance_is_ledger_sum, adjusted.
  cbn [users creditLogs set_creditLogs set_users].
  split.
  - intros H. specialize (H userId _ (lookup_insert_eq _ _ _)).
    rewrite ledger_sum_app in H. cbn in H. rewrite str_eqb_refl in H.
    rewrite <- (Hst userId u Hu) in H. lia.
  - intros Hle id u' Hid. rewrite ledger_sum_app. cbn.
    destruct (decide (id = userId)) as [->|Hne].
    + rewrite lookup_insert_eq in Hid. injection Hid as <-. cbn.
      rewrite str_eqb_refl, <- (Hst userId u Hu). lia.
    + rewrite lookup_insert_ne in Hid by done.
      destruct (str_eqb userId id) eqn:E; [apply str_eqb_eq in E; congruence|].
      rewrite (Hst id u' Hid). lia.
Qed.

(** X13. The entry of an admin credit update records the magnitude of the
    change, not its direction: on a store where every balance equals the
    signed sum of the user's entries, a successful update keeps that equality
    exactly when it did not lower the balance. *)
Theorem admin_adjustment_keeps_ledger_sum_iff_raise
    (body : CreditUpdateBody.t) (st st' : Store) (result : CreditUpdate.t) :
  balance_is_ledger_sum st →
  updateCredits body st = (Return (Json 200 result), st') →
  balance_is_ledger_sum st' ↔
  CreditUpdate.previousCredits result ≤ CreditUpdate.credits result.
Proof.
  intros Hst Hrun.
  destruct (updateCredits_run body st) as (reply & st1 & Hrun1 & H).
  rewrite Hrun in Hrun1. injection Hrun1 as <- <-.
  destruct H as (_ & userId & u & _ & _ & Hu & -> & _ & _ & ->).
  by apply adjusted_ledger_sum.
Qed.

Lemma single_user_ledger (userId : string) (u : User.t) (st : Store) :
  users st = {[ userId := u ]} → User.credits u = ledger_sum userId (creditLogs st) →
  balance_is_ledger_sum st.
Proof.
  intros Hu Hsum k u' Hk. rewrite Hu in Hk.
  apply lookup_singleton_Some in Hk as [<- <-]. exact Hsum.
Qed.

Lemma admin_subtraction_scenario :
  balance_is_ledger_sum store_welcomed ∧
  outcome (updateCredits subtract_4 store_welcomed)
    = Return (Json 200 (CreditUpdate.mk 6 10 "subtract")) ∧
  balance_of "u1" (final (updateCredits subtract_4 store_welcomed)) = Some 6 ∧
  ledger_sum "u1" (creditLogs (final (updateCredits subtract_4 store_welcomed))) = 14 ∧
  ¬ balance_is_ledger_sum (final (updateCredits subtract_4 store_welcomed)).
Proof.
  assert (Hst : balance_is_ledger_sum store_welcomed)
    by (by eapply single_user_ledger).
  split; [exact Hst|]. split; [by vm_compute|]. split; [by vm_compute|].
  split; [by vm_compute|].
  intros H.
  apply (admin_adjustment_keeps_ledger_sum_iff_raise subtract_4 store_welcomed
           (final (updateCredits subtract_4 store_welcomed))
           (CreditUpdate.mk 6 10 "subtract") Hst eq_refl) in H.
  cbn in H. lia.
Defined.

(** X14. The direct credit update of the user controller sets the balance
    of a registered user to any value that is not negative and writes no
    ledger entry: on a store where every balance equals the signed sum of the
    user's entries, the equality survives only if the value is the old
    balance. *)
Theorem direct_credit_update_bypasses_ledger
    (id : string) (credits : Z) (st : Store) (u : User.t) :
  users st !! id = Some u → 0 ≤ credits →
  let st' := set_users (<[id := User.mk (User.email u) (User.role u) credits]>) st in
  updateUserCredits (ObjectIdText id) credits st = (Return (Json 200 credits), st') ∧
  creditLogs st' = creditLogs st ∧
  (balance_is_ledger_sum st → balance_is_ledger_sum st' ↔ credits = User.credits u).
Proof.
  intros Hu Hc st'. split; [|split; [done|]].
  - unfold updateUserCredits. destruct (credits <? 0) eqn:E; [apply Z.ltb_lt in E; lia|].
    unfold try_catch, User_findById. cbn [castObjectId]. rewrite bind_read, Hu. done.
  - intros Hst. unfold balance_is_ledger_sum. subst st'. cbn [users creditLogs set_users].
    split.
    + intros H. specialize (H id _ (lookup_insert_eq _ _ _)). cbn in H.
      by rewrite (Hst id u Hu).
    + intros -> k u' Hk. destruct (decide (k = id)) as [->|Hne].
      * rewrite lookup_insert_eq in Hk. injection Hk as <-. cbn. by apply Hst.
      * rewrite lookup_insert_ne in Hk by done. by apply Hst.
Qed.

Lemma direct_update_scenario :
  let call := updateUserCredits (ObjectIdText "u1") 3 store_welcomed in
  outcome call = Return (Json 200 3) ∧
  balance_of "u1" (final call) = Some 3 ∧
  creditLogs (final call) = creditLogs store_welcomed ∧
  ¬ balance_is_ledger_sum (final call).
Proof.
  destruct (direct_credit_update_bypasses_ledger "u1" 3 store_welcomed
              (User.mk "ann@example.org" user 10) eq_refl ltac:(lia))
    as (Hrun & Hlog & Hiff).
  cbv zeta. rewrite Hrun. split; [done|]. split; [by vm_compute|]. split; [done|].
  intros H. apply Hiff in H; [discriminate H|].
  by eapply single_user_ledger.
Defined.

(* ------------------------------------------------------------------ *)
(** ** The pages of the credit history *)

Lemma ceil_div_bounds (total limit : Z) :
  0 < limit → total ≤ ceil_div total limit * limit < total + limit.
Proof.
  intros Hl. unfold ceil_div.
  pose proof (Z.div_mod (- total) limit ltac:(lia)) as Hdm.
  pose proof (Z.mod_pos_bound (- total) limit Hl) as Hb. nia.
Qed.

Lemma getUserHistory_run (userId : string) (page limit : Z) (type : option string)
    (st : Store) :
  1 ≤ page → 1 ≤ limit →
  CreditLog_getUserHistory userId page limit type st =
  (Return (History.mk
             (take (Z.to_nat limit)
                (drop (Z.to_nat (page - 1) * Z.to_nat limit) (history_of userId type st)))
             page limit
             (Z.of_nat (length (history_of userId type st)))
             (Some (Fin (ceil_div (Z.of_nat (length (history_of userId type st))) limit)))),
   st).
Proof.
  intros Hp Hl. unfold CreditLog_getUserHistory, history_of. rewrite bind_read.
  unfold sort_skip_limit, pages_of.
  destruct ((page - 1) * limit <? 0) eqn:E1; [apply Z.ltb_lt in E1; nia|].
  destruct (limit =? 0) eqn:E2; [apply Z.eqb_eq in E2; lia|].
  rewrite bind_external. unfold ret. rewrite length_reverse.
  rewrite Z.abs_eq by lia. rewrite Z2Nat.inj_mul by lia. done.
Qed.

Lemma elem_of_filter_list {A} (p : A → bool) (l : list A) (x : A) :
  x ∈ List.filter p l ↔ x ∈ l ∧ p x = true.
Proof.
  rewrite !list_elem_of_In. apply filter_In.
Qed.

(** X15. For a page and a limit of at least 1 (after the defaults 1 and 20
    for a missing, unreadable or zero parameter), the credit history answers
    200 and leaves the store alone; [total] counts the entries of the user
    (of the given type, if any), [pages] is the least number of pages of
    [limit] entries that hold them, a page holds at most [limit] entries, a
    page before the last holds exactly [limit], a page after the last is
    empty, and every entry on a page is an entry of that user and type. *)
Theorem history_page_bounds (userId : string) (query_page query_limit : option Z)
    (type : option string) (st : Store) :
  1 ≤ int_or query_page 1 → 1 ≤ int_or query_limit 20 →
  ∃ h pages,
    getCreditHistory userId query_page query_limit type st = (Return (Json 200 h), st) ∧
    History.page h = int_or query_page 1 ∧ History.limit h = int_or query_limit 20 ∧
    History.total h = Z.of_nat (length (history_of userId type st)) ∧
    History.pages h = Some (Fin pages) ∧
    History.total h ≤ pages * History.limit h < History.total h + History.limit h ∧
    Z.of_nat (length (History.logs h)) ≤ History.limit h ∧
    (History.page h < pages → Z.of_nat (length (History.logs h)) = History.limit h) ∧
    (pages < History.page h → History.logs h = []) ∧
    ∀ e, e ∈ History.logs h →
         e ∈ creditLogs st ∧ CreditLog.userId e = userId ∧
         (truthy type = true → Some (kind_name (CreditLog.type e)) = type).
Proof.
  set (page := int_or query_page 1). set (limit := int_or query_limit 20).
  intros Hp Hl.
  pose proof (ceil_div_bounds (Z.of_nat (length (history_of userId type st))) limit
                ltac:(lia)) as Hc.
  pose proof (getUserHistory_run userId page limit type st Hp Hl) as Hrun.
  set (l := history_of userId type st) in *.
  set (c := ceil_div (Z.of_nat (length l)) limit) in *. clearbody c.
  eexists _, c. split.
  { unfold getCreditHistory, try_catch. fold page limit.
    rewrite (bind_Return _ _ _ _ _ Hrun). reflexivity. }
  cbn [History.total History.pages History.logs History.page History.limit].
  split; [done|]. split; [done|]. split; [done|]. split; [done|]. split; [done|].
  split; [rewrite length_take; lia|].
  split; [|split].
  - intros Hlt. rewrite length_take, length_drop.
    assert (Z.of_nat (Z.to_nat (page - 1) * Z.to_nat limit) + limit ≤ Z.of_nat (length l))
      by (rewrite Nat2Z.inj_mul, !Z2Nat.id by lia;
          assert (page * limit ≤ (c - 1) * limit) by (apply Z.mul_le_mono_nonneg_r; lia);
          lia).
    lia.
  - intros Hgt. rewrite drop_ge; [by rewrite take_nil|].
    assert (Z.of_nat (length l) ≤ Z.of_nat (Z.to_nat (page - 1) * Z.to_nat limit))
      by (rewrite Nat2Z.inj_mul, !Z2Nat.id by lia;
          assert (c * limit ≤ (page - 1) * limit) by (apply Z.mul_le_mono_nonneg_r; lia);
          lia).
    lia.
  - intros e He. apply elem_of_take in He as (k & Hk & _).
    rewrite lookup_drop in Hk. apply list_elem_of_lookup_2 in Hk as He.
    unfold l, history_of in He. rewrite elem_of_reverse in He.
    apply elem_of_filter_list in He as [He Hf]. split; [done|].
    unfold history_filter in Hf. apply andb_true_iff in Hf as [Hu Ht].
    apply str_eqb_eq in Hu. split; [done|]. intros Hty. rewrite Hty in Ht.
    apply str_eqb_eq in Ht. rewrite Ht. unfold truthy in Hty. by destruct type.
Qed.

Lemma second_page_scenario :
  let st := serve ledger_call ledger_scenario emptyStore in
  ∃ h pages,
    getCreditHistory "u1" (Some 2) (Some 2) None st = (Return (Json 200 h), st) ∧
    History.total h = 5 ∧ pages = 3 ∧
    (CreditLog.balanceAfter <$> History.logs h) = [Some 19; Some 9].
Proof.
  cbv zeta.
  destruct (history_page_bounds "u1" (Some 2) (Some 2) None
              (serve ledger_call ledger_scenario emptyStore) ltac:(done) ltac:(done))
    as (h & pages & Hrun & _ & _ & Htotal & Hpages & _).
  exists h, pages. split; [exact Hrun|].
  assert (Hh : Return (Json 200 h)
               = outcome (getCreditHistory "u1" (Some 2) (Some 2) None
                            (serve ledger_call ledger_scenario emptyStore)))
    by (by rewrite Hrun).
  vm_compute in Hh. injection Hh as ->.
  split; [done|]. split; [|done]. vm_compute in Hpages. by injection Hpages as <-.
Defined.

Lemma chunks_concat {A} (L n : nat) (l : list A) :
  (0 < L)%nat → (length l ≤ n * L)%nat →
  concat (map (λ p, take L (drop ((p - 1) * L) l)) (seq 1 n)) = l.
Proof.
  intros HL. revert l. induction n as [|n IH]; intros l Hlen.
  - simpl in *. destruct l; [done | simpl in Hlen; lia].
  - cbn [seq map concat]. change (drop ((1 - 1) * L) l) with l.
    transitivity (take L l ++ drop L l); [|apply take_drop]. f_equal.
    etrans; [|apply (IH (drop L l)); rewrite length_drop; lia].
    f_equal. rewrite <- seq_shift, map_map. apply map_ext_in.
    intros p Hp. apply in_seq in Hp. rewrite drop_drop. do 2 f_equal.
    destruct p; simpl; lia.
Qed.

(** X16. For a limit of at least 1, the pages 1 to [pages] of a user's
    credit history, one after another, are exactly the user's entries (of the
    given type, if any) from newest to oldest: paging loses nothing and
    repeats nothing. *)
Theorem history_pages_partition (userId : string) (limit : Z) (type : option string)
    (st : Store) :
  1 ≤ limit →
  let total := Z.of_nat (length (history_of userId type st)) in
  concat (map (λ p, page_logs (CreditLog_getUserHistory userId (Z.of_nat p) limit type st))
              (seq 1 (Z.to_nat (ceil_div total limit))))
  = history_of userId type st.
Proof.
  intros Hl total.
  etrans; [|apply (chunks_concat (Z.to_nat limit) (Z.to_nat (ceil_div total limit))
                     (history_of userId type st))].
  - f_equal. apply map_ext_in. intros p Hp. apply in_seq in Hp.
    unfold page_logs. rewrite getUserHistory_run by lia. cbn [outcome fst History.logs].
    do 3 f_equal. lia.
  - lia.
  - pose proof (ceil_div_bounds total limit ltac:(lia)) as Hc. subst total.
    apply Nat2Z.inj_le. rewrite Nat2Z.inj_mul, !Z2Nat.id by nia. lia.
Qed.

Lemma all_pages_scenario :
  let st := serve ledger_call ledger_scenario emptyStore in
  concat (map (λ p, page_logs (CreditLog_getUserHistory "u1" (Z.of_nat p) 2 None st))
              (seq 1 3))
  = history_of "u1" None st.
Proof.
  exact (history_pages_partition "u1" 2 None
           (serve ledger_call ledger_scenario emptyStore) ltac:(done)).
Defined.

(* ------------------------------------------------------------------ *)
(** ** The subscription middleware and the feature flags *)

Lemma getActive_None (now : Z) (userId : string) (st : Store) :
  Subscription_getActiveForUser now userId st = (Return None, st) →
  ∀ r, r ∈ subscriptions st → ¬ entitled now userId r.
Proof.
  unfold Subscription_getActiveForUser, Subscription_findOne, read.
  intros [= H] r Hr Hent. rewrite findOne_None in H.
  apply active_filter_spec in Hent. rewrite (H r Hr) in Hent. done.
Qed.

Lemma requireSubscription_run (now : Z) (req : Req.t) (st : Store) :
  ∃ handled,
    requireSubscription now req st = (Return handled, st) ∧
    match handled with
    | next req' =>
      Req.user_id req' = Req.user_id req ∧ Req.user_role req' = Req.user_role req ∧
      match Req.subscription req' with
      | Some AdminBypass => Req.user_role req = admin
      | Some (Document r) => r ∈ subscriptions st ∧ entitled now (Req.user_id req) r
      | None => False
      end
    | respond status error =>
      status = 403 ∧ error = "Active subscription required" ∧
      Req.user_role req = user ∧ ¬ subscribed now (Req.user_id req) st
    | next_error _ => False
    end.
Proof.
  unfold requireSubscription, catch_next.
  destruct (Req.user_role req) eqn:Hrole.
  - eexists. split; [reflexivity|]. by cbn.
  - destruct (getActive_run now (Req.user_id req) st) as [found Hrun].
    rewrite (bind_Return _ _ _ _ _ Hrun).
    destruct found as [[i r]|].
    + apply getActive_Some in Hrun as [Hi Hent].
      apply list_elem_of_lookup_2 in Hi.
      eexists. split; [reflexivity|]. by cbn.
    + eexists. split; [reflexivity|]. cbn. do 3 (split; [done|]).
      intros (r & Hr & Hent). by eapply getActive_None in Hrun.
Qed.

(** X17. [requireSubscription] never writes and hands the request on exactly
    for an admin or a user with an active subscription, attaching the admin
    marker or the subscription record found; everybody else gets 403 "Active
    subscription required". [attachSubscription] always hands the request
    on, with a record attached exactly when the user has an active
    subscription. *)
Theorem requireSubscription_passes_iff_entitled (now : Z) (req : Req.t) (st : Store) :
  ∃ handled attached,
    requireSubscription now req st = (Return handled, st) ∧
    (passes handled = true ↔
     Req.user_role req = admin ∨ subscribed now (Req.user_id req) st) ∧
    match handled with
    | next req' =>
      Req.user_id req' = Req.user_id req ∧ Req.user_role req' = Req.user_role req ∧
      match Req.subscription req' with
      | Some AdminBypass => Req.user_role req = admin
      | Some (Document r) => r ∈ subscriptions st ∧ entitled now (Req.user_id req) r
      | None => False
      end
    | respond status error => status = 403 ∧ error = "Active subscription required"
    | next_error _ => False
    end ∧
    attachSubscription now req st = (Return (next (Req.attach attached req)), st) ∧
    (is_Some attached ↔ subscribed now (Req.user_id req) st).
Proof.
  assert (Hattach : ∃ attached,
    attachSubscription now req st = (Return (next (Req.attach attached req)), st) ∧
    (is_Some attached ↔ subscribed now (Req.user_id req) st)).
  { unfold attachSubscription, try_catch.
    destruct (getActive_run now (Req.user_id req) st) as [found Hrun].
    unfold bind at 1. rewrite (bind_Return _ _ _ _ _ Hrun). unfold ret at 1.
    eexists. split; [reflexivity|]. destruct found as [[i r]|]; cbn.
    - apply getActive_Some in Hrun as [Hi Hent]. split; [|eauto].
      intros _. exists r. split; [by eapply list_elem_of_lookup_2 | done].
    - split; [by intros [? ?]|]. intros (s & Hs & Hent).
      by eapply getActive_None in Hrun. }
  destruct Hattach as (attached & Hrun_a & Ha).
  unfold requireSubscription, catch_next.
  destruct (Req.user_role req) eqn:Hrole.
  - eexists _, attached. split; [reflexivity|]. cbn. split; [|done]. split; auto.
  - destruct (getActive_run now (Req.user_id req) st) as [found Hrun].
    rewrite (bind_Return _ _ _ _ _ Hrun).
    destruct found as [[i r]|].
    + apply getActive_Some in Hrun as [Hi Hent].
      apply list_elem_of_lookup_2 in Hi.
      eexists _, attached. split; [reflexivity|]. cbn. split; [|done].
      split; [|done]. intros _. right. by exists r.
    + eexists _, attached. split; [reflexivity|]. cbn. split; [|done].
      split; [done|]. intros [?|(r & Hr & Hent)]; [done|].
      by eapply getActive_None in Hrun.
Qed.

Lemma featured_save (i : nat) (x : Subscription.t) (st : Store) :
  all_featured st → Subscription.features x = Subscription.all_features →
  all_featured (final (Subscription_save i x st)).
Proof.
  intros Hst Hx r. unfold Subscription_save, final.
  destruct (bool_decide _); cbn; [|apply Hst].
  intros Hr. apply elem_of_list_insert_inv in Hr as [->|Hr]; [done | by apply Hst].
Qed.

Lemma featured_upsert (doc : Subscription.t) (st : Store) :
  all_featured st → Subscription.features doc = Subscription.all_features →
  all_featured (final (Subscription_upsert doc st)).
Proof.
  intros Hst Hdoc r.
  destruct (upsert_cases doc st) as [Hup | (subs' & Hup & Hsubs)]; rewrite Hup; cbn.
  - apply Hst.
  - intros Hr. apply Hsubs in Hr as [->|Hr]; [done | by apply Hst].
Qed.

Lemma featured_keeps {A} (m : Async A) (st : Store) :
  keeps_subscriptions m → all_featured st → all_featured (final (m st)).
Proof. intros Hk Hst r. rewrite Hk. apply Hst. Qed.

Lemma featured_after {A B} (m : Async A) (k : A → Async B) (st : Store) :
  (∀ a, keeps_subscriptions (k a)) →
  all_featured (final (m st)) → all_featured (final (bind m k st)).
Proof. intros Hk H r. rewrite bind_keeps_after by done. apply H. Qed.

Lemma featured_found (p : Subscription.t → bool) (st : Store) (i : nat)
    (x : Subscription.t) :
  all_featured st → findOne p (subscriptions st) = Some (i, x) →
  Subscription.features x = Subscription.all_features.
Proof.
  intros Hst Hf. apply findOne_Some in Hf as (Hi & _). apply Hst.
  by eapply list_elem_of_lookup_2.
Qed.

Lemma doc_features (now : Z) (userId : string) (customerId : option string)
    (stripeSub : StripeSubscription.t) (plan : Plan) :
  Subscription.features (all_features_doc now userId customerId stripeSub plan)
    = Subscription.all_features.
Proof. unfold all_features_doc. by destruct (extractPeriodDates now stripeSub). Qed.

Lemma featured_checkout (stripe : StripeApi.t) (now : Z) (session : StripeSession.t)
    (st : Store) :
  all_featured st → all_featured (final (handleCheckoutCompleted stripe now session st)).
Proof.
  intros Hst. unfold handleCheckoutCompleted.
  destruct (StripeSession.metadata session) as [credits|plan|other].
  - apply featured_keeps; [keeping | done].
  - destruct (StripeSession.subscription_id session) as [sid|]; [|done].
    rewrite final_bind. unfold external at 1.
    destruct (StripeApi.subscriptions_retrieve stripe sid) as [stripeSub|]; [|done].
    destruct (extractPeriodDates now stripeSub) as [ps pe].
    apply featured_after.
    { intros a. keeping. apply keeps_pure, pure_creditLimitForPlan. }
    by apply featured_upsert.
  - done.
Qed.

Lemma featured_webhook (stripe : StripeApi.t) (now : Z) (event : Event) (st : Store) :
  all_featured st → all_featured (final (handleWebhookEvent stripe now event st)).
Proof.
  intros Hst. destruct event as [session|sub|sub|invoice|invoice|type]; cbn [handleWebhookEvent].
  - by apply featured_checkout.
  - unfold handleSubscriptionUpdated, Subscription_findOne. rewrite final_bind.
    unfold read at 1.
    destruct (findOne _ (subscriptions st)) as [[j x]|] eqn:Hf; [|done].
    pose proof (featured_found _ _ _ _ Hst Hf) as Hx.
    destruct (extractPeriodDates now sub) as [ps pe].
    apply featured_save; [done|]. by destruct (truthy _).
  - unfold handleSubscriptionDeleted, Subscription_findOne. rewrite final_bind.
    unfold read at 1.
    destruct (findOne _ (subscriptions st)) as [[j x]|] eqn:Hf; [|done].
    pose proof (featured_found _ _ _ _ Hst Hf) as Hx.
    apply featured_after; [by intros ? ?|]. by apply featured_save.
  - apply featured_keeps; [apply keeps_handleInvoicePaymentSucceeded | done].
  - unfold handlePaymentFailed, Subscription_findOne. rewrite final_bind.
    unfold read at 1.
    destruct (findOne _ (subscriptions st)) as [[j x]|] eqn:Hf; [|done].
    pose proof (featured_found _ _ _ _ Hst Hf) as Hx.
    apply featured_after; [intros ?; keeping|]. by apply featured_save.
  - done.
Qed.

Lemma featured_void {A} (m : Async A) (st : Store) :
  all_featured (final (m st)) → all_featured (final (void m st)).
Proof. intros H r. rewrite keeps_void. apply H. Qed.

Lemma featured_reconcile (stripe : StripeApi.t) (now : Z) (o : ReconciliationOp)
    (st : Store) :
  all_featured st → all_featured (final (reconcile stripe now o st)).
Proof.
  intros Hst. destruct o; cbn [reconcile]; apply featured_void.
  - apply featured_keeps; [apply keeps_pure, pure_createCreditCheckoutSession | done].
  - unfold createSubscriptionCheckoutSession, User_findById. rewrite final_bind.
    unfold read at 1. destruct (users st !! userId) as [u|]; [|done].
    destruct (getActive_run now userId st) as [found Hrun].
    rewrite final_bind, Hrun. destruct found; [done|].
    rewrite final_bind. pose proof (pure_customer stripe userId u st) as Hpure.
    unfold final in Hpure.
    destruct (getOrCreateCustomer stripe userId u st) as [[customerId|e] st1];
      simpl in Hpure; subst st1; [|done].
    rewrite final_bind. unfold external at 1.
    destruct (StripeApi.subscriptions_list stripe customerId "active" 1%nat)
      as [[|stSub rest]|]; [| |done].
    + apply featured_keeps; [|done]. unfold AppSettings_get_text. keeping.
    + apply featured_after; [intros ?; by apply keeps_pure, pure_throw|].
      apply featured_upsert; [done | apply doc_features].
  - unfold cancelSubscription.
    destruct (getActive_run now userId st) as [found Hrun].
    rewrite final_bind, Hrun. destruct found as [[j x]|]; [|done].
    apply getActive_Some in Hrun as [Hj _]. apply list_elem_of_lookup_2, Hst in Hj.
    destruct (Subscription.stripeSubscriptionId x); [|done].
    rewrite final_bind. unfold external at 1.
    destruct (StripeApi.subscriptions_update_cancel _ _ _); [|done].
    apply featured_after; [intros ?; by apply keeps_pure, pure_ret|].
    by apply featured_save.
  - unfold reactivateSubscription, Subscription_findOne. rewrite final_bind.
    unfold read at 1.
    destruct (findOne _ (subscriptions st)) as [[j x]|] eqn:Hf; [|done].
    pose proof (featured_found _ _ _ _ Hst Hf) as Hx.
    destruct (Subscription.stripeSubscriptionId x); [|done].
    rewrite final_bind. unfold external at 1.
    destruct (StripeApi.subscriptions_update_cancel _ _ _); [|done].
    apply featured_after; [intros ?; by apply keeps_pure, pure_ret|].
    by apply featured_save.
  - unfold switchPlan.
    destruct (getActive_run now userId st) as [found Hrun].
    rewrite final_bind, Hrun. destruct found as [[j x]|]; [|done].
    apply getActive_Some in Hrun as [Hj _]. apply list_elem_of_lookup_2, Hst in Hj.
    destruct (plan_eqb _ _); [done|].
    destruct (Subscription.cancelAtPeriodEnd x) eqn:Hc; [done|].
    unfold AppSettings_get_text. rewrite final_bind. unfold read at 1.
    destruct (negb _); [done|].
    destruct (Subscription.stripeSubscriptionId x) as [sid|]; [|done].
    rewrite final_bind. unfold external at 1.
    destruct (StripeApi.subscriptions_retrieve stripe sid) as [stripeSub|]; [|done].
    destruct (StripeSubscription.items stripeSub) as [|item items]; [done|].
    rewrite final_bind. unfold external at 1.
    destruct (StripeApi.subscriptions_update_price _ _ _ _) as [updated|]; [|done].
    destruct (extractPeriodDates now updated) as [ps pe].
    apply featured_after; [intros ?; by apply keeps_pure, pure_ret|].
    by apply featured_save.
  - apply featured_keeps; [apply keeps_pure, pure_createBillingPortalSession | done].
  - unfold verifyAndProcessSession, Transaction_findOne. rewrite final_bind.
    unfold read at 1. destruct (snd <$> findOne _ (transactions st)); [done|].
    rewrite final_bind. unfold external at 1.
    destruct (StripeApi.checkout_sessions_retrieve stripe sessionId) as [[session|]|];
      [| done | done].
    destruct (negb (str_eqb (StripeSession.payment_status session) "paid")); [done|].
    destruct (negb (str_eqb (StripeSession.metadata_userId session) userId)); [done|].
    apply featured_after; [intros ?; by apply keeps_pure; purity|].
    by apply featured_checkout.
  - unfold syncSubscriptionFromStripe, User_findById. rewrite final_bind.
    unfold read at 1. destruct (users st !! userId) as [u|]; [|done].
    rewrite final_bind. pose proof (pure_resolveCustomer stripe userId u st) as Hpure.
    unfold final in Hpure.
    destruct (resolveCustomer stripe userId u st) as [[[customerId|]|e] st1];
      simpl in Hpure; subst st1; [|done|done].
    rewrite final_bind. unfold external at 1.
    destruct (StripeApi.subscriptions_list stripe customerId "active" 5%nat) as [subs|];
      [|done].
    rewrite final_bind. unfold external at 1.
    destruct (StripeApi.subscriptions_list stripe customerId "trialing" 5%nat)
      as [trialSubs|]; [|done].
    destruct (subs ++ trialSubs) as [|stripeSub rest]; [done|].
    apply featured_after; [intros ?; by apply keeps_pure, pure_ret|].
    apply featured_upsert; [done | apply doc_features].
  - apply featured_keeps; [apply keeps_syncTransactions | done].
Qed.

Lemma attach_same (a : Attached) (req : Req.t) :
  Req.subscription req = Some a → Req.attach (Some a) req = req.
Proof. destruct req. cbn. by intros ->. Qed.

(** X18. Every record the payment service writes has all three features
    on: from a store where that holds, any sequence of webhook events and
    reconciliation calls leads to a store where it holds. On such a store a
    route behind [requireSubscription] and [requireFeature] behaves as the
    same route behind [requireSubscription] alone: the feature gate never
    rejects anybody the subscription gate let through. *)
Theorem feature_gate_never_rejects_a_subscriber
    (rs : list (Request SubscriptionOp)) (st0 : Store) :
  all_featured st0 →
  let st := serve (λ r, subscription_call (api r) (clock r) (op r)) rs st0 in
  all_featured st ∧
  ∀ A now featureKey (handler : Req.t → Async (Response A)) req,
    feature_route now featureKey handler req st = subscriber_route now handler req st.
Proof.
  intros H0 st. assert (Hst : all_featured st).
  { subst st. revert st0 H0. induction rs as [|r rs IH]; intros st0 H0; [done|].
    cbn [serve fold_left]. apply IH. destruct r as [stripe now [event|o]]; cbn.
    - by apply featured_webhook.
    - by apply featured_reconcile. }
  split; [done|]. clearbody st. clear rs st0 H0.
  intros A now featureKey handler req. unfold feature_route, subscriber_route, through.
  destruct (requireSubscription_run now req st) as (handled & Hrun & Hh).
  rewrite !(bind_Return _ _ _ _ _ Hrun).
  destruct handled as [req'|err|status error]; [|done|done].
  destruct Hh as (_ & Hrole & Hsub).
  unfold requireFeature, catch_next. rewrite Hrole.
  destruct (Req.user_role req); [done|].
  destruct (Req.subscription req') as [[|r]|] eqn:Ha; [done| |done].
  destruct Hsub as [Hr _]. unfold bind at 2. unfold ret at 1.
  cbn [attached_features]. rewrite (Hst r Hr).
  replace (feature featureKey Subscription.all_features) with true
    by (by destruct featureKey).
  unfold bind, ret. by rewrite attach_same.
Qed.

Lemma entitlement_scenario_featured :
  let st := serve (λ r, subscription_call (api r) (clock r) (op r))
              entitlement_scenario store_2_credits in
  (Subscription.status <$> subscriptions st) = ["active"] ∧
  all_featured st ∧
  feature_route 0 salaryEstimation (λ _, ret (Json 200 tt)) request_of_u1 st
    = subscriber_route 0 (λ _, ret (Json 200 tt)) request_of_u1 st.
Proof.
  split; [by vm_compute|].
  destruct (feature_gate_never_rejects_a_subscriber entitlement_scenario store_2_credits)
    as [Hst Hroutes].
  - intros r Hr. inversion Hr.
  - split; [exact Hst|]. apply Hroutes.
Defined.

(* ------------------------------------------------------------------ *)
(** ** Public resumes *)

Lemma isUserSubscribed_run (now : Z) (userId : string) (st : Store) :
  ∃ b, Subscription_isUserSubscribed now userId st = (Return b, st) ∧
       (b = true ↔ subscribed now userId st).
Proof.
  unfold Subscription_isUserSubscribed.
  destruct (getActive_run now userId st) as [found Hrun].
  rewrite (bind_Return _ _ _ _ _ Hrun). eexists. split; [reflexivity|].
  rewrite bool_decide_eq_true. destruct found as [[i r]|].
  - apply getActive_Some in Hrun as [Hi Hent]. split; [|eauto].
    intros _. exists r. split; [by eapply list_elem_of_lookup_2 | done].
  - split; [by intros [? ?]|]. intros (s & Hs & Hent).
    unfold Subscription_getActiveForUser, Subscription_findOne, read in Hrun.
    injection Hrun as Hrun. rewrite findOne_None in Hrun.
    apply active_filter_spec in Hent. rewrite (Hrun s Hs) in Hent. done.
Qed.

(** X19. The public access check never writes, and allows a resume exactly
    when it is public and its owner is an admin or has an active
    subscription; a missing or private resume is answered 404, a public
    resume of any other owner 403. Whether the resume is soft-deleted plays
    no part. *)
Theorem public_access_iff_public_and_entitled
    (now : Z) (resume : option Resume.t) (st : Store) :
  ∃ access,
    validatePublicAccess now resume st = (Return access, st) ∧
    (access = allowed ↔
     ∃ r, resume = Some r ∧ Resume.visibility r = Resume.public ∧
          (owned_by_admin r st ∨ subscribed now (Resume.userId r) st)) ∧
    (access = allowed ∨ access = refused 404 ∨ access = refused 403) ∧
    (access = refused 404 ↔
     ∀ r, resume = Some r → Resume.visibility r = Resume.private).
Proof.
  unfold validatePublicAccess. destruct resume as [r|].
  2:{ eexists. split; [reflexivity|]. split; [|split; [auto|]].
      - split; [done|]. by intros (r & ? & _).
      - split; [by intros _ r ?|done]. }
  unfold is_public. destruct (Resume.visibility r) eqn:Hv; cbn [negb].
  2:{ eexists. split; [reflexivity|]. split; [|split; [auto|]].
      - split; [done|]. intros (r' & [= <-] & ? & _). congruence.
      - split; [|done]. by intros _ r' [= <-]. }
  unfold User_findById. rewrite bind_read.
  destruct (isUserSubscribed_run now (Resume.userId r) st) as (b & Hrun & Hb).
  assert (Hadm : (match users st !! Resume.userId r with
                  | Some u => is_admin (User.role u) | None => false end) = true
                 ↔ owned_by_admin r st).
  { unfold owned_by_admin. destruct (users st !! Resume.userId r) as [u|].
    - destruct (User.role u) eqn:Hr; cbn.
      + split; [eauto|done].
      + split; [done|]. intros (u' & [= <-] & ?). congruence.
    - split; [done|]. by intros (u' & ? & _). }
  destruct (match users st !! Resume.userId r with
            | Some u => is_admin (User.role u) | None => false end).
  - unfold bind, ret. eexists. split; [reflexivity|]. split; [|split; [auto|]].
    + split; [|done]. intros _. exists r. split; [done|]. split; [done|].
      left. by apply Hadm.
    + split; [done|]. intros H. specialize (H r eq_refl). congruence.
  - rewrite (bind_Return _ _ _ _ _ Hrun). destruct b.
    + eexists. split; [reflexivity|]. split; [|split; [auto|]].
      * split; [|done]. intros _. exists r. split; [done|]. split; [done|].
        right. by apply Hb.
      * split; [done|]. intros H. specialize (H r eq_refl). congruence.
    + eexists. split; [reflexivity|]. split; [|split; [auto|]].
      * split; [done|]. intros (r' & [= <-] & _ & [H|H]).
        -- apply Hadm in H. done.
        -- apply Hb in H. done.
      * split; [done|]. intros H. specialize (H r eq_refl). congruence.
Qed.


Lemma privatize_not_exposed (userId : string) (r : Resume.t) :
  exposed userId (privatize userId r) = false.
Proof.
  unfold privatize, exposed, is_public.
  destruct (str_eqb (Resume.userId r) userId) eqn:Eu; cbn [andb]; [|by rewrite Eu].
  destruct (Resume.visibility r) eqn:Ev; cbn [andb].
  - destruct (Resume.isDeleted r) eqn:Ed; cbn [negb Resume.userId Resume.visibility andb].
    + by rewrite Eu, Ev, Ed.
    + by rewrite Eu.
  - by rewrite Eu, Ev.
Qed.

Lemma privatize_cases (userId : string) (r : Resume.t) :
  privatize userId r = r ∨
  (exposed userId r = true ∧
   privatize userId r = Resume.mk (Resume.userId r) Resume.private (Resume.isDeleted r)).
Proof.
  unfold privatize, exposed, is_public.
  destruct (_ && _ && _); [by right | by left].
Qed.

Lemma privatize_idem (userId : string) (r : Resume.t) :
  privatize userId (privatize userId r) = privatize userId r.
Proof.
  pose proof (privatize_not_exposed userId r) as H.
  unfold exposed, is_public in H. unfold privatize at 1. by rewrite H.
Qed.

Lemma filter_exposed_privatized (userId : string) (l : list Resume.t) :
  List.filter (exposed userId) (map (privatize userId) l) = [].
Proof.
  induction l as [|r l IH]; [done|]. cbn [map List.filter].
  by rewrite privatize_not_exposed.
Qed.

(** X20. [enforceVisibility] changes nothing and answers 0 for an admin or a
    subscribed user. For any other user it turns every public, undeleted
    resume of that user private and answers their number; afterwards the
    user has no such resume, resumes of other users are as before, and a
    second call answers 0 and changes nothing. *)
Theorem enforceVisibility_privatizes_non_subscribers
    (now : Z) (user_id : string) (user_role : Role) (st : Store) :
  let call := enforceVisibility now user_id user_role st in
  let st' := final call in
  (user_role = admin ∨ subscribed now user_id st →
   call = (Return 0, st)) ∧
  (user_role = user → ¬ subscribed now user_id st →
   call = (Return (Z.of_nat (length (List.filter (exposed user_id) (resumes st)))),
           set_resumes (map (privatize user_id)) st) ∧
   (∀ r, r ∈ resumes st' → exposed user_id r = false) ∧
   (∀ k r, resumes st !! k = Some r → Resume.userId r ≠ user_id →
           resumes st' !! k = Some r) ∧
   enforceVisibility now user_id user_role st' = (Return 0, st')).
Proof.
  intros call st'. subst st' call. unfold enforceVisibility.
  destruct (isUserSubscribed_run now user_id st) as (b & Hrun & Hb).
  split.
  - intros [->|Hsub]; [done|]. destruct user_role; [done|].
    rewrite (bind_Return _ _ _ _ _ Hrun). apply Hb in Hsub as ->. done.
  - intros -> Hnot. rewrite (bind_Return _ _ _ _ _ Hrun).
    destruct b; [exfalso; by apply Hnot, Hb|].
    unfold Resume_privatize_all, exposed. split; [done|].
    cbn [final snd resumes set_resumes]. split; [|split].
    + intros r Hr. apply list_elem_of_fmap in Hr as (r0 & -> & _).
      apply privatize_not_exposed.
    + intros k r Hk Hne. rewrite list_lookup_fmap, Hk. cbn. f_equal.
      unfold privatize. destruct (str_eqb (Resume.userId r) user_id) eqn:E; [|done].
      by apply str_eqb_eq in E.
    + destruct (isUserSubscribed_run now user_id
                  (set_resumes (map (privatize user_id)) st)) as (b' & Hrun' & Hb').
      rewrite (bind_Return _ _ _ _ _ Hrun').
      destruct b'; [exfalso; by apply Hnot, Hb'|].
      pose proof (filter_exposed_privatized user_id (resumes st)) as Hnone.
      unfold exposed in Hnone. cbn [resumes set_resumes]. rewrite Hnone.
      f_equal. destruct st. unfold set_resumes. cbn. f_equal.
      rewrite <- list_fmap_compose. apply list_fmap_ext. intros _ r _. cbn.
      by rewrite privatize_idem.
Qed.

(** X21. After a subscription-deleted event for the only record that could
    entitle its owner (who is not an admin), the public access check refuses
    every resume of that owner: with 404 for the resumes the event turned
    private, which are all that were not soft-deleted. *)
Theorem deleted_subscription_closes_public_access
    (now : Z) (stripeSubscription : StripeSubscription.t) (st : Store)
    (i : nat) (s : Subscription.t) :
  findOne (by_stripe_id (Some (StripeSubscription.id stripeSubscription)))
    (subscriptions st) = Some (i, s) →
  (∀ u, users st !! Subscription.userId s = Some u → User.role u = user) →
  (∀ j x, subscriptions st !! j = Some x → j ≠ i →
          ¬ entitled now (Subscription.userId s) x) →
  let st' := final (handleSubscriptionDeleted stripeSubscription st) in
  ∀ resume, Resume.userId resume = Subscription.userId s →
    ∃ status, validatePublicAccess now (Some resume) st' = (Return (refused status), st') ∧
              (resume ∈ resumes st' → Resume.isDeleted resume = false → status = 404).
Proof.
  intros Hf Hrole Hothers st' resume Howner.
  assert (Hst' : st' = set_resumes (map (privatize (Subscription.userId s)))
                         (set_subscriptions (<[i := Subscription.set_status "expired" s]>) st)).
  { subst st'. unfold handleSubscriptionDeleted, Subscription_findOne.
    rewrite bind_read, Hf. unfold bind.
    rewrite save_valid by (cbn; unfold Subscription.status_enum; rewrite !elem_of_cons; auto 10).
    done. }
  assert (Hlapsed : ¬ subscribed now (Resume.userId resume) st').
  { intros (x & Hx & Hent). rewrite Hst' in Hx. rewrite Howner in Hent. cbn in Hx.
    apply list_elem_of_lookup_1 in Hx as [j Hj].
    apply list_lookup_insert_Some in Hj as [(-> & <- & _) | (Hne & Hj)].
    - destruct Hent as (_ & [H|H] & _); cbn in H; discriminate.
    - by eapply Hothers. }
  assert (Hprivate : resume ∈ resumes st' → Resume.isDeleted resume = false →
                     is_public resume = false).
  { intros Hin Hdel. rewrite Hst' in Hin. cbn in Hin.
    apply list_elem_of_fmap in Hin as (r0 & -> & _).
    pose proof (privatize_not_exposed (Subscription.userId s) r0) as He.
    unfold exposed in He. rewrite Howner, str_eqb_refl, Hdel in He.
    by rewrite andb_true_r in He. }
  unfold validatePublicAccess.
  destruct (is_public resume) eqn:Hpub; cbn [negb].
  - unfold User_findById. rewrite bind_read.
    assert (Hadm : match users st' !! Resume.userId resume with
                   | Some u => is_admin (User.role u) | None => false end = false).
    { rewrite Hst', Howner. cbn [users set_resumes set_subscriptions].
      destruct (users st !! Subscription.userId s) as [u|]; [|done].
      by rewrite (Hrole u eq_refl). }
    rewrite Hadm.
    destruct (isUserSubscribed_run now (Resume.userId resume) st') as (b & Hrun & Hb).
    rewrite (bind_Return _ _ _ _ _ Hrun).
    destruct b; [exfalso; by apply Hlapsed, Hb|].
    exists 403. split; [done|]. intros Hin Hdel. by specialize (Hprivate Hin Hdel).
  - exists 404. by split.
Qed.

Lemma deleted_subscription_scenario :
  let st' := final (handleSubscriptionDeleted sub_1_active store_with_resumes) in
  validatePublicAccess 2000 (Some (Resume.mk "u1" Resume.private false)) st'
    = (Return (refused 404), st').
Proof.
  cbv zeta.
  assert (Hrole : ∀ u, users store_with_resumes !! Subscription.userId yearly_sub_1 = Some u →
                       User.role u = user).
  { intros u Hu. vm_compute in Hu. by injection Hu as <-. }
  assert (Hothers : ∀ j x, subscriptions store_with_resumes !! j = Some x → j ≠ 0%nat →
                           ¬ entitled 2000 (Subscription.userId yearly_sub_1) x).
  { intros [|j] x Hx Hne; [done | discriminate Hx]. }
  destruct (deleted_subscription_closes_public_access 2000 sub_1_active store_with_resumes
              0%nat yearly_sub_1 eq_refl Hrole Hothers
              (Resume.mk "u1" Resume.private false) eq_refl)
    as (status & Hrun & H404).
  rewrite Hrun. rewrite H404; [reflexivity | | reflexivity].
  vm_compute. left.
Defined.

(* ------------------------------------------------------------------ *)
(** ** Paid actions of the controllers *)

Lemma deductCredits_user (userId action : string) (u : User.t) (required : Z)
    (st : Store) :
  users st !! userId = Some u → User.role u = user →
  cost_of action st = Some required → 0 ≤ required →
  deductCredits userId action st =
    if required <=? User.credits u
    then (Return (Deduction.mk true required (Fin (User.credits u - required))
                    None None false),
          debited userId action u required st)
    else (Return (insufficient required (User.credits u)), st).
Proof.
  intros Hu Hr Hcost Hreq. unfold cost_of in Hcost.
  destruct (costMap !! action) as [settingKey|] eqn:Hc; [|done].
  injection Hcost as Hcost.
  unfold deductCredits. rewrite (bind_Return _ _ _ _ _ (checkCredits_user _ _ _ _ _ Hu Hr Hc)).
  rewrite Hcost. unfold deduct_after_check.
  cbn [CreditCheck.unlimited CreditCheck.hasCredits CreditCheck.required CreditCheck.available].
  destruct (required <=? User.credits u) eqn:Hle; cbn [negb]; [|done].
  unfold deduct_update, deduct_log, User_findByIdAndUpdate_inc, bind.
  cbn [CreditCheck.required]. rewrite Hu.
  destruct (configured_action_label _ _ Hc) as (label & Hl & Hne).
  unfold CreditLog_create_described. rewrite (label_of_own _ _ Hl). cbn [castString].
  unfold CreditLog_create, write, ret, debited.
  cbn [CreditLog.credits CreditLog.description]. rewrite Hl. cbn [default from_option id].
  rewrite Hne, (proj2 (Z.ltb_ge required 0) Hreq). cbn [User.credits User.inc].
  repeat f_equal; lia.
Qed.

(** X22. For a registered user who is not an admin and a cost that is not
    negative, [createResume] with a valid body either debits the cost and
    then stores one resume of that user with the requested visibility
    (private when none is given) and answers 201 with the amount debited and
    the balance left, or, when the balance is below the cost, answers 402
    and changes nothing. The requested visibility is stored as given: no
    subscription is asked for here. *)
Theorem createResume_charges_then_creates
    (user_id : string) (value : ResumeValue.t) (st : Store) (u : User.t) (required : Z) :
  users st !! user_id = Some u → User.role u = user →
  cost_of "resume_creation" st = Some required → 0 ≤ required →
  let resume :=
    Resume.mk user_id (default Resume.private (ResumeValue.visibility value)) false in
  createResume user_id (Some value) st =
    if required <=? User.credits u
    then (Return (Json 201 (resume, required, Fin (User.credits u - required))),
          set_resumes (λ l, l ++ [resume]) (debited user_id "resume_creation" u required st))
    else (Return (PaymentRequired
                    (Deduction.error (insufficient required (User.credits u)))
                    (Some required) (Fin (User.credits u))), st).
Proof.
  intros Hu Hr Hcost Hreq resume. unfold createResume, bind.
  rewrite (deductCredits_user _ _ _ _ _ Hu Hr Hcost Hreq).
  by destruct (required <=? User.credits u).
Qed.

Lemma paid_resume_scenario :
  createResume "u1" (Some go_public) store_1_credit =
    (Return (Json 201 (Resume.mk "u1" Resume.public false, 1, Fin 0)),
     set_resumes (λ l, l ++ [Resume.mk "u1" Resume.public false])
       (debited "u1" "resume_creation" (User.mk "ann@example.org" user 1) 1
          store_1_credit)).
Proof.
  exact (createResume_charges_then_creates "u1" go_public store_1_credit
           (User.mk "ann@example.org" user 1) 1 eq_refl eq_refl eq_refl ltac:(done)).
Defined.

(** X23. An update by a user who is neither admin nor subscribed changes at
    most the addressed resume, and only if it belongs to that user and is not
    deleted; owner and deletion mark never change, and no resume that was
    private becomes public. *)
Theorem update_cannot_publish_without_subscription
    (now : Z) (user_id : string) (id : nat) (body : option ResumeValue.t) (st : Store) :
  ¬ subscribed now user_id st →
  let st' := final (updateResume now user_id user id body st) in
  length (resumes st') = length (resumes st) ∧
  ∀ k r', resumes st' !! k = Some r' →
    ∃ r, resumes st !! k = Some r ∧
         Resume.userId r' = Resume.userId r ∧ Resume.isDeleted r' = Resume.isDeleted r ∧
         (is_public r' = true → is_public r = true) ∧
         (r' ≠ r → k = id ∧ Resume.userId r = user_id ∧ Resume.isDeleted r = false).
Proof.
  intros Hnot st'. subst st'. unfold updateResume. rewrite bind_read.
  assert (Hsame : ∀ st0, st0 = st →
    length (resumes st0) = length (resumes st) ∧
    ∀ k r', resumes st0 !! k = Some r' →
      ∃ r, resumes st !! k = Some r ∧
           Resume.userId r' = Resume.userId r ∧ Resume.isDeleted r' = Resume.isDeleted r ∧
           (is_public r' = true → is_public r = true) ∧
           (r' ≠ r → k = id ∧ Resume.userId r = user_id ∧ Resume.isDeleted r = false)).
  { intros st0 ->. split; [done|]. intros k r' Hk. exists r'. by repeat split. }
  destruct (resumes st !! id) as [resume|] eqn:Hid; [|by apply Hsame].
  destruct (Resume.isDeleted resume) eqn:Hdel; [by apply Hsame|].
  cbn [is_admin negb andb].
  destruct (str_eqb (Resume.userId resume) user_id) eqn:Hown; cbn [negb]; [|by apply Hsame].
  apply str_eqb_eq in Hown.
  destruct body as [value|]; [|by apply Hsame].
  rewrite andb_true_r.
  destruct (isUserSubscribed_run now user_id st) as (b & Hrun & Hb).
  destruct b; [exfalso; by apply Hnot, Hb|].
  destruct (wants_public value && negb (is_public resume)) eqn:Hgate.
  - rewrite final_bind, Hrun. by apply Hsame.
  - unfold bind, ret, write, final. cbn [negb snd resumes set_resumes].
    split; [by rewrite length_insert|].
    intros k r' Hk.
    apply list_lookup_insert_Some in Hk as [(-> & <- & _) | (Hne & Hk)].
    + exists resume. split; [done|]. cbn. split; [done|]. split; [done|]. split; [|done].
      unfold wants_public, is_public in *.
      destruct (ResumeValue.visibility value) as [[|]|]; cbn; try done.
      cbn in Hgate. by destruct (Resume.visibility resume).
    + exists r'. by repeat split.
Qed.

Lemma lapsed_subscriber (st : Store) :
  subscriptions st = [yearly_sub_1] → ¬ subscribed 9000 "u1" st.
Proof.
  intros Hs (s & Hin & _ & _ & e & He & Hlt). rewrite Hs in Hin.
  apply list_elem_of_singleton in Hin as ->. injection He as <-. lia.
Qed.

Lemma publish_refused_scenario :
  let call := updateResume 9000 "u1" user 1 (Some go_public) store_with_resumes in
  outcome call = Return (Failed 403 "Subscription required") ∧
  (Resume.visibility <$> resumes (final call))
    = [Resume.public; Resume.private; Resume.public] ∧
  length (resumes (final call)) = length (resumes store_with_resumes).
Proof.
  split; [by vm_compute|]. split; [by vm_compute|].
  exact (proj1 (update_cannot_publish_without_subscription 9000 "u1" 1 (Some go_public)
                  store_with_resumes (lapsed_subscriber store_with_resumes eq_refl))).
Defined.

Lemma generator_unfold {A} (g : Generator) :
  @generator A g = paid_generation (generator_action g) (generator_failure g).
Proof. by destruct g. Qed.

Lemma generator_cost (g : Generator) (st : Store) : is_Some (cost_of (generator_action g) st).
Proof. unfold cost_of. destruct g; vm_compute; eauto. Qed.

Lemma gatherProfile_run (userId : string) (u : User.t) (st : Store) :
  users st !! userId = Some u → gatherProfile userId st = (Return tt, st).
Proof. intros Hu. unfold gatherProfile, User_findById. by rewrite bind_read, Hu. Qed.

(** X24. Each of the five paid generators debits a user who can pay before
    it generates, and keeps the debit whatever the generation does: when the
    generation fails the answer is 500 with the generator's failure message,
    and the store is the one after the debit (balance lowered, usage entry
    written), exactly as after a successful generation. *)
Theorem failed_generation_is_still_charged {A}
    (g : Generator) (userId : string) (generated : completion A) (st : Store)
    (u : User.t) (required : Z) :
  users st !! userId = Some u → User.role u = user →
  cost_of (generator_action g) st = Some required →
  0 ≤ required → required ≤ User.credits u →
  generator g userId true generated st =
    (Return match generated with
            | Return result => Json 200 (result, required, Fin (User.credits u - required))
            | Throw _ => Failed 500 (generator_failure g)
            end,
     debited userId (generator_action g) u required st).
Proof.
  intros Hu Hr Hcost Hreq Hle. rewrite generator_unfold. unfold paid_generation.
  cbn [negb]. unfold bind at 1.
  rewrite (deductCredits_user _ _ _ _ _ Hu Hr Hcost Hreq).
  rewrite (proj2 (Z.leb_le _ _) Hle). cbn [Deduction.success negb].
  unfold try_catch.
  rewrite (bind_Return _ _ _ _ _
             (gatherProfile_run userId (User.inc (- required) u) _
                (lookup_insert_eq _ _ _))).
  rewrite bind_external. by destruct generated.
Qed.

Lemma failed_cover_letter_scenario :
  @generator unit JobPost "u1" true (Throw unreachable) store_1_credit =
    (Return (Failed 500 "Failed to generate cover letter"),
     debited "u1" "job_post_cover_letter" (User.mk "ann@example.org" user 1) 1
       store_1_credit).
Proof.
  exact (failed_generation_is_still_charged JobPost "u1" (Throw unreachable) store_1_credit
           (User.mk "ann@example.org" user 1) 1 eq_refl eq_refl eq_refl
           ltac:(done) ltac:(done)).
Defined.

(** X25. On the generation routes the subscription gate comes first: a user
    who is neither admin nor subscribed is answered 403 and is not debited,
    whatever the body and the generation would have been. *)
Theorem generation_route_refuses_before_the_debit {A}
    (now : Z) (g : Generator) (valid : bool) (generated : completion A)
    (req : Req.t) (st : Store) :
  Req.user_role req = user → ¬ subscribed now (Req.user_id req) st →
  generation_route now g valid generated req st
    = (Return (Failed 403 "Active subscription required"), st).
Proof.
  intros Hrole Hnot. unfold generation_route, through, requireSubscription, catch_next.
  rewrite Hrole.
  destruct (getActive_run now (Req.user_id req) st) as [found Hrun].
  unfold bind at 1. rewrite (bind_Return _ _ _ _ _ Hrun).
  destruct found as [[i r]|]; [|done].
  exfalso. apply Hnot. apply getActive_Some in Hrun as [Hi Hent].
  exists r. split; [by eapply list_elem_of_lookup_2 | done].
Qed.

Lemma unsubscribed_generation_scenario :
  generation_route 0 UpworkProposal true (Return "Dear client") request_of_u1 store_1_credit
    = (Return (Failed 403 "Active subscription required"), store_1_credit).
Proof.
  refine (generation_route_refuses_before_the_debit 0 UpworkProposal true
            (Return "Dear client") request_of_u1 store_1_credit eq_refl _).
  intros (s & Hin & _). inversion Hin.
Defined.

(* ------------------------------------------------------------------ *)
(** ** Settings: seeding and costs *)

Lemma exists_run (key : string) (st : Store) :
  ∃ b, AppSettings_exists key st = (Return b, st) ∧ (b = true ↔ setting_exists key st).
Proof.
  unfold AppSettings_exists, read, setting_exists. eexists. split; [reflexivity|].
  rewrite orb_true_iff, !bool_decide_eq_true. done.
Qed.

Lemma seed_spec (ds : list (string * SettingValue)) (st : Store) :
  ∃ st', seed ds st = (Return tt, st') ∧ same_but_settings st st' ∧
    ∀ key, (settings st' !! key, textSettings st' !! key) =
           if decide (setting_exists key st)
           then (settings st !! key, textSettings st !! key)
           else seeded_value ds key.
Proof.
  revert st. induction ds as [|[k v] ds IH]; intros st.
  - exists st. split; [done|]. split; [done|]. intros key.
    unfold seeded_value. rewrite list_to_map_nil, lookup_empty. case_decide as H; [done|].
    unfold setting_exists in H.
    destruct (settings st !! key), (textSettings st !! key); try done;
      exfalso; apply H; eauto.
  - cbn [seed]. destruct (exists_run k st) as (b & Hrun & Hb).
    rewrite (bind_Return _ _ _ _ _ Hrun). destruct b.
    + unfold bind at 1. unfold ret at 1.
      destruct (IH st) as (st' & Hseed & Hframe & Hval).
      exists st'. split; [done|]. split; [done|]. intros key.
      rewrite Hval. case_decide as Hk; [done|].
      unfold seeded_value. rewrite list_to_map_cons.
      rewrite lookup_insert_ne; [done|]. intros <-. apply Hk, Hb. done.
    + assert (Hmiss : ¬ setting_exists k st) by (intros H; apply Hb in H; done).
      unfold bind at 1.
      set (st1 := final (AppSettings_put k v st)).
      assert (Hput : AppSettings_put k v st = (Return tt, st1)) by (by destruct v).
      rewrite Hput.
      destruct (IH st1) as (st' & Hseed & Hframe & Hval).
      exists st'. split; [done|]. split.
      { destruct Hframe as (?&?&?&?&?). subst st1. destruct v; cbn in *; by repeat split. }
      intros key. rewrite Hval.
      destruct (decide (key = k)) as [->|Hne].
      * rewrite decide_True.
        2:{ subst st1. unfold setting_exists. destruct v; cbn;
            [left | right]; rewrite lookup_insert_eq; eauto. }
        rewrite decide_False by done.
        unfold seeded_value. rewrite list_to_map_cons, lookup_insert_eq.
        unfold setting_exists in Hmiss.
        subst st1. destruct v; cbn; rewrite lookup_insert_eq, lookup_delete_eq; done.
      * assert (Hsame : settings st1 !! key = settings st !! key ∧
                        textSettings st1 !! key = textSettings st !! key).
        { subst st1. destruct v; cbn;
            rewrite lookup_insert_ne, lookup_delete_ne by done; done. }
        destruct Hsame as [Hs Ht]. unfold setting_exists. rewrite Hs, Ht.
        fold (setting_exists key st). case_decide; [done|].
        unfold seeded_value. by rewrite list_to_map_cons, lookup_insert_ne.
Qed.

Lemma seed_present (ds : list (string * SettingValue)) (st : Store) :
  (∀ kv, kv ∈ ds → setting_exists kv.1 st) → seed ds st = (Return tt, st).
Proof.
  induction ds as [|[k v] ds IH]; intros H; [done|]. cbn [seed].
  destruct (exists_run k st) as (b & Hrun & Hb).
  rewrite (bind_Return _ _ _ _ _ Hrun).
  assert (b = true) as -> by (apply Hb, (H (k, v)); left).
  unfold bind at 1. unfold ret at 1. apply IH. intros kv Hkv. apply H. by right.
Qed.

(** X26. Seeding the defaults touches the settings only, leaves every
    setting that already exists as it is, gives every other key the value of
    the seed list (numbers and texts as listed, no value for a key that is
    not listed), leaves every listed key present, and run again changes
    nothing. *)
Theorem seedDefaults_fills_only_missing_settings (st : Store) :
  ∃ st',
    seedDefaults st = (Return tt, st') ∧ same_but_settings st st' ∧
    (∀ key, setting_exists key st →
            settings st' !! key = settings st !! key ∧
            textSettings st' !! key = textSettings st !! key) ∧
    (∀ key, ¬ setting_exists key st →
            (settings st' !! key, textSettings st' !! key) = seeded_value defaults key) ∧
    (∀ kv, kv ∈ defaults → setting_exists kv.1 st') ∧
    seedDefaults st' = (Return tt, st').
Proof.
  unfold seedDefaults. destruct (seed_spec defaults st) as (st' & Hseed & Hframe & Hval).
  exists st'. split; [done|]. split; [done|].
  assert (Hpresent : ∀ kv, kv ∈ defaults → setting_exists kv.1 st').
  { intros [k v] Hkv. unfold setting_exists. specialize (Hval k). cbn [fst].
    case_decide as Hk.
    - injection Hval as -> ->. exact Hk.
    - unfold defaults in Hkv. rewrite !elem_of_cons, elem_of_nil in Hkv.
      destruct (settings st' !! k) as [z|], (textSettings st' !! k) as [s|]; eauto.
      exfalso.
      repeat (destruct Hkv as [Hkv|Hkv];
              [injection Hkv as -> ->; vm_compute in Hval; discriminate|]).
      done. }
  split; [|split; [|split; [done|]]].
  - intros key Hk. specialize (Hval key). rewrite decide_True in Hval by done.
    by injection Hval as -> ->.
  - intros key Hk. specialize (Hval key). by rewrite decide_False in Hval.
  - by apply seed_present.
Qed.

(** Reading a numeric setting after seeding, for a key whose seed is [z]. *)
Lemma get_after_seed (key : string) (z d : Z) (st st' : Store) :
  (∀ k, (settings st' !! k, textSettings st' !! k) =
        if decide (setting_exists k st)
        then (settings st !! k, textSettings st !! k)
        else seeded_value defaults k) →
  seeded_value defaults key = (Some z, None) →
  default d (settings st' !! key) =
    if decide (setting_exists key st) then default d (settings st !! key) else z.
Proof.
  intros Hval Hseed. specialize (Hval key). rewrite Hseed in Hval.
  case_decide; by injection Hval as -> _.
Qed.

(** X27. The seeded values agree with the fall-backs of the credit service
    for the cost of every action, the plan allotments and the price of a
    credit, so seeding never changes what [checkCredits] or
    [creditLimitForPlan] answer. The welcome grant differs: without an
    [initial_credits] setting a registration grants 10 credits before the
    seeding and 3 after it. *)
Theorem seeding_keeps_costs_but_not_the_welcome_grant (st : Store) :
  let st' := final (seedDefaults st) in
  (∀ userId action,
     outcome (checkCredits userId action st') = outcome (checkCredits userId action st)) ∧
  (∀ plan, outcome (creditLimitForPlan plan st') = outcome (creditLimitForPlan plan st)) ∧
  outcome (AppSettings_get "price_per_credit" 80 st')
    = outcome (AppSettings_get "price_per_credit" 80 st) ∧
  outcome (getInitialCredits st') =
    (if decide (setting_exists "initial_credits" st)
     then outcome (getInitialCredits st) else Return 3) ∧
  (¬ setting_exists "initial_credits" st → outcome (getInitialCredits st) = Return 10).
Proof.
  intros st'. subst st'. unfold seedDefaults.
  destruct (seed_spec defaults st) as (st' & Hseed & (Hu & _) & Hval). rewrite Hseed.
  cbn [final snd].
  assert (Hsame : ∀ key d, seeded_value defaults key = (Some d, None) →
                  default d (settings st' !! key) = default d (settings st !! key)).
  { intros key d Hd. rewrite (get_after_seed key d d st st' Hval Hd).
    case_decide as Hk; [done|]. unfold setting_exists in Hk.
    destruct (settings st !! key); [exfalso; apply Hk; eauto | done]. }
  split; [|split; [|split; [|split]]].
  - intros userId action. unfold checkCredits, User_findById.
    rewrite !bind_read, Hu. destruct (users st !! userId) as [u|]; [|done].
    destruct (User.role u); [done|].
    destruct (property costMap action) as [settingKey|] eqn:Hp; [|done].
    destruct (truthy_value settingKey); cbn [negb]; [|done].
    unfold AppSettings_get_cast.
    destruct (castString settingKey) as [key|] eqn:Hk; [|done].
    unfold AppSettings_get. rewrite !bind_read. unfold ret, outcome. cbn [fst].
    assert (Hkey : seeded_value defaults key = (Some 1, None) ∨
                   seeded_value defaults key = (None, None)).
    { unfold property in Hp. destruct (costMap !! action) as [own|] eqn:Hc.
      - injection Hp as <-. injection Hk as <-. left.
        unfold costMap in Hc. apply elem_of_list_to_map_2 in Hc.
        rewrite !elem_of_cons, elem_of_nil in Hc.
        repeat (destruct Hc as [Hc|Hc]; [by injection Hc as -> ->|]). done.
      - right. unfold Object_prototype in Hp.
        destruct (bool_decide (action = "constructor"));
          [injection Hp as <-; by injection Hk as <-|].
        destruct (bool_decide (action = "__proto__")); [by injection Hp as <-|].
        destruct (bool_decide (action ∈ _)) eqn:E; [|discriminate].
        apply bool_decide_eq_true in E. injection Hp as <-. injection Hk as <-.
        repeat (apply elem_of_cons in E as [-> | E]; [by vm_compute|]).
        by apply elem_of_nil in E. }
    destruct Hkey as [Hkey|Hkey]; [by rewrite (Hsame _ _ Hkey)|].
    specialize (Hval key). rewrite Hkey in Hval.
    case_decide as Hex; [by injection Hval as -> _|].
    injection Hval as -> _. unfold setting_exists in Hex.
    destruct (settings st !! key); [exfalso; apply Hex; eauto | done].
  - intros [|]; unfold creditLimitForPlan, AppSettings_get, read, outcome; cbn [fst];
      f_equal; by apply Hsame.
  - unfold AppSettings_get, read, outcome; cbn [fst]. f_equal. by apply Hsame.
  - unfold getInitialCredits, AppSettings_get, read, outcome; cbn [fst].
    rewrite (get_after_seed "initial_credits" 3 10 st st' Hval eq_refl).
    by case_decide.
  - intros Hk. unfold getInitialCredits, AppSettings_get, read, outcome; cbn [fst].
    unfold setting_exists in Hk.
    destruct (settings st !! "initial_credits"); [exfalso; apply Hk; eauto | done].
Qed.

(** X28. A registration with an e-mail that is taken answers 400 and
    changes nothing. With a free e-mail and a fresh id it answers 201, stores
    the user with the configured initial credits (10 when not configured) as
    balance, and appends exactly one initial entry of that amount with the
    same snapshot when the amount is positive, none otherwise; journal and
    subscriptions are untouched. *)
Theorem registration_grants_the_initial_credits_once
    (newId email : string) (role : Role) (st : Store) :
  let call := registerUser newId email role st in
  (email_taken email st = true → call = (Return 400, st)) ∧
  (email_taken email st = false → users st !! newId = None →
   let initialCredits := default 10 (settings st !! "initial_credits") in
   outcome call = Return 201 ∧
   users (final call) = <[newId := User.mk email role initialCredits]> (users st) ∧
   creditLogs (final call) =
     creditLogs st ++
       (if 0 <? initialCredits
        then [CreditLog.mk newId CreditLog.initial None initialCredits (Some initialCredits)
                ("Welcome bonus — " +:+ string_of_Z initialCredits +:+ " free credits")]
        else []) ∧
   transactions (final call) = transactions st ∧
   subscriptions (final call) = subscriptions st).
Proof.
  intros call. assert (Hcall : call =
    if email_taken email st then (Return 400, st)
    else match users st !! newId with
         | Some _ => (Return 500, st)
         | None =>
           let initialCredits := default 10 (settings st !! "initial_credits") in
           (Return 201,
            if 0 <? initialCredits
            then set_creditLogs
                   (λ l, l ++ [CreditLog.mk newId CreditLog.initial None initialCredits
                                 (Some initialCredits)
                                 ("Welcome bonus — " +:+ string_of_Z initialCredits
                                    +:+ " free credits")])
                   (set_users (<[newId := User.mk email role initialCredits]>) st)
            else set_users (<[newId := User.mk email role initialCredits]>) st)
         end).
  { subst call. unfold registerUser, try_catch. rewrite bind_read.
    destruct (email_taken email st); [done|].
    unfold getInitialCredits, AppSettings_get. rewrite bind_read.
    unfold bind at 1. unfold User_create. destruct (users st !! newId); [done|].
    cbv zeta. set (initialCredits := default 10 (settings st !! "initial_credits")).
    destruct (0 <? initialCredits) eqn:Hpos; [|done].
    unfold logCreditEvent, CreditLog_create, bind.
    cbn [CreditLog.credits CreditLog.description].
    apply Z.ltb_lt in Hpos.
    rewrite (proj2 (Z.ltb_ge initialCredits 0)) by lia.
    by rewrite nonempty_string. }
  rewrite Hcall. clear Hcall call. split.
  - by intros ->.
  - intros -> ->. cbv zeta.
    destruct (0 <? default 10 (settings st !! "initial_credits")); cbn;
      rewrite ?app_nil_r; done.
Qed.

(** X29. The cost of an action is read from the settings at each debit: right
    after [AppSettings.set] of the action's cost, a debit of a user who is not
    an admin is refused when the balance is below the new cost and otherwise
    charges it. A negative cost is charged too: the balance is raised by its
    magnitude, then the ledger entry is rejected by the schema and the debit
    fails with the raised balance kept. *)
Theorem cost_setting_is_read_at_each_debit
    (userId action settingKey : string) (u : User.t) (cost : Z) (st : Store) :
  users st !! userId = Some u → User.role u = user →
  costMap !! action = Some settingKey →
  let st1 := final (AppSettings_set settingKey (NumberValue cost) st) in
  deductCredits userId action st1 =
    if negb (cost <=? User.credits u)
    then (Return (insufficient cost (User.credits u)), st1)
    else if cost <? 0
    then (Throw (ValidationError "CreditLog" "credits"),
          set_users (<[userId := User.inc (- cost) u]>) st1)
    else (Return (Deduction.mk true cost (Fin (User.credits u - cost)) None None false),
          debited userId action u cost st1).
Proof.
  intros Hu Hr Hc st1.
  assert (Hu1 : users st1 !! userId = Some u) by done.
  assert (Hcost : default 1 (settings st1 !! settingKey) = cost).
  { subst st1. cbn. by rewrite lookup_insert_eq. }
  unfold deductCredits.
  rewrite (bind_Return _ _ _ _ _ (checkCredits_user _ _ _ _ _ Hu1 Hr Hc)).
  rewrite Hcost. unfold deduct_after_check.
  cbn [CreditCheck.unlimited CreditCheck.hasCredits CreditCheck.required CreditCheck.available].
  destruct (cost <=? User.credits u) eqn:Hle; cbn [negb]; [|done].
  unfold deduct_update, deduct_log, User_findByIdAndUpdate_inc, bind.
  cbn [CreditCheck.required]. rewrite Hu1.
  destruct (configured_action_label _ _ Hc) as (label & Hl & Hne).
  unfold CreditLog_create_described. rewrite (label_of_own _ _ Hl). cbn [castString].
  unfold CreditLog_create. cbn [CreditLog.credits CreditLog.description].
  destruct (cost <? 0) eqn:Hneg; [done|].
  unfold write, ret, debited. rewrite Hl. cbn [default from_option id].
  rewrite Hne. cbn [User.credits User.inc].
  repeat f_equal; lia.
Qed.

Lemma negative_cost_scenario :
  let st1 := final (AppSettings_set "credits_per_resume" (NumberValue (-5)) store_1_credit) in
  outcome (deductCredits "u1" "resume_creation" st1)
    = Throw (ValidationError "CreditLog" "credits") ∧
  balance_of "u1" (final (deductCredits "u1" "resume_creation" st1)) = Some 6 ∧
  creditLogs (final (deductCredits "u1" "resume_creation" st1)) = [].
Proof.
  cbv zeta.
  rewrite (cost_setting_is_read_at_each_debit "u1" "resume_creation" "credits_per_resume"
             (User.mk "ann@example.org" user 1) (-5) store_1_credit
             eq_refl eq_refl eq_refl).
  by vm_compute.
Defined.
